(** * Tracker_Live backend: draft / publish store and log lifecycle

    A shallow embedding of [backend/server.js] (the final version of the
    server, with the draft workflow) and the properties of its
    draft/publish/discard operations and of its log deletion routes.

    Layout:
    - [JS]: the JavaScript values the server handles (parsed JSON), and the
      platform operations the handlers call on them ([String], [toLowerCase],
      [decodeURIComponent], [JSON.stringify], [Array.prototype.filter]).
    - [Store]: the data directory, [loadData] / [saveData] / [loadDraft] /
      [saveDraft] and the start-up code.
    - [Server]: the request handlers and the route table.
    - [Spec]: the notions the specification is written in (structural
      equality, the cascade rule, uniqueness of [ts]).
    - the lemmas and the theorems. *)

From Stdlib Require Import ZArith List String Ascii Bool Lia Permutation.
From Stdlib Require Import DecimalString DecimalZ.
Import ListNotations.

Set Warnings "-register-all".

Local Open Scope list_scope.
Local Open Scope string_scope.

(* ================================================================== *)
(** * Exceptions *)

Inductive error : Type :=
| TypeError                     (* property of undefined/null, x is not a function *)
| URIError                      (* decodeURIComponent: malformed URI sequence *)
| SyntaxError                   (* JSON.parse *)
| IOError (message : string).   (* fs.readFileSync / fs.writeFileSync *)

(** The result of evaluating an expression that may throw. *)
Inductive outcome (A : Type) : Type :=
| Return (a : A)
| Throw (e : error).

Arguments Return {A} a.
Arguments Throw {A} e.

Definition bind {A B : Type} (m : outcome A) (k : A -> outcome B) : outcome B :=
  match m with
  | Return a => k a
  | Throw e => Throw e
  end.

Declare Scope js_scope.
Delimit Scope js_scope with js.
Notation "x <- m ;; k" := (bind m (fun x => k))
  (at level 61, m at next level, right associativity) : js_scope.
Local Open Scope js_scope.

(** [try { body } catch (err) { handler }] for a body that is an expression. *)
Definition try_catch {A : Type} (body : outcome A) (handler : error -> A) : A :=
  match body with
  | Return a => a
  | Throw e => handler e
  end.

(* ================================================================== *)
(** * JavaScript values *)

Module JS.

(** A value produced by [JSON.parse] (file contents, request bodies).
    Numbers are the integers (timestamps, counters) that a JavaScript
    number holds exactly; fractions and out-of-range literals are not
    modelled.  A string is the sequence of its UTF-8 bytes.  An object lists its own
    properties in enumeration order.  [undefined] is not a JSON value: an
    expression that may be [undefined] has type [value], with [None] for
    [undefined]. *)
Inductive json : Type :=
| JNull
| JBool (b : bool)
| JNum (n : Z)
| JStr (s : string)
| JArr (items : list json)
| JObj (props : list (string * json)).

Definition value : Type := option json.

(** Induction on a JSON value, with the hypothesis for every element of an
    array and every property value of an object. *)
Section JsonInduction.

Variable P : json -> Prop.
Hypothesis Pnull : P JNull.
Hypothesis Pbool : forall b, P (JBool b).
Hypothesis Pnum : forall n, P (JNum n).
Hypothesis Pstr : forall s, P (JStr s).
Hypothesis Parr : forall items, Forall P items -> P (JArr items).
Hypothesis Pobj :
  forall props, Forall (fun kv => P (snd kv)) props -> P (JObj props).

Fixpoint json_induction (x : json) : P x :=
  match x with
  | JNull => Pnull
  | JBool b => Pbool b
  | JNum n => Pnum n
  | JStr s => Pstr s
  | JArr items =>
      Parr items
        ((fix all (l : list json) : Forall P l :=
            match l with
            | [] => Forall_nil P
            | y :: l' => Forall_cons y (json_induction y) (all l')
            end) items)
  | JObj props =>
      Pobj props
        ((fix all (l : list (string * json))
            : Forall (fun kv => P (snd kv)) l :=
            match l with
            | [] => Forall_nil _
            | kv :: l' =>
                Forall_cons kv (json_induction (snd kv)) (all l')
            end) props)
  end.

End JsonInduction.

(** Own property lookup in an object. *)
Fixpoint lookup (k : string) (props : list (string * json)) : value :=
  match props with
  | [] => None
  | (k', v) :: rest => if String.eqb k k' then Some v else lookup k rest
  end.

(** [obj[k] = v] on an object: an existing property keeps its place, a new
    one is added last. *)
Fixpoint assign (k : string) (v : json) (props : list (string * json))
  : list (string * json) :=
  match props with
  | [] => [(k, v)]
  | (k', v') :: rest =>
      if String.eqb k k' then (k', v) :: rest else (k', v') :: assign k v rest
  end.

(** [x.k] for one of the data properties the server reads ([groups], [logs],
    [ts], [date], [type], [group]): a [TypeError] on [undefined] and [null],
    the own property of an object, [undefined] on every other value (arrays,
    strings, numbers and booleans have none of these properties). *)
Definition getProp (x : value) (k : string) : outcome value :=
  match x with
  | None => Throw TypeError
  | Some JNull => Throw TypeError
  | Some (JObj props) => Return (lookup k props)
  | Some _ => Return None
  end.

(** ToBoolean. *)
Definition truthy (x : value) : bool :=
  match x with
  | None => false
  | Some JNull => false
  | Some (JBool b) => b
  | Some (JNum n) => negb (Z.eqb n 0)
  | Some (JStr s) => negb (String.eqb s "")
  | Some (JArr _) => true
  | Some (JObj _) => true
  end.

Definition isArray (x : value) : bool :=
  match x with
  | Some (JArr _) => true
  | _ => false
  end.

(** [x === s] for a string [s]. *)
Definition strict_eq_string (x : value) (s : string) : bool :=
  match x with
  | Some (JStr t) => String.eqb t s
  | _ => false
  end.

(** Decimal notation of an integer, as [Number.prototype.toString] and
    [JSON.stringify] print it.  This is what JavaScript prints for the
    integers it holds exactly, the safe integers; beyond them a number is
    rounded when it is parsed and printed with fewer digits. *)
Definition string_of_Z (n : Z) : string :=
  NilZero.string_of_int (Z.to_int n).

(** [Number.isSafeInteger]: at most [Number.MAX_SAFE_INTEGER] in absolute
    value. *)
Definition safe_integer (n : Z) : bool := (Z.abs n <=? 9007199254740991)%Z.

(** Every number inside the value is a safe integer. *)
Fixpoint safe_numbers (x : json) : bool :=
  match x with
  | JNum n => safe_integer n
  | JArr items => forallb safe_numbers items
  | JObj props => forallb (fun kv => safe_numbers (snd kv)) props
  | _ => true
  end.

Definition join (sep : string) (parts : list string) : string :=
  match parts with
  | [] => ""
  | p :: rest => p ++ fold_right (fun q acc => sep ++ q ++ acc) "" rest
  end.

(** [String(x)], the ToString of the language.  A parsed object inherits
    [Object.prototype.toString] unless it has an own property [toString];
    such a property is never a function, and the conversion then finds
    nothing to call ([valueOf] gives back the object) and throws a
    [TypeError].  An array is joined with commas: [null] gives the empty
    string, every other element is converted in turn, and the first
    element that cannot be converted aborts the call. *)
Fixpoint toString (x : json) : outcome string :=
  match x with
  | JNull => Return "null"
  | JBool true => Return "true"
  | JBool false => Return "false"
  | JNum n => Return (string_of_Z n)
  | JStr s => Return s
  | JArr items =>
      parts <- (fix each (l : list json) : outcome (list string) :=
                  match l with
                  | [] => Return []
                  | i :: l' =>
                      p <- match i with
                           | JNull => Return ""
                           | _ => toString i
                           end ;;
                      ps <- each l' ;;
                      Return (p :: ps)
                  end) items ;;
      Return (join "," parts)
  | JObj props =>
      match lookup "toString" props with
      | Some _ => Throw TypeError
      | None => Return "[object Object]"
      end
  end.

Definition String_ (x : value) : outcome string :=
  match x with
  | None => Return "undefined"
  | Some j => toString j
  end.

(** The strings that [Array.prototype.join] puts together, as the loop
    inside [toString] computes them. *)
Definition element_string (i : json) : outcome string :=
  match i with
  | JNull => Return ""
  | _ => toString i
  end.

Fixpoint strings_of (l : list json) : outcome (list string) :=
  match l with
  | [] => Return []
  | i :: l' =>
      p <- element_string i ;;
      ps <- strings_of l' ;;
      Return (p :: ps)
  end.

(** ** Case

    The router compares the literal segments of a route through a regular
    expression with the flag [i]: for the ASCII literals of this server that
    is equality up to the case of the letters A-Z. *)
Definition lower_char (c : ascii) : ascii :=
  let n := nat_of_ascii c in
  if (65 <=? n)%nat && (n <=? 90)%nat then ascii_of_nat (n + 32) else c.

Fixpoint lower (s : string) : string :=
  match s with
  | EmptyString => EmptyString
  | String c rest => String (lower_char c) (lower rest)
  end.

(** [String.prototype.toLowerCase] follows the default case conversion of
    Unicode on the code points of the string.  Strings are UTF-8 here, so
    the bytes are read as code points, converted and written back.  The
    tables are those of the Unicode Character Database, version 14.0. *)

Definition byte_value (c : ascii) : Z := Z.of_N (N_of_ascii c).

Definition byte_of (b : Z) : ascii := ascii_of_N (Z.to_N b).

Definition within (lo b hi : Z) : bool := ((lo <=? b) && (b <=? hi))%Z.

(** The code points of a string.  A byte that starts no well-formed
    sequence (no string that was decoded holds one) is kept apart as the
    negative number [- 1 - b]. *)
Fixpoint code_points (s : string) : list Z :=
  match s with
  | EmptyString => []
  | String c0 rest =>
      let b0 := byte_value c0 in
      let stray := (- 1 - b0)%Z :: code_points rest in
      if (b0 <? 128)%Z then b0 :: code_points rest
      else
        match rest with
        | EmptyString => stray
        | String c1 rest1 =>
            let b1 := byte_value c1 in
            if within 194 b0 223 then
              if within 128 b1 191
              then ((b0 - 192) * 64 + (b1 - 128))%Z :: code_points rest1
              else stray
            else
              match rest1 with
              | EmptyString => stray
              | String c2 rest2 =>
                  let b2 := byte_value c2 in
                  if within 224 b0 239 then
                    if (if (b0 =? 224)%Z then within 160 b1 191
                        else if (b0 =? 237)%Z then within 128 b1 159
                        else within 128 b1 191)
                       && within 128 b2 191
                    then ((b0 - 224) * 4096 + (b1 - 128) * 64 + (b2 - 128))%Z
                         :: code_points rest2
                    else stray
                  else
                    match rest2 with
                    | EmptyString => stray
                    | String c3 rest3 =>
                        let b3 := byte_value c3 in
                        if within 240 b0 244
                           && (if (b0 =? 240)%Z then within 144 b1 191
                               else if (b0 =? 244)%Z then within 128 b1 143
                               else within 128 b1 191)
                           && within 128 b2 191 && within 128 b3 191
                        then ((b0 - 240) * 262144 + (b1 - 128) * 4096
                              + (b2 - 128) * 64 + (b3 - 128))%Z
                             :: code_points rest3
                        else stray
                    end
              end
        end
  end.

(** The UTF-8 bytes of a sequence of code points. *)
Definition utf8_onto (c : Z) (k : string) : string :=
  if (c <? 0)%Z then String (byte_of (- 1 - c)) k
  else if (c <? 128)%Z then String (byte_of c) k
  else if (c <? 2048)%Z then
    String (byte_of (192 + c / 64)) (String (byte_of (128 + c mod 64)) k)
  else if (c <? 65536)%Z then
    String (byte_of (224 + c / 4096))
      (String (byte_of (128 + (c / 64) mod 64))
         (String (byte_of (128 + c mod 64)) k))
  else
    String (byte_of (240 + c / 262144))
      (String (byte_of (128 + (c / 4096) mod 64))
         (String (byte_of (128 + (c / 64) mod 64))
            (String (byte_of (128 + c mod 64)) k))).

Definition utf8 (cs : list Z) : string := fold_right utf8_onto EmptyString cs.

(** The code points with a lowercase mapping of their own, in runs: from
    [first] to [last] in steps of [step], each mapped to itself plus
    [delta]. *)
Definition lower_runs : list (Z * Z * Z * Z) :=
  [(65, 90, 1, 32); (192, 214, 1, 32); (216, 222, 1, 32);
   (256, 302, 2, 1); (306, 310, 2, 1); (313, 327, 2, 1);
   (330, 374, 2, 1); (376, 376, 1, -121); (377, 381, 2, 1);
   (385, 385, 1, 210); (386, 388, 2, 1); (390, 390, 1, 206);
   (391, 391, 1, 1); (393, 394, 1, 205); (395, 395, 1, 1);
   (398, 398, 1, 79); (399, 399, 1, 202); (400, 400, 1, 203);
   (401, 401, 1, 1); (403, 403, 1, 205); (404, 404, 1, 207);
   (406, 406, 1, 211); (407, 407, 1, 209); (408, 408, 1, 1);
   (412, 412, 1, 211); (413, 413, 1, 213); (415, 415, 1, 214);
   (416, 420, 2, 1); (422, 422, 1, 218); (423, 423, 1, 1);
   (425, 425, 1, 218); (428, 428, 1, 1); (430, 430, 1, 218);
   (431, 431, 1, 1); (433, 434, 1, 217); (435, 437, 2, 1);
   (439, 439, 1, 219); (440, 440, 1, 1); (444, 444, 1, 1);
   (452, 452, 1, 2); (453, 453, 1, 1); (455, 455, 1, 2);
   (456, 456, 1, 1); (458, 458, 1, 2); (459, 475, 2, 1);
   (478, 494, 2, 1); (497, 497, 1, 2); (498, 500, 2, 1);
   (502, 502, 1, -97); (503, 503, 1, -56); (504, 542, 2, 1);
   (544, 544, 1, -130); (546, 562, 2, 1); (570, 570, 1, 10795);
   (571, 571, 1, 1); (573, 573, 1, -163); (574, 574, 1, 10792);
   (577, 577, 1, 1); (579, 579, 1, -195); (580, 580, 1, 69);
   (581, 581, 1, 71); (582, 590, 2, 1); (880, 882, 2, 1);
   (886, 886, 1, 1); (895, 895, 1, 116); (902, 902, 1, 38);
   (904, 906, 1, 37); (908, 908, 1, 64); (910, 911, 1, 63);
   (913, 929, 1, 32); (931, 939, 1, 32); (975, 975, 1, 8);
   (984, 1006, 2, 1); (1012, 1012, 1, -60); (1015, 1015, 1, 1);
   (1017, 1017, 1, -7); (1018, 1018, 1, 1); (1021, 1023, 1, -130);
   (1024, 1039, 1, 80); (1040, 1071, 1, 32); (1120, 1152, 2, 1);
   (1162, 1214, 2, 1); (1216, 1216, 1, 15); (1217, 1229, 2, 1);
   (1232, 1326, 2, 1); (1329, 1366, 1, 48); (4256, 4293, 1, 7264);
   (4295, 4295, 1, 7264); (4301, 4301, 1, 7264); (5024, 5103, 1, 38864);
   (5104, 5109, 1, 8); (7312, 7354, 1, -3008); (7357, 7359, 1, -3008);
   (7680, 7828, 2, 1); (7838, 7838, 1, -7615); (7840, 7934, 2, 1);
   (7944, 7951, 1, -8); (7960, 7965, 1, -8); (7976, 7983, 1, -8);
   (7992, 7999, 1, -8); (8008, 8013, 1, -8); (8025, 8031, 2, -8);
   (8040, 8047, 1, -8); (8072, 8079, 1, -8); (8088, 8095, 1, -8);
   (8104, 8111, 1, -8); (8120, 8121, 1, -8); (8122, 8123, 1, -74);
   (8124, 8124, 1, -9); (8136, 8139, 1, -86); (8140, 8140, 1, -9);
   (8152, 8153, 1, -8); (8154, 8155, 1, -100); (8168, 8169, 1, -8);
   (8170, 8171, 1, -112); (8172, 8172, 1, -7); (8184, 8185, 1, -128);
   (8186, 8187, 1, -126); (8188, 8188, 1, -9); (8486, 8486, 1, -7517);
   (8490, 8490, 1, -8383); (8491, 8491, 1, -8262); (8498, 8498, 1, 28);
   (8544, 8559, 1, 16); (8579, 8579, 1, 1); (9398, 9423, 1, 26);
   (11264, 11311, 1, 48); (11360, 11360, 1, 1); (11362, 11362, 1, -10743);
   (11363, 11363, 1, -3814); (11364, 11364, 1, -10727); (11367, 11371, 2, 1);
   (11373, 11373, 1, -10780); (11374, 11374, 1, -10749); (11375, 11375, 1, -10783);
   (11376, 11376, 1, -10782); (11378, 11378, 1, 1); (11381, 11381, 1, 1);
   (11390, 11391, 1, -10815); (11392, 11490, 2, 1); (11499, 11501, 2, 1);
   (11506, 11506, 1, 1); (42560, 42604, 2, 1); (42624, 42650, 2, 1);
   (42786, 42798, 2, 1); (42802, 42862, 2, 1); (42873, 42875, 2, 1);
   (42877, 42877, 1, -35332); (42878, 42886, 2, 1); (42891, 42891, 1, 1);
   (42893, 42893, 1, -42280); (42896, 42898, 2, 1); (42902, 42920, 2, 1);
   (42922, 42922, 1, -42308); (42923, 42923, 1, -42319); (42924, 42924, 1, -42315);
   (42925, 42925, 1, -42305); (42926, 42926, 1, -42308); (42928, 42928, 1, -42258);
   (42929, 42929, 1, -42282); (42930, 42930, 1, -42261); (42931, 42931, 1, 928);
   (42932, 42946, 2, 1); (42948, 42948, 1, -48); (42949, 42949, 1, -42307);
   (42950, 42950, 1, -35384); (42951, 42953, 2, 1); (42960, 42960, 1, 1);
   (42966, 42968, 2, 1); (42997, 42997, 1, 1); (65313, 65338, 1, 32);
   (66560, 66599, 1, 40); (66736, 66771, 1, 40); (66928, 66938, 1, 39);
   (66940, 66954, 1, 39); (66956, 66962, 1, 39); (66964, 66965, 1, 39);
   (68736, 68786, 1, 64); (71840, 71871, 1, 32); (93760, 93791, 1, 32);
   (125184, 125217, 1, 34)]%Z.

(** The code points with the property Case_Ignorable. *)
Definition case_ignorable_ranges : list (Z * Z) :=
  [(39, 39); (46, 46); (58, 58); (94, 94); (96, 96);
   (168, 168); (173, 173); (175, 175); (180, 180); (183, 184);
   (688, 879); (884, 885); (890, 890); (900, 901); (903, 903);
   (1155, 1161); (1369, 1369); (1375, 1375); (1425, 1469); (1471, 1471);
   (1473, 1474); (1476, 1477); (1479, 1479); (1524, 1524); (1536, 1541);
   (1552, 1562); (1564, 1564); (1600, 1600); (1611, 1631); (1648, 1648);
   (1750, 1757); (1759, 1768); (1770, 1773); (1807, 1807); (1809, 1809);
   (1840, 1866); (1958, 1968); (2027, 2037); (2042, 2042); (2045, 2045);
   (2070, 2093); (2137, 2139); (2184, 2184); (2192, 2193); (2200, 2207);
   (2249, 2306); (2362, 2362); (2364, 2364); (2369, 2376); (2381, 2381);
   (2385, 2391); (2402, 2403); (2417, 2417); (2433, 2433); (2492, 2492);
   (2497, 2500); (2509, 2509); (2530, 2531); (2558, 2558); (2561, 2562);
   (2620, 2620); (2625, 2626); (2631, 2632); (2635, 2637); (2641, 2641);
   (2672, 2673); (2677, 2677); (2689, 2690); (2748, 2748); (2753, 2757);
   (2759, 2760); (2765, 2765); (2786, 2787); (2810, 2815); (2817, 2817);
   (2876, 2876); (2879, 2879); (2881, 2884); (2893, 2893); (2901, 2902);
   (2914, 2915); (2946, 2946); (3008, 3008); (3021, 3021); (3072, 3072);
   (3076, 3076); (3132, 3132); (3134, 3136); (3142, 3144); (3146, 3149);
   (3157, 3158); (3170, 3171); (3201, 3201); (3260, 3260); (3263, 3263);
   (3270, 3270); (3276, 3277); (3298, 3299); (3328, 3329); (3387, 3388);
   (3393, 3396); (3405, 3405); (3426, 3427); (3457, 3457); (3530, 3530);
   (3538, 3540); (3542, 3542); (3633, 3633); (3636, 3642); (3654, 3662);
   (3761, 3761); (3764, 3772); (3782, 3782); (3784, 3789); (3864, 3865);
   (3893, 3893); (3895, 3895); (3897, 3897); (3953, 3966); (3968, 3972);
   (3974, 3975); (3981, 3991); (3993, 4028); (4038, 4038); (4141, 4144);
   (4146, 4151); (4153, 4154); (4157, 4158); (4184, 4185); (4190, 4192);
   (4209, 4212); (4226, 4226); (4229, 4230); (4237, 4237); (4253, 4253);
   (4348, 4348); (4957, 4959); (5906, 5908); (5938, 5939); (5970, 5971);
   (6002, 6003); (6068, 6069); (6071, 6077); (6086, 6086); (6089, 6099);
   (6103, 6103); (6109, 6109); (6155, 6159); (6211, 6211); (6277, 6278);
   (6313, 6313); (6432, 6434); (6439, 6440); (6450, 6450); (6457, 6459);
   (6679, 6680); (6683, 6683); (6742, 6742); (6744, 6750); (6752, 6752);
   (6754, 6754); (6757, 6764); (6771, 6780); (6783, 6783); (6823, 6823);
   (6832, 6862); (6912, 6915); (6964, 6964); (6966, 6970); (6972, 6972);
   (6978, 6978); (7019, 7027); (7040, 7041); (7074, 7077); (7080, 7081);
   (7083, 7085); (7142, 7142); (7144, 7145); (7149, 7149); (7151, 7153);
   (7212, 7219); (7222, 7223); (7288, 7293); (7376, 7378); (7380, 7392);
   (7394, 7400); (7405, 7405); (7412, 7412); (7416, 7417); (7468, 7530);
   (7544, 7544); (7579, 7679); (8125, 8125); (8127, 8129); (8141, 8143);
   (8157, 8159); (8173, 8175); (8189, 8190); (8203, 8207); (8216, 8217);
   (8228, 8228); (8231, 8231); (8234, 8238); (8288, 8292); (8294, 8303);
   (8305, 8305); (8319, 8319); (8336, 8348); (8400, 8432); (11388, 11389);
   (11503, 11505); (11631, 11631); (11647, 11647); (11744, 11775); (11823, 11823);
   (12293, 12293); (12330, 12333); (12337, 12341); (12347, 12347); (12441, 12446);
   (12540, 12542); (40981, 40981); (42232, 42237); (42508, 42508); (42607, 42610);
   (42612, 42621); (42623, 42623); (42652, 42655); (42736, 42737); (42752, 42785);
   (42864, 42864); (42888, 42890); (42994, 42996); (43000, 43001); (43010, 43010);
   (43014, 43014); (43019, 43019); (43045, 43046); (43052, 43052); (43204, 43205);
   (43232, 43249); (43263, 43263); (43302, 43309); (43335, 43345); (43392, 43394);
   (43443, 43443); (43446, 43449); (43452, 43453); (43471, 43471); (43493, 43494);
   (43561, 43566); (43569, 43570); (43573, 43574); (43587, 43587); (43596, 43596);
   (43632, 43632); (43644, 43644); (43696, 43696); (43698, 43700); (43703, 43704);
   (43710, 43711); (43713, 43713); (43741, 43741); (43756, 43757); (43763, 43764);
   (43766, 43766); (43867, 43871); (43881, 43883); (44005, 44005); (44008, 44008);
   (44013, 44013); (64286, 64286); (64434, 64450); (65024, 65039); (65043, 65043);
   (65056, 65071); (65106, 65106); (65109, 65109); (65279, 65279); (65287, 65287);
   (65294, 65294); (65306, 65306); (65342, 65342); (65344, 65344); (65392, 65392);
   (65438, 65439); (65507, 65507); (65529, 65531); (66045, 66045); (66272, 66272);
   (66422, 66426); (67456, 67461); (67463, 67504); (67506, 67514); (68097, 68099);
   (68101, 68102); (68108, 68111); (68152, 68154); (68159, 68159); (68325, 68326);
   (68900, 68903); (69291, 69292); (69446, 69456); (69506, 69509); (69633, 69633);
   (69688, 69702); (69744, 69744); (69747, 69748); (69759, 69761); (69811, 69814);
   (69817, 69818); (69821, 69821); (69826, 69826); (69837, 69837); (69888, 69890);
   (69927, 69931); (69933, 69940); (70003, 70003); (70016, 70017); (70070, 70078);
   (70089, 70092); (70095, 70095); (70191, 70193); (70196, 70196); (70198, 70199);
   (70206, 70206); (70367, 70367); (70371, 70378); (70400, 70401); (70459, 70460);
   (70464, 70464); (70502, 70508); (70512, 70516); (70712, 70719); (70722, 70724);
   (70726, 70726); (70750, 70750); (70835, 70840); (70842, 70842); (70847, 70848);
   (70850, 70851); (71090, 71093); (71100, 71101); (71103, 71104); (71132, 71133);
   (71219, 71226); (71229, 71229); (71231, 71232); (71339, 71339); (71341, 71341);
   (71344, 71349); (71351, 71351); (71453, 71455); (71458, 71461); (71463, 71467);
   (71727, 71735); (71737, 71738); (71995, 71996); (71998, 71998); (72003, 72003);
   (72148, 72151); (72154, 72155); (72160, 72160); (72193, 72202); (72243, 72248);
   (72251, 72254); (72263, 72263); (72273, 72278); (72281, 72283); (72330, 72342);
   (72344, 72345); (72752, 72758); (72760, 72765); (72767, 72767); (72850, 72871);
   (72874, 72880); (72882, 72883); (72885, 72886); (73009, 73014); (73018, 73018);
   (73020, 73021); (73023, 73029); (73031, 73031); (73104, 73105); (73109, 73109);
   (73111, 73111); (73459, 73460); (78896, 78904); (92912, 92916); (92976, 92982);
   (92992, 92995); (94031, 94031); (94095, 94111); (94176, 94177); (94179, 94180);
   (110576, 110579); (110581, 110587); (110589, 110590); (113821, 113822); (113824, 113827);
   (118528, 118573); (118576, 118598); (119143, 119145); (119155, 119170); (119173, 119179);
   (119210, 119213); (119362, 119364); (121344, 121398); (121403, 121452); (121461, 121461);
   (121476, 121476); (121499, 121503); (121505, 121519); (122880, 122886); (122888, 122904);
   (122907, 122913); (122915, 122916); (122918, 122922); (123184, 123197); (123566, 123566);
   (123628, 123631); (125136, 125142); (125252, 125259); (127995, 127999); (917505, 917505);
   (917536, 917631); (917760, 917999)]%Z.

(** The code points with the property Cased that are not Case_Ignorable. *)
Definition cased_ranges : list (Z * Z) :=
  [(65, 90); (97, 122); (170, 170); (181, 181); (186, 186);
   (192, 214); (216, 246); (248, 442); (444, 447); (452, 659);
   (661, 687); (880, 883); (886, 887); (891, 893); (895, 895);
   (902, 902); (904, 906); (908, 908); (910, 929); (931, 1013);
   (1015, 1153); (1162, 1327); (1329, 1366); (1376, 1416); (4256, 4293);
   (4295, 4295); (4301, 4301); (4304, 4346); (4349, 4351); (5024, 5109);
   (5112, 5117); (7296, 7304); (7312, 7354); (7357, 7359); (7424, 7467);
   (7531, 7543); (7545, 7578); (7680, 7957); (7960, 7965); (7968, 8005);
   (8008, 8013); (8016, 8023); (8025, 8025); (8027, 8027); (8029, 8029);
   (8031, 8061); (8064, 8116); (8118, 8124); (8126, 8126); (8130, 8132);
   (8134, 8140); (8144, 8147); (8150, 8155); (8160, 8172); (8178, 8180);
   (8182, 8188); (8450, 8450); (8455, 8455); (8458, 8467); (8469, 8469);
   (8473, 8477); (8484, 8484); (8486, 8486); (8488, 8488); (8490, 8493);
   (8495, 8500); (8505, 8505); (8508, 8511); (8517, 8521); (8526, 8526);
   (8544, 8575); (8579, 8580); (9398, 9449); (11264, 11387); (11390, 11492);
   (11499, 11502); (11506, 11507); (11520, 11557); (11559, 11559); (11565, 11565);
   (42560, 42605); (42624, 42651); (42786, 42863); (42865, 42887); (42891, 42894);
   (42896, 42954); (42960, 42961); (42963, 42963); (42965, 42969); (42997, 42998);
   (43002, 43002); (43824, 43866); (43872, 43880); (43888, 43967); (64256, 64262);
   (64275, 64279); (65313, 65338); (65345, 65370); (66560, 66639); (66736, 66771);
   (66776, 66811); (66928, 66938); (66940, 66954); (66956, 66962); (66964, 66965);
   (66967, 66977); (66979, 66993); (66995, 67001); (67003, 67004); (68736, 68786);
   (68800, 68850); (71840, 71903); (93760, 93823); (119808, 119892); (119894, 119964);
   (119966, 119967); (119970, 119970); (119973, 119974); (119977, 119980); (119982, 119993);
   (119995, 119995); (119997, 120003); (120005, 120069); (120071, 120074); (120077, 120084);
   (120086, 120092); (120094, 120121); (120123, 120126); (120128, 120132); (120134, 120134);
   (120138, 120144); (120146, 120485); (120488, 120512); (120514, 120538); (120540, 120570);
   (120572, 120596); (120598, 120628); (120630, 120654); (120656, 120686); (120688, 120712);
   (120714, 120744); (120746, 120770); (120772, 120779); (122624, 122633); (122635, 122654);
   (125184, 125251); (127280, 127305); (127312, 127337); (127344, 127369)]%Z.

(** Search in a table sorted by its first component. *)
Fixpoint in_ranges (c : Z) (ranges : list (Z * Z)) : bool :=
  match ranges with
  | [] => false
  | (first, last) :: rest =>
      if (c <? first)%Z then false
      else if (c <=? last)%Z then true
      else in_ranges c rest
  end.

Fixpoint lower_in (runs : list (Z * Z * Z * Z)) (c : Z) : Z :=
  match runs with
  | [] => c
  | (first, last, step, delta) :: rest =>
      if (c <? first)%Z then c
      else if ((c <=? last) && ((c - first) mod step =? 0))%Z then (c + delta)%Z
      else lower_in rest c
  end.

Definition case_ignorable (c : Z) : bool := in_ranges c case_ignorable_ranges.

Definition cased (c : Z) : bool := in_ranges c cased_ranges.

(** The context Final_Sigma, after the letter: no cased letter follows,
    case-ignorable characters apart. *)
Fixpoint cased_follows (cs : list Z) : bool :=
  match cs with
  | [] => false
  | c :: rest => if case_ignorable c then cased_follows rest else cased c
  end.

(** The conversion, with [after_cased] telling whether a cased letter
    precedes, case-ignorable characters apart.  Two mappings are not in the
    table: the capital sigma becomes the final sigma in the context
    Final_Sigma and the small sigma otherwise, and the capital I with dot
    above becomes i followed by the combining dot above. *)
Fixpoint lower_codes (after_cased : bool) (cs : list Z) : list Z :=
  match cs with
  | [] => []
  | c :: rest =>
      ((if (c =? 931)%Z then
          [if after_cased && negb (cased_follows rest) then 962 else 963]%Z
        else if (c =? 304)%Z then [105; 775]%Z
        else [lower_in lower_runs c])
       ++ lower_codes (if case_ignorable c then after_cased else cased c) rest)%list
  end.

Definition lowercase (s : string) : string :=
  utf8 (lower_codes false (code_points s)).

(** [x.toLowerCase()]: a [TypeError] unless [x] is a string. *)
Definition toLowerCase (x : value) : outcome string :=
  match x with
  | Some (JStr s) => Return (lowercase s)
  | _ => Throw TypeError
  end.

(** [Array.prototype.filter] with a callback that may throw: the elements
    are visited in order and the first exception aborts the call. *)
Fixpoint filter_ (keep : json -> outcome bool) (items : list json)
  : outcome (list json) :=
  match items with
  | [] => Return []
  | x :: rest =>
      b <- keep x ;;
      kept <- filter_ keep rest ;;
      Return (if b then x :: kept else kept)
  end.

(** ** decodeURIComponent

    Strings are byte strings (UTF-8).  An escape [%XX] stands for the byte
    [XX]; a byte of 128 or more must start a well-formed UTF-8 sequence
    whose other bytes are escapes too.  Anything else is a [URIError]. *)

Definition hex_digit (c : ascii) : option nat :=
  let n := nat_of_ascii c in
  if (48 <=? n)%nat && (n <=? 57)%nat then Some (n - 48)%nat
  else if (65 <=? n)%nat && (n <=? 70)%nat then Some (n - 55)%nat
  else if (97 <=? n)%nat && (n <=? 102)%nat then Some (n - 87)%nat
  else None.

Inductive uri_unit : Type :=
| Plain (c : ascii)
| Escaped (b : nat).

Fixpoint uri_units (s : string) : outcome (list uri_unit) :=
  match s with
  | EmptyString => Return []
  | String "%" (String h (String l rest)) =>
      match hex_digit h, hex_digit l with
      | Some x, Some y =>
          us <- uri_units rest ;; Return (Escaped (16 * x + y) :: us)
      | _, _ => Throw URIError
      end
  | String "%" _ => Throw URIError
  | String c rest => us <- uri_units rest ;; Return (Plain c :: us)
  end.

Definition between (lo b hi : nat) : bool := ((lo <=? b) && (b <=? hi))%nat.

Definition continuation (b : nat) : bool := between 128 b 191.

Definition valid3 (b b1 b2 : nat) : bool :=
  (if (b =? 224)%nat then between 160 b1 191
   else if (b =? 237)%nat then between 128 b1 159
   else continuation b1) && continuation b2.

Definition valid4 (b b1 b2 b3 : nat) : bool :=
  (if (b =? 240)%nat then between 144 b1 191
   else if (b =? 244)%nat then between 128 b1 143
   else continuation b1) && continuation b2 && continuation b3.

Definition byte (b : nat) : ascii := ascii_of_nat b.

Fixpoint decode_units (us : list uri_unit) : outcome string :=
  match us with
  | [] => Return ""
  | Plain c :: rest => s <- decode_units rest ;; Return (String c s)
  | Escaped b :: rest =>
      if (b <? 128)%nat then
        s <- decode_units rest ;; Return (String (byte b) s)
      else if between 194 b 223 then
        match rest with
        | Escaped b1 :: rest1 =>
            if continuation b1 then
              s <- decode_units rest1 ;;
              Return (String (byte b) (String (byte b1) s))
            else Throw URIError
        | _ => Throw URIError
        end
      else if between 224 b 239 then
        match rest with
        | Escaped b1 :: Escaped b2 :: rest2 =>
            if valid3 b b1 b2 then
              s <- decode_units rest2 ;;
              Return (String (byte b) (String (byte b1) (String (byte b2) s)))
            else Throw URIError
        | _ => Throw URIError
        end
      else if between 240 b 244 then
        match rest with
        | Escaped b1 :: Escaped b2 :: Escaped b3 :: rest3 =>
            if valid4 b b1 b2 b3 then
              s <- decode_units rest3 ;;
              Return (String (byte b) (String (byte b1)
                        (String (byte b2) (String (byte b3) s))))
            else Throw URIError
        | _ => Throw URIError
        end
      else Throw URIError
  end.

Definition decodeURIComponent (s : string) : outcome string :=
  us <- uri_units s ;; decode_units us.

(** ** JSON.stringify

    [stringify_onto x k] is the text of [x] followed by [k]; the text has no
    white space (no indent argument). *)

Definition dquote : ascii := "034"%char.
Definition backslash : ascii := "092"%char.

Definition hex_char (n : nat) : ascii :=
  nth n ["0"; "1"; "2"; "3"; "4"; "5"; "6"; "7";
         "8"; "9"; "a"; "b"; "c"; "d"; "e"; "f"]%char "0"%char.

(** QuoteJSONString, one character. *)
Definition escape (c : ascii) (k : string) : string :=
  match nat_of_ascii c with
  | 8 => String backslash (String "b" k)
  | 9 => String backslash (String "t" k)
  | 10 => String backslash (String "n" k)
  | 12 => String backslash (String "f" k)
  | 13 => String backslash (String "r" k)
  | 34 => String backslash (String dquote k)
  | 92 => String backslash (String backslash k)
  | n =>
      if (n <? 32)%nat then
        String backslash (String "u" (String "0" (String "0"
          (String (hex_char (n / 16)) (String (hex_char (n mod 16)) k)))))
      else String c k
  end%nat.

Fixpoint quote_body (s : string) (k : string) : string :=
  match s with
  | EmptyString => String dquote k
  | String c rest => escape c (quote_body rest k)
  end.

Definition quote (s : string) (k : string) : string :=
  String dquote (quote_body s k).

Fixpoint stringify_onto (x : json) (k : string) : string :=
  match x with
  | JNull => "null" ++ k
  | JBool true => "true" ++ k
  | JBool false => "false" ++ k
  | JNum n => string_of_Z n ++ k
  | JStr s => quote s k
  | JArr [] => "[]" ++ k
  | JArr (first :: others) =>
      "[" ++ stringify_onto first
        ((fix more (l : list json) : string :=
            match l with
            | [] => "]" ++ k
            | y :: l' => "," ++ stringify_onto y (more l')
            end) others)
  | JObj [] => "{}" ++ k
  | JObj ((key, v) :: others) =>
      "{" ++ quote key (":" ++ stringify_onto v
        ((fix more (l : list (string * json)) : string :=
            match l with
            | [] => "}" ++ k
            | (key', v') :: l' =>
                "," ++ quote key' (":" ++ stringify_onto v' (more l'))
            end) others))
  end.

Definition JSON_stringify (x : json) : string := stringify_onto x "".

(** The rest of an array and of an object after its first member, as the
    two inner loops of [stringify_onto] print it. *)
Fixpoint more_items (l : list json) (k : string) : string :=
  match l with
  | [] => "]" ++ k
  | y :: l' => "," ++ stringify_onto y (more_items l' k)
  end.

Fixpoint more_props (l : list (string * json)) (k : string) : string :=
  match l with
  | [] => "}" ++ k
  | (key, v) :: l' => "," ++ quote key (":" ++ stringify_onto v (more_props l' k))
  end.

(** Reading one character of a quoted string back: the inverse of
    [escape], undefined on the closing quote. *)
Definition unescape (s : string) : option (ascii * string) :=
  match s with
  | EmptyString => None
  | String c rest =>
      if Ascii.eqb c dquote then None
      else if Ascii.eqb c backslash then
        match rest with
        | EmptyString => None
        | String e rest' =>
            if Ascii.eqb e "b" then Some (ascii_of_nat 8, rest')
            else if Ascii.eqb e "t" then Some (ascii_of_nat 9, rest')
            else if Ascii.eqb e "n" then Some (ascii_of_nat 10, rest')
            else if Ascii.eqb e "f" then Some (ascii_of_nat 12, rest')
            else if Ascii.eqb e "r" then Some (ascii_of_nat 13, rest')
            else if Ascii.eqb e dquote then Some (dquote, rest')
            else if Ascii.eqb e backslash then Some (backslash, rest')
            else if Ascii.eqb e "u" then
              match rest' with
              | String _ (String _ (String h (String l k))) =>
                  match hex_digit h, hex_digit l with
                  | Some x, Some y => Some (ascii_of_nat (16 * x + y), k)
                  | _, _ => None
                  end
              | _ => None
              end
            else None
        end
      else Some (c, rest)
  end.

Definition is_digit (c : ascii) : bool := between 48 (nat_of_ascii c) 57.

Fixpoint all_digits (s : string) : bool :=
  match s with
  | EmptyString => true
  | String c rest => is_digit c && all_digits rest
  end.

(** The first character of a number, and of any value. *)
Definition number_head (c : ascii) : bool := is_digit c || Ascii.eqb c "-".

Definition value_head (c : ascii) : bool :=
  number_head c || Ascii.eqb c "n" || Ascii.eqb c "t" || Ascii.eqb c "f"
  || Ascii.eqb c dquote || Ascii.eqb c "[" || Ascii.eqb c "{".

(** A text that does not go on with a digit: what may follow a number. *)
Definition no_digit_head (k : string) : Prop :=
  match k with
  | EmptyString => True
  | String c _ => is_digit c = false
  end.

(** The text of [x] can be read back: it determines [x] and where the
    text after it starts. *)
Definition reads_back (x : json) : Prop :=
  forall (y : json) (k1 k2 : string),
    no_digit_head k1 -> no_digit_head k2 ->
    stringify_onto x k1 = stringify_onto y k2 -> x = y /\ k1 = k2.

End JS.

(* ================================================================== *)
(** * The data directory *)

Module Store.
Import JS.

(** The text of a file, up to what [JSON.parse] makes of it: the empty
    text, a text that is no JSON text, or a text that parses to [d]. *)
Inductive text : Type :=
| Empty
| Malformed
| Encodes (d : json).

Inductive file : Type :=
| Absent                (* no such file *)
| Unreadable            (* exists, reading it fails *)
| Content (t : text).

Definition path : Type := string.

(** Files are named by their path inside [DATA_DIR]. *)
Definition DATA_FILE : path := "data.json".
Definition USERS_FILE : path := "users.json".
Definition DRAFT_FILE : path := "draft.json".

(** The state of [DATA_DIR].  [write_error = Some m] is a directory that
    cannot be written: every write is refused when it opens its file and
    throws an error with message [m], and no file changes.  A write that
    fails after it has opened (and emptied) its file is not among the
    states of this model. *)
Record disk : Type := mkDisk {
  files : path -> file;
  write_error : option string
}.

(** Code that reads and writes the disk and may throw. *)
Definition M (A : Type) : Type := disk -> outcome A * disk.

Definition ret {A : Type} (a : A) : M A := fun fs => (Return a, fs).

Definition bindM {A B : Type} (m : M A) (k : A -> M B) : M B :=
  fun fs =>
    match m fs with
    | (Return a, fs') => k a fs'
    | (Throw e, fs') => (Throw e, fs')
    end.

Definition lift {A : Type} (o : outcome A) : M A := fun fs => (o, fs).

Definition gets {A : Type} (f : disk -> A) : M A := fun fs => (Return (f fs), fs).

Definition try_catchM {A : Type} (body : M A) (handler : error -> M A) : M A :=
  fun fs =>
    match body fs with
    | (Return a, fs') => (Return a, fs')
    | (Throw e, fs') => handler e fs'
    end.

Notation "x <-- m ;; k" := (bindM m (fun x => k))
  (at level 61, m at next level, right associativity) : js_scope.

(** ** The [fs] and [JSON] calls *)

Definition existsSync (fs : disk) (p : path) : bool :=
  match files fs p with
  | Absent => false
  | _ => true
  end.

Definition readFileSync (fs : disk) (p : path) : outcome text :=
  match files fs p with
  | Absent => Throw (IOError "ENOENT")
  | Unreadable => Throw (IOError "EACCES")
  | Content t => Return t
  end.

Definition JSON_parse (raw : text) : outcome json :=
  match raw with
  | Encodes d => Return d
  | Empty => Throw SyntaxError
  | Malformed => Throw SyntaxError
  end.

(** [raw || dflt], where [dflt] is the text of a JSON literal: the empty
    string is the only falsy string. *)
Definition or_text (raw : text) (dflt : json) : text :=
  match raw with
  | Empty => Encodes dflt
  | _ => raw
  end.

(** [JSON.stringify(data, null, 2)]: a text that parses back to [data]. *)
Definition JSON_stringify_2 (data : json) : text := Encodes data.

Definition put (p : path) (f : file) (fs : disk) : disk :=
  mkDisk (fun q => if String.eqb q p then f else files fs q) (write_error fs).

(** The calls that change the disk. *)
Inductive fs_call : Type :=
| WriteFileSync (p : path) (t : text)
| RenameSync (src dst : path).

Definition perform (c : fs_call) : M unit :=
  fun fs =>
    match write_error fs with
    | Some m => (Throw (IOError m), fs)
    | None =>
        match c with
        | WriteFileSync p t => (Return tt, put p (Content t) fs)
        | RenameSync src dst =>
            match files fs src with
            | Absent => (Throw (IOError "ENOENT"), fs)
            | f => (Return tt, put src Absent (put dst f fs))
            end
        end
    end.

Fixpoint perform_all (cs : list fs_call) : M unit :=
  match cs with
  | [] => ret tt
  | c :: rest => _ <-- perform c ;; perform_all rest
  end.

(** ** The store *)

Definition emptySnapshot : json := JObj [("groups", JArr []); ("logs", JArr [])].

(* function loadData() *)
Definition loadData (fs : disk) : json :=
  try_catch
    (raw <- readFileSync fs DATA_FILE ;;
     JSON_parse (or_text raw emptySnapshot))
    (fun _ => emptySnapshot).

(* function saveData(data): the calls it makes, and their effect *)
Definition saveData_calls (data : json) : list fs_call :=
  [WriteFileSync DATA_FILE (JSON_stringify_2 data)].

Definition saveData (data : json) : M unit := perform_all (saveData_calls data).

(* function loadDraft() *)
Definition loadDraft (fs : disk) : json :=
  try_catch
    (raw <- readFileSync fs DRAFT_FILE ;;
     JSON_parse (or_text raw emptySnapshot))
    (fun _ => loadData fs).

(* function saveDraft(data) *)
Definition saveDraft_calls (data : json) : list fs_call :=
  [WriteFileSync DRAFT_FILE (JSON_stringify_2 data)].

Definition saveDraft (data : json) : M unit := perform_all (saveDraft_calls data).

Definition defaultUsers : json :=
  JArr [JObj [("username", JStr "admin"); ("password", JStr "admin123");
              ("role", JStr "admin")];
        JObj [("username", JStr "user"); ("password", JStr "user123");
              ("role", JStr "user")]].

(** The module's top-level statements up to the routes: the data file, the
    users file and the draft file are created when they do not exist (the
    directory itself is created first; here it is the disk). *)
Definition startup : M unit :=
  data_exists <-- gets (fun fs => existsSync fs DATA_FILE) ;;
  _ <-- (if negb data_exists
         then perform (WriteFileSync DATA_FILE (JSON_stringify_2 emptySnapshot))
         else ret tt) ;;
  users_exist <-- gets (fun fs => existsSync fs USERS_FILE) ;;
  _ <-- (if negb users_exist
         then perform (WriteFileSync USERS_FILE (JSON_stringify_2 defaultUsers))
         else ret tt) ;;
  draft_exists <-- gets (fun fs => existsSync fs DRAFT_FILE) ;;
  if negb draft_exists then
    published <-- gets loadData ;;
    perform (WriteFileSync DRAFT_FILE (JSON_stringify_2 published))
  else ret tt.

End Store.

(* ================================================================== *)
(** * The request handlers *)

Module Server.
Import JS Store.

(** What the client receives: a JSON reply with its status, or the reply
    of the framework's default error handler (status 500) when the handler
    threw. *)
Inductive reply : Type :=
| Json (status : nat) (body : json)
| Uncaught (e : error)
| NotFound.

Definition status_of (r : reply) : nat :=
  match r with
  | Json status _ => status
  | Uncaught _ => 500
  | NotFound => 404
  end.

(** [err.message] *)
Definition message (e : error) : string :=
  match e with
  | TypeError => "TypeError"
  | URIError => "URI malformed"
  | SyntaxError => "Unexpected token"
  | IOError m => m
  end.

Definition json_of_nat (n : nat) : json := JNum (Z.of_nat n).

(** [data.logs = v] *)
Definition set_logs (data : json) (v : json) : json :=
  match data with
  | JObj props => JObj (assign "logs" v props)
  | _ => data
  end.

(* app.get("/api/data") *)
Definition get_data : M reply :=
  data <-- gets loadData ;; ret (Json 200 data).

(* app.get("/api/draft") *)
Definition get_draft : M reply :=
  draft <-- gets loadDraft ;; ret (Json 200 draft).

Definition bad_snapshot : reply :=
  Json 400 (JObj [("error", JStr "Groups and logs must be arrays")]).

(* app.post("/api/save") *)
Definition post_save (newData : value) : M reply :=
  match newData with
  | None => ret bad_snapshot
  | Some snapshot =>
      if negb (truthy newData) then ret bad_snapshot else
      groups <-- lift (getProp newData "groups") ;;
      if negb (isArray groups) then ret bad_snapshot else
      logs <-- lift (getProp newData "logs") ;;
      if negb (isArray logs) then ret bad_snapshot else
      _ <-- saveDraft snapshot ;;
      ret (Json 200 (JObj [("status", JStr "ok"); ("target", JStr "draft")]))
  end.

(* app.post("/api/publish") *)
Definition post_publish : M reply :=
  try_catchM
    (draft <-- gets loadDraft ;;
     _ <-- saveData draft ;;
     ret (Json 200 (JObj [("status", JStr "ok");
                          ("message", JStr "Published successfully")])))
    (fun err =>
       ret (Json 500 (JObj [("error", JStr ("Publish failed: " ++ message err))]))).

(* app.post("/api/discard") *)
Definition post_discard : M reply :=
  try_catchM
    (published <-- gets loadData ;;
     _ <-- saveDraft published ;;
     ret (Json 200 (JObj [("status", JStr "ok");
                          ("message", JStr "Draft discarded")])))
    (fun err =>
       ret (Json 500 (JObj [("error", JStr ("Discard failed: " ++ message err))]))).

(** The comparison made by the draft-status route. *)
Definition hasChanges (fs : disk) : bool :=
  let published := JSON_stringify (loadData fs) in
  let draft := JSON_stringify (loadDraft fs) in
  negb (String.eqb published draft).

(* app.get("/api/draft-status") *)
Definition get_draft_status : M reply :=
  try_catchM
    (changed <-- gets hasChanges ;;
     ret (Json 200 (JObj [("hasChanges", JBool changed)])))
    (fun _ => ret (Json 200 (JObj [("hasChanges", JBool false)]))).

(* app.get("/api/logs") *)
Definition get_logs : M reply :=
  data <-- gets loadData ;;
  logs <-- lift (getProp (Some data) "logs") ;;
  match logs with
  | Some l => if truthy logs then ret (Json 200 l) else ret (Json 200 (JArr []))
  | None => ret (Json 200 (JArr []))
  end.

Definition bad_log : reply :=
  Json 400 (JObj [("error", JStr "Invalid log format")]).

(* app.post("/api/logs") *)
Definition post_logs (newLog : value) : M reply :=
  match newLog with
  | None => ret bad_log
  | Some entry =>
      if negb (truthy newLog) then ret bad_log else
      date <-- lift (getProp newLog "date") ;;
      if negb (truthy date) then ret bad_log else
      type <-- lift (getProp newLog "type") ;;
      if negb (truthy type) then ret bad_log else
      data <-- gets loadData ;;
      logs <-- lift (getProp (Some data) "logs") ;;
      match logs with
      | Some (JArr items) =>
          (* data.logs.push(newLog) *)
          let data := set_logs data (JArr (items ++ [entry])%list) in
          _ <-- saveData data ;;
          ret (Json 200 (JObj [("status", JStr "ok"); ("log", entry)]))
      | _ => lift (Throw TypeError)
      end
  end.

(** The callback of the filter in the timestamp route:
    [(l) => String(l.ts) !== String(ts)]. *)
Definition keep_by_ts (ts : string) (l : json) : outcome bool :=
  l_ts <- getProp (Some l) "ts" ;;
  mine <- String_ l_ts ;;
  given <- String_ (Some (JStr ts)) ;;
  Return (negb (String.eqb mine given)).

(* app.delete("/api/logs/:ts") *)
Definition delete_log_by_ts (ts : string) : M reply :=
  data <-- gets loadData ;;
  logs <-- lift (getProp (Some data) "logs") ;;
  match logs with
  | Some (JArr items) =>
      let before := List.length items in
      kept <-- lift (filter_ (keep_by_ts ts) items) ;;
      let data := set_logs data (JArr kept) in
      let after := List.length kept in
      _ <-- saveData data ;;
      ret (Json 200 (JObj [("status", JStr "deleted");
                           ("ts", JStr ts);
                           ("removed", JNum (Z.of_nat before - Z.of_nat after))]))
  | _ => lift (Throw TypeError)
  end.

(** The callback of the filter in the group route:
    [log => log.group.toLowerCase() !==
            decodeURIComponent(groupName).toLowerCase()]. *)
Definition keep_by_group (groupName : string) (log : json) : outcome bool :=
  group <- getProp (Some log) "group" ;;
  lhs <- toLowerCase group ;;
  name <- decodeURIComponent groupName ;;
  Return (negb (String.eqb lhs (lowercase name))).

(* app.delete("/api/logs/:groupName") *)
Definition delete_logs_by_group (groupName : string) : M reply :=
  data <-- gets loadData ;;
  logs <-- lift (getProp (Some data) "logs") ;;
  match logs with
  | Some (JArr items) =>
      let before := List.length items in
      kept <-- lift (filter_ (keep_by_group groupName) items) ;;
      let data := set_logs data (JArr kept) in
      let after := List.length kept in
      _ <-- saveData data ;;
      name <-- lift (decodeURIComponent groupName) ;;
      ret (Json 200 (JObj [("status", JStr "deleted");
                           ("groupName", JStr name);
                           ("removed", JNum (Z.of_nat before - Z.of_nat after))]))
  | _ => lift (Throw TypeError)
  end.

(** The callback of the filter in the group-and-date route. *)
Definition keep_by_group_and_date (decodedGroupName decodedDate : string)
    (log : json) : outcome bool :=
  date <- getProp (Some log) "date" ;;
  (* Keep logs that don't match the criteria *)
  if negb (strict_eq_string date decodedDate) then Return true else
  type <- getProp (Some log) "type" ;;
  (* Always delete group-create and group-delete regardless of group *)
  if strict_eq_string type "group-create" || strict_eq_string type "group-delete"
  then Return false else
  group <- getProp (Some log) "group" ;;
  (* Delete logs that belong to this specific group *)
  mine <- (if truthy group
           then g <- toLowerCase group ;;
                Return (String.eqb g (lowercase decodedGroupName))
           else Return false) ;;
  if mine then Return false else
  (* Delete logs with unknown/missing group *)
  orphan <- (if negb (truthy group) then Return true
             else g <- toLowerCase group ;;
                  Return (String.eqb g "unknowngroup")) ;;
  if orphan then Return false else
  Return true.

(* app.delete("/api/logs/:groupName/:date") *)
Definition delete_logs_by_group_and_date (groupName date : string) : M reply :=
  data <-- gets loadData ;;
  decodedGroupName <-- lift (decodeURIComponent groupName) ;;
  decodedDate <-- lift (decodeURIComponent date) ;;
  logs <-- lift (getProp (Some data) "logs") ;;
  match logs with
  | Some (JArr items) =>
      let before := List.length items in
      kept <-- lift (filter_ (keep_by_group_and_date decodedGroupName decodedDate)
                             items) ;;
      let data := set_logs data (JArr kept) in
      let after := List.length kept in
      let removed := (Z.of_nat before - Z.of_nat after)%Z in
      _ <-- saveData data ;;
      ret (Json 200 (JObj [("status", JStr "deleted");
                           ("groupName", JStr decodedGroupName);
                           ("date", JStr decodedDate);
                           ("removed", JNum removed)]))
  | _ => lift (Throw TypeError)
  end.

(** ** Routing *)

Inductive method : Type := GET | POST | PUT | DELETE.

Definition method_eqb (a b : method) : bool :=
  match a, b with
  | GET, GET | POST, POST | PUT, PUT | DELETE, DELETE => true
  | _, _ => false
  end.

(** A request: its method, the segments of its path (non-empty, already
    decoded by the framework) and its parsed body. *)
Record request : Type := mkRequest {
  req_method : method;
  req_path : list string;
  req_body : value
}.

Inductive segment : Type :=
| Lit (s : string)
| Par (name : string).

Inductive endpoint : Type :=
| GetData | GetDraft | PostSave | PostPublish | PostDiscard | GetDraftStatus
| GetLogs | PostLogs | DeleteLogByTs | DeleteLogsByGroup
| DeleteLogsByGroupAndDate
| GetUsers | PostUsers | PostUsersCreate | PutUser | DeleteUser
| GetRecovery | GetTvUrls | PostTvUrls | PostUpload | DeleteUpload.

Record route : Type := mkRoute {
  route_method : method;
  route_path : list segment;
  route_endpoint : endpoint
}.

(** The routes, in the order in which the file registers them. *)
Definition routes : list route :=
  [ mkRoute GET [Lit "api"; Lit "data"] GetData;
    mkRoute GET [Lit "api"; Lit "draft"] GetDraft;
    mkRoute POST [Lit "api"; Lit "save"] PostSave;
    mkRoute POST [Lit "api"; Lit "publish"] PostPublish;
    mkRoute POST [Lit "api"; Lit "discard"] PostDiscard;
    mkRoute GET [Lit "api"; Lit "draft-status"] GetDraftStatus;
    mkRoute GET [Lit "api"; Lit "logs"] GetLogs;
    mkRoute POST [Lit "api"; Lit "logs"] PostLogs;
    mkRoute DELETE [Lit "api"; Lit "logs"; Par "ts"] DeleteLogByTs;
    mkRoute DELETE [Lit "api"; Lit "logs"; Par "groupName"] DeleteLogsByGroup;
    mkRoute DELETE [Lit "api"; Lit "logs"; Par "groupName"; Par "date"]
            DeleteLogsByGroupAndDate;
    mkRoute GET [Lit "api"; Lit "users"] GetUsers;
    mkRoute POST [Lit "api"; Lit "users"] PostUsers;
    mkRoute POST [Lit "api"; Lit "users"; Lit "create"] PostUsersCreate;
    mkRoute PUT [Lit "api"; Lit "users"; Par "username"] PutUser;
    mkRoute DELETE [Lit "api"; Lit "users"; Par "username"] DeleteUser;
    mkRoute GET [Lit "api"; Lit "admin"; Lit "recovery"] GetRecovery;
    mkRoute GET [Lit "api"; Lit "tv-urls"] GetTvUrls;
    mkRoute POST [Lit "api"; Lit "tv-urls"] PostTvUrls;
    mkRoute POST [Lit "api"; Lit "upload"] PostUpload;
    mkRoute DELETE [Lit "api"; Lit "upload"; Par "fileName"] DeleteUpload ].

Definition params : Type := list (string * string).

(** A literal segment matches without regard to case; a parameter matches
    any non-empty segment and records it.  The path is matched segment by
    segment as the request gives it: a trailing slash, and a 400 reply for
    a segment that the framework cannot decode, are not part of this
    table. *)
Fixpoint match_path (pattern : list segment) (p : list string) : option params :=
  match pattern, p with
  | [], [] => Some []
  | Lit s :: pattern', x :: p' =>
      if String.eqb (lower s) (lower x) then match_path pattern' p' else None
  | Par name :: pattern', x :: p' =>
      if String.eqb x "" then None
      else match match_path pattern' p' with
           | Some ps => Some ((name, x) :: ps)
           | None => None
           end
  | _, _ => None
  end.

(** The router runs the first route whose method and path match; none of
    the handlers passes control on. *)
Fixpoint find_route (rs : list route) (req : request) : option (endpoint * params) :=
  match rs with
  | [] => None
  | r :: rest =>
      if method_eqb (route_method r) (req_method req) then
        match match_path (route_path r) (req_path req) with
        | Some ps => Some (route_endpoint r, ps)
        | None => find_route rest req
        end
      else find_route rest req
  end.

Definition dispatch (req : request) : option (endpoint * params) :=
  find_route routes req.

Fixpoint param (name : string) (ps : params) : string :=
  match ps with
  | [] => ""
  | (n, v) :: rest => if String.eqb n name then v else param name rest
  end.

(** The handler of an endpoint of the draft and log routes (the user,
    TV-URL and upload handlers are not part of this development). *)
Definition handler (e : endpoint) (ps : params) (body : value) : option (M reply) :=
  match e with
  | GetData => Some get_data
  | GetDraft => Some get_draft
  | PostSave => Some (post_save body)
  | PostPublish => Some post_publish
  | PostDiscard => Some post_discard
  | GetDraftStatus => Some get_draft_status
  | GetLogs => Some get_logs
  | PostLogs => Some (post_logs body)
  | DeleteLogByTs => Some (delete_log_by_ts (param "ts" ps))
  | DeleteLogsByGroup => Some (delete_logs_by_group (param "groupName" ps))
  | DeleteLogsByGroupAndDate =>
      Some (delete_logs_by_group_and_date (param "groupName" ps) (param "date" ps))
  | _ => None
  end.

(** A handler run to its reply: an exception that leaves the handler is
    answered by the default error handler. *)
Definition run (h : M reply) (fs : disk) : reply * disk :=
  match h fs with
  | (Return r, fs') => (r, fs')
  | (Throw e, fs') => (Uncaught e, fs')
  end.

(** The application on the draft and log routes; [None] for a request that
    goes to one of the other handlers. *)
Definition app (req : request) (fs : disk) : option (reply * disk) :=
  match dispatch req with
  | None => Some (NotFound, fs)
  | Some (e, ps) =>
      match handler e ps (req_body req) with
      | Some h => Some (run h fs)
      | None => None
      end
  end.

(** The operations of the interface, and the handler that performs each. *)
Inductive operation : Type :=
| Append (entry : value)
| SaveDraft (snapshot : value)
| Publish
| Discard
| DeleteByTimestamp (ts : string)
| DeleteByGroup (groupName : string)
| DeleteByGroupAndDate (groupName date : string).

Definition perform_operation (o : operation) : M reply :=
  match o with
  | Append entry => post_logs entry
  | SaveDraft snapshot => post_save snapshot
  | Publish => post_publish
  | Discard => post_discard
  | DeleteByTimestamp ts => delete_log_by_ts ts
  | DeleteByGroup groupName => delete_logs_by_group groupName
  | DeleteByGroupAndDate groupName date =>
      delete_logs_by_group_and_date groupName date
  end.

Definition step (o : operation) (fs : disk) : disk :=
  snd (run (perform_operation o) fs).

End Server.

(* ================================================================== *)
(** * The notions of the specification *)

Module Spec.
Import JS Store Server.

(** The field [k] of a document or a log entry, [undefined] when it has
    none. *)
Definition field (x : json) (k : string) : value :=
  match x with
  | JObj props => lookup k props
  | _ => None
  end.

(** The logs sequence of a Snapshot. *)
Definition logs_of (snapshot : json) : list json :=
  match field snapshot "logs" with
  | Some (JArr items) => items
  | _ => []
  end.

(** Structural equality: arrays agree element by element, objects have the
    same keys with structurally equal values, in whatever order the keys
    are listed. *)
Inductive struct_eq : json -> json -> Prop :=
| se_null : struct_eq JNull JNull
| se_bool (b : bool) : struct_eq (JBool b) (JBool b)
| se_num (n : Z) : struct_eq (JNum n) (JNum n)
| se_str (s : string) : struct_eq (JStr s) (JStr s)
| se_arr (xs ys : list json) :
    Forall2 struct_eq xs ys -> struct_eq (JArr xs) (JArr ys)
| se_obj (ps qs : list (string * json)) :
    (forall k, lookup k ps = None <-> lookup k qs = None) ->
    (forall k v w, lookup k ps = Some v -> lookup k qs = Some w -> struct_eq v w) ->
    struct_eq (JObj ps) (JObj qs).

(** [b] lists the keys of [a] in another order (at the top level). *)
Definition key_permutation (a b : json) : Prop :=
  match a, b with
  | JObj ps, JObj qs => Permutation.Permutation ps qs
  | _, _ => False
  end.

(** The identity of a log entry: its [ts], normalized to a string, that is
    what [String(l.ts)] evaluates to. *)
Definition ts_key (l : json) : outcome string := String_ (field l "ts").

(** The entry has the identity [ts]. *)
Definition has_ts (ts : string) (l : json) : bool :=
  match ts_key l with
  | Return s => String.eqb s ts
  | Throw _ => false
  end.

Definition unique_ts (logs : list json) : Prop := NoDup (map ts_key logs).

(** An entry on which the timestamp route works as modelled: it is not
    [null], the numbers in its [ts] are safe integers (they print in full),
    and [String(l.ts)] returns. *)
Definition plain_ts (l : json) : Prop :=
  l <> JNull
  /\ (forall t, field l "ts" = Some t -> safe_numbers t = true)
  /\ exists s, ts_key l = Return s.

(** Both stored Snapshots have pairwise distinct [ts]. *)
Definition ts_invariant (fs : disk) : Prop :=
  unique_ts (logs_of (loadData fs)) /\ unique_ts (logs_of (loadDraft fs)).

(** Equality of names without regard to case. *)
Definition same_name (a b : string) : bool :=
  String.eqb (lowercase a) (lowercase b).

Definition has_date (date : string) (l : json) : bool :=
  strict_eq_string (field l "date") date.

Definition lifecycle_marker (l : json) : bool :=
  strict_eq_string (field l "type") "group-create"
  || strict_eq_string (field l "type") "group-delete".

Definition group_is (name : string) (l : json) : bool :=
  match field l "group" with
  | Some (JStr g) => same_name g name
  | _ => false
  end.

Definition group_absent (l : json) : bool :=
  match field l "group" with
  | None => true
  | Some _ => false
  end.

(** The cascade rule as the specification words it: an entry of the given
    date goes when it is a lifecycle marker, or its group is [groupName],
    or its group is absent or is unknowngroup. *)
Definition cascade_removes (groupName date : string) (l : json) : bool :=
  has_date date l
  && (lifecycle_marker l
      || group_is groupName l
      || group_absent l
      || group_is "unknowngroup" l).

(** The rule of the handler: the orphans are the entries whose group is
    falsy (absent, null, the empty string, ...) or is unknowngroup. *)
Definition group_falsy (l : json) : bool := negb (truthy (field l "group")).

Definition handler_removes (groupName date : string) (l : json) : bool :=
  has_date date l
  && (lifecycle_marker l
      || group_is groupName l
      || group_falsy l
      || group_is "unknowngroup" l).

(** No operation checks [ts]: this is what an operation has to satisfy for
    the identities to stay distinct.  An appended entry must carry a new
    identity and a saved draft must have distinct identities; the copies
    and the deletions need nothing. *)
Definition keeps_ts_distinct (o : operation) (fs : disk) : Prop :=
  match o with
  | Append entry =>
      forall e, entry = Some e ->
        ~ In (ts_key e) (map ts_key (logs_of (loadData fs)))
  | SaveDraft body => forall d, body = Some d -> unique_ts (logs_of d)
  | _ => True
  end.

(** What a route built on a filter of the published logs does to the disk:
    nothing, or it rewrites the published file with a selection of the
    logs. *)
Definition selection_of_logs (fs fs' : disk) : Prop :=
  fs' = fs \/
  exists props items f,
    loadData fs = JObj props
    /\ lookup "logs" props = Some (JArr items)
    /\ fs' = put DATA_FILE
               (Content (Encodes (JObj (assign "logs" (JArr (filter f items)) props))))
               fs.

(** An entry the group routes can read: not [null], and with a group that
    is a string when it is truthy. *)
Definition readable_log (l : json) : Prop :=
  l <> JNull /\
  (truthy (field l "group") = true -> exists g, field l "group" = Some (JStr g)).


End Spec.

(* ================================================================== *)
(** * Concrete disks and documents *)

Module Examples.
Import JS Store Server Spec.

(** A writable data directory holding the given data and draft files. *)
Definition disk_with (data draft : file) : disk :=
  mkDisk (fun p => if String.eqb p DATA_FILE then data
                   else if String.eqb p DRAFT_FILE then draft
                   else Absent)
         None.

Definition holding (d : json) : file := Content (Encodes d).

(** The data directory of a fresh installation. *)
Definition fresh_disk : disk := mkDisk (fun _ => Absent) None.

Definition log (ts : Z) (date group type : string) : json :=
  JObj [("ts", JNum ts); ("date", JStr date);
        ("group", JStr group); ("type", JStr type)].

Definition snapshot (logs : list json) : json :=
  JObj [("groups", JArr []); ("logs", JArr logs)].

(** The cascade scenario of the specification. *)
Definition ts1 : json := log 1 "2024-01-01" "A" "signin".
Definition ts2 : json := log 2 "2024-01-01" "X" "group-create".
Definition ts3 : json := log 3 "2024-01-01" "B" "signin".
Definition ts4 : json := log 4 "2024-01-02" "A" "signin".

Definition cascade_disk : disk :=
  disk_with (holding (snapshot [ts1; ts2; ts3; ts4])) Absent.

(** Three entries of one day whose groups differ by the case of their
    letters and by an accent. *)
Definition ecole_capitals : json := log 5 "2024-03-01" "ÉCOLE" "signin".
Definition ecole_title : json := log 6 "2024-03-01" "École" "signin".
Definition ecole_plain : json := log 7 "2024-03-01" "Ecole" "signin".

Definition school_disk : disk :=
  disk_with (holding (snapshot [ecole_capitals; ecole_title; ecole_plain])) Absent.

(** An entry whose group is the empty string. *)
Definition nameless : json := log 1 "2024-01-01" "" "signin".

Definition nameless_disk : disk := disk_with (holding (snapshot [nameless])) Absent.

(** An entry with no group field. *)
Definition groupless : json :=
  JObj [("ts", JNum 1); ("date", JStr "2024-01-01"); ("type", JStr "signin")].

Definition groupless_disk : disk :=
  disk_with (holding (snapshot [groupless])) Absent.

(** The same Snapshot with its keys in the two orders. *)
Definition groups_first : json := JObj [("groups", JArr []); ("logs", JArr [])].
Definition logs_first : json := JObj [("logs", JArr []); ("groups", JArr [])].

Definition same_order_disk : disk :=
  disk_with (holding groups_first) (holding groups_first).
Definition other_order_disk : disk :=
  disk_with (holding logs_first) (holding groups_first).

(** A published Snapshot with one group, next to an empty draft file. *)
Definition one_group : json :=
  JObj [("groups", JArr [JObj [("name", JStr "A")]]); ("logs", JArr [])].

Definition blank_draft_disk : disk := disk_with (holding one_group) (Content Empty).

(** Two entries whose [ts] are different values, the number 1 and the
    string "1". *)
Definition numbered : json :=
  JObj [("ts", JNum 1); ("date", JStr "2024-01-01"); ("type", JStr "signin")].
Definition lettered : json :=
  JObj [("ts", JStr "1"); ("date", JStr "2024-01-02"); ("type", JStr "signout")].

Definition mixed_ts_disk : disk :=
  disk_with (holding (snapshot [numbered; lettered])) Absent.

(** An entry whose [ts] is an object with a property named toString. *)
Definition opaque_ts : json :=
  JObj [("ts", JObj [("toString", JNum 1)]); ("date", JStr "2024-01-01");
        ("type", JStr "signin")].

Definition opaque_ts_disk : disk :=
  disk_with (holding (snapshot [numbered; opaque_ts])) Absent.

(** One published entry, and the same Snapshot as the draft. *)
Definition one_entry_disk : disk :=
  disk_with (holding (snapshot [ts1])) (holding (snapshot [ts1])).

End Examples.

(* ================================================================== *)
(** * User accounts *)

Module Accounts.
Import JS Store Server.

(** [a === b] for two values read from different documents (a file and a
    request body): primitives are compared by value, and an array or an
    object is never the same object as another one. *)
Definition strict_eq (a b : value) : bool :=
  match a, b with
  | None, None => true
  | Some JNull, Some JNull => true
  | Some (JBool x), Some (JBool y) => Bool.eqb x y
  | Some (JNum x), Some (JNum y) => Z.eqb x y
  | Some (JStr x), Some (JStr y) => String.eqb x y
  | _, _ => false
  end.

(** [x.k = v]: on an object the property is set; on anything else that
    can be read the assignment has no effect. *)
Definition set_prop (x : json) (k : string) (v : json) : json :=
  match x with
  | JObj props => JObj (assign k v props)
  | _ => x
  end.

(** [Array.prototype.find] and [findIndex] with a callback that may throw:
    the first element on which the callback is true, and its index. *)
Fixpoint find_ (test : json -> outcome bool) (items : list json) : outcome value :=
  match items with
  | [] => Return None
  | x :: rest =>
      b <- test x ;;
      if b then Return (Some x) else find_ test rest
  end.

Fixpoint findIndex_ (test : json -> outcome bool) (items : list json)
  : outcome (option nat) :=
  match items with
  | [] => Return None
  | x :: rest =>
      b <- test x ;;
      if b then Return (Some O)
      else i <- findIndex_ test rest ;; Return (option_map S i)
  end.

(** [items[i] = x] for an index inside the array. *)
Fixpoint update_at (i : nat) (x : json) (items : list json) : list json :=
  match items, i with
  | [], _ => []
  | _ :: rest, O => x :: rest
  | y :: rest, S i' => y :: update_at i' x rest
  end.

(* function loadUsers() *)
Definition loadUsers (fs : disk) : json :=
  try_catch
    (raw <- readFileSync fs USERS_FILE ;;
     JSON_parse (or_text raw (JArr [])))
    (fun _ => defaultUsers).

(* function saveUsers(users) *)
Definition saveUsers (users : json) : M unit :=
  perform (WriteFileSync USERS_FILE (JSON_stringify_2 users)).

Definition failed (what : string) : reply :=
  Json 500 (JObj [("error", JStr what)]).

(* app.get("/api/users") *)
Definition get_users : M reply :=
  try_catchM
    (users <-- gets loadUsers ;; ret (Json 200 users))
    (fun _ => ret (failed "Failed to load users")).




(** The callback [u => u.username === username]. *)
Definition named (username : value) (u : json) : outcome bool :=
  name <- getProp (Some u) "username" ;;
  Return (strict_eq name username).

(* app.post("/api/users/create") *)
Definition post_users_create (body : value) : M reply :=
  try_catchM
    (username <-- lift (getProp body "username") ;;
     password <-- lift (getProp body "password") ;;
     role <-- lift (getProp body "role") ;;
     match username, password, role with
     | Some u, Some p, Some r =>
         if negb (truthy username) || negb (truthy password) || negb (truthy role)
         then
           ret (Json 400 (JObj [("error",
                  JStr "Username, password, and role are required")]))
         else
           users <-- gets loadUsers ;;
           match users with
           | JArr items =>
               (* Check if username already exists *)
               existing <-- lift (find_ (named username) items) ;;
               if truthy existing then
                 ret (Json 409 (JObj [("error", JStr "Username already exists")]))
               else
                 let user := JObj [("username", u); ("password", p); ("role", r)] in
                 _ <-- saveUsers (JArr (items ++ [user])%list) ;;
                 ret (Json 200 (JObj [("status", JStr "ok");
                                      ("user", JObj [("username", u); ("role", r)])]))
           | _ => lift (Throw TypeError)
           end
     | _, _, _ =>
         ret (Json 400 (JObj [("error",
                JStr "Username, password, and role are required")]))
     end)
    (fun _ => ret (failed "Failed to create user")).

(** The callback [u => u.username === username] for a route parameter. *)
Definition called (username : string) (u : json) : outcome bool :=
  name <- getProp (Some u) "username" ;;
  Return (strict_eq_string name username).

(** [if (v) user.k = v] *)
Definition update_if (v : value) (k : string) (user : json) : json :=
  match v with
  | Some x => if truthy v then set_prop user k x else user
  | None => user
  end.

(* app.put("/api/users/:username") *)
Definition put_user (username : string) (body : value) : M reply :=
  try_catchM
    (password <-- lift (getProp body "password") ;;
     role <-- lift (getProp body "role") ;;
     newUsername <-- lift (getProp body "newUsername") ;;
     users <-- gets loadUsers ;;
     match users with
     | JArr items =>
         userIndex <-- lift (findIndex_ (called username) items) ;;
         match userIndex with
         | None => ret (Json 404 (JObj [("error", JStr "User not found")]))
         | Some i =>
             (* Update user properties *)
             let user := nth i items JNull in
             let user := update_if newUsername "username" user in
             let user := update_if password "password" user in
             let user := update_if role "role" user in
             _ <-- saveUsers (JArr (update_at i user items)) ;;
             ret (Json 200 (JObj [("status", JStr "ok"); ("user", user)]))
         end
     | _ => lift (Throw TypeError)
     end)
    (fun _ => ret (failed "Failed to update user")).



End Accounts.

(* ================================================================== *)
(** * TV display URLs and uploaded files *)

Module Displays.
Import JS Store Server.

Definition TV_URLS_FILE : path := "tv_urls.json".

(* function loadTVUrls() *)
Definition loadTVUrls (fs : disk) : json :=
  try_catch
    (raw <- readFileSync fs TV_URLS_FILE ;;
     JSON_parse (or_text raw (JArr [])))
    (fun _ => JArr []).

(* function saveTVUrls(urls) *)
Definition saveTVUrls (urls : json) : M unit :=
  perform (WriteFileSync TV_URLS_FILE (JSON_stringify_2 urls)).

(** The top-level statement that creates the TV URLs file when it does
    not exist, and start-up as a whole: the statements before the routes,
    then this one (the uploads directory is created too; it holds no file
    of the store). *)
Definition startup_tv_urls : M unit :=
  there <-- gets (fun fs => existsSync fs TV_URLS_FILE) ;;
  if negb there
  then perform (WriteFileSync TV_URLS_FILE (JSON_stringify_2 (JArr [])))
  else ret tt.

Definition startup_all : M unit :=
  _ <-- startup ;; startup_tv_urls.

(* app.get("/api/tv-urls") *)
Definition get_tv_urls : M reply :=
  urls <-- gets loadTVUrls ;; ret (Json 200 urls).

(* app.post("/api/tv-urls") *)
Definition post_tv_urls (body : value) : M reply :=
  match body with
  | Some (JArr urls) =>
      _ <-- saveTVUrls (JArr urls) ;;
      ret (Json 200 (JObj [("status", JStr "ok");
                           ("count", json_of_nat (List.length urls))]))
  | _ => ret (Json 400 (JObj [("error", JStr "URLs must be an array")]))
  end.

(** ** Uploaded files *)

(** The uploads directory, inside [DATA_DIR]; it is created when the
    server starts. *)
Definition UPLOADS_DIR : path := "uploads".

(** The character class [a-zA-Z0-9._-]. *)
Definition safe_char (c : ascii) : bool :=
  let n := nat_of_ascii c in
  between 97 n 122 || between 65 n 90 || between 48 n 57
  || Ascii.eqb c "." || Ascii.eqb c "_" || Ascii.eqb c "-".

(** [originalname.replace(/[^a-zA-Z0-9._-]/g, '_')], one unit of the name
    at a time.  The units are bytes here; for a name outside ASCII the
    number of underscores is that of its bytes. *)
Fixpoint safeName (originalname : string) : string :=
  match originalname with
  | EmptyString => EmptyString
  | String c rest =>
      String (if safe_char c then c else "_"%char) (safeName rest)
  end.

(** The [filename] callback of the disk storage, with [now] for
    [Date.now()]. *)
Definition filename (now : Z) (originalname : string) : string :=
  string_of_Z now ++ "_" ++ safeName originalname.

(** [s.startsWith(sub)] and [s.includes(sub)]. *)
Fixpoint starts_with (s sub : string) : bool :=
  match sub, s with
  | EmptyString, _ => true
  | String b sub', String a s' => Ascii.eqb a b && starts_with s' sub'
  | String _ _, EmptyString => false
  end.

Fixpoint includes (s sub : string) : bool :=
  starts_with s sub
  || match s with
     | EmptyString => false
     | String _ s' => includes s' sub
     end.

(** [path.join(UPLOADS_DIR, fileName)] for a name that has passed the
    check of the route (no separator, no two dots in a row): the single dot
    and the empty name give the directory itself. *)
Definition upload_path (fileName : string) : path :=
  if String.eqb fileName "." || String.eqb fileName EmptyString then UPLOADS_DIR
  else UPLOADS_DIR ++ "/" ++ fileName.

(** [fs.existsSync] and [fs.unlinkSync] on such a path: the uploads
    directory exists and cannot be unlinked. *)
Definition exists_upload (fs : disk) (p : path) : bool :=
  String.eqb p UPLOADS_DIR || existsSync fs p.

Definition unlinkSync (p : path) : M unit :=
  fun fs =>
    if String.eqb p UPLOADS_DIR then (Throw (IOError "EISDIR"), fs)
    else
      match write_error fs with
      | Some m => (Throw (IOError m), fs)
      | None => (Return tt, put p Absent fs)
      end.

Definition backslash_string : string := String backslash EmptyString.

(* app.delete("/api/upload/:fileName") *)
Definition delete_upload (fileName : string) : M reply :=
  let filePath := upload_path fileName in
  (* Security: don't allow path traversal *)
  if includes fileName ".." || includes fileName "/"
     || includes fileName backslash_string
  then ret (Json 400 (JObj [("error", JStr "Invalid filename")]))
  else
    try_catchM
      (there <-- gets (fun fs => exists_upload fs filePath) ;;
       _ <-- (if there then unlinkSync filePath else ret tt) ;;
       ret (Json 200 (JObj [("status", JStr "ok"); ("deleted", JStr fileName)])))
      (fun _ => ret (Json 500 (JObj [("error", JStr "Failed to delete file")]))).

(** What the upload middleware hands to the route: the name the client
    gave and the name under which the file was stored
    ([path.basename(req.file.path)]). *)
Record uploaded : Type := mkUploaded {
  originalname : string;
  stored_name : string
}.

(* app.post("/api/upload"), after the middleware; [name] is [req.body.name]
   and [uploadedAt] is [new Date().toISOString()] *)
Definition post_upload (file : option uploaded) (name : value) (uploadedAt : string)
  : M reply :=
  match file with
  | None => ret (Json 400 (JObj [("error", JStr "No file uploaded")]))
  | Some f =>
      let displayName :=
        match name with
        | Some n => if truthy name then n else JStr (originalname f)
        | None => JStr (originalname f)
        end in
      let fileName := stored_name f in
      let fileUrl := "/uploads/" ++ fileName in
      (* Add to TV URLs list *)
      urls <-- gets loadTVUrls ;;
      match urls with
      | JArr items =>
          let entry := JObj [("name", displayName); ("url", JStr fileUrl);
                             ("type", JStr "file");
                             ("originalName", JStr (originalname f));
                             ("uploadedAt", JStr uploadedAt)] in
          _ <-- saveTVUrls (JArr (items ++ [entry])%list) ;;
          ret (Json 200 (JObj [("status", JStr "ok"); ("name", displayName);
                               ("url", JStr fileUrl); ("fileName", JStr fileName)]))
      | _ => lift (Throw TypeError)
      end
  end.

End Displays.

(* ================================================================== *)
(** * The first server: backend.js *)

Module Backend.
Import JS Store Server.

(** The directory of the script holds the two files. *)
Definition DATA_FILE : path := "data.json".
Definition LOG_FILE : path := "logs.json".

(* function loadData() *)
Definition loadData (fs : disk) : json :=
  try_catch
    (raw <- readFileSync fs DATA_FILE ;; JSON_parse (or_text raw (JArr [])))
    (fun _ => JArr []).

(* function saveData(data) *)
Definition saveData (data : json) : M unit :=
  perform (WriteFileSync DATA_FILE (JSON_stringify_2 data)).

(* app.get("/api/data") *)
Definition get_data : M reply :=
  data <-- gets loadData ;; ret (Json 200 data).

(* app.post("/api/data") *)
Definition post_data (newData : value) : M reply :=
  match newData with
  | Some data =>
      if negb (truthy newData)
      then ret (Json 400 (JObj [("error", JStr "Missing data")]))
      else _ <-- saveData data ;; ret (Json 200 (JObj [("status", JStr "ok")]))
  | None => ret (Json 400 (JObj [("error", JStr "Missing data")]))
  end.

(* function loadLogs() *)
Definition loadLogs (fs : disk) : json :=
  try_catch
    (raw <- readFileSync fs LOG_FILE ;; JSON_parse (or_text raw (JArr [])))
    (fun _ => JArr []).

(* function saveLogs(logs) *)
Definition saveLogs (logs : json) : M unit :=
  perform (WriteFileSync LOG_FILE (JSON_stringify_2 logs)).

(* app.get("/api/logs") *)
Definition get_logs : M reply :=
  logs <-- gets loadLogs ;; ret (Json 200 logs).

(* app.post("/api/logs") *)
Definition post_logs (entry : value) : M reply :=
  match entry with
  | Some e =>
      if negb (truthy entry)
      then ret (Json 400 (JObj [("error", JStr "Missing log entry")]))
      else
        logs <-- gets loadLogs ;;
        match logs with
        | JArr items =>
            _ <-- saveLogs (JArr (items ++ [e])%list) ;;
            ret (Json 200 (JObj [("status", JStr "ok")]))
        | _ => lift (Throw TypeError)
        end
  | None => ret (Json 400 (JObj [("error", JStr "Missing log entry")]))
  end.

End Backend.

(* ================================================================== *)
(** * The server before the draft workflow *)

Module Legacy.
Import JS Store Server.

(* app.post("/api/save"), which overwrites the published file *)
Definition post_save (newData : value) : M reply :=
  match newData with
  | None => ret bad_snapshot
  | Some snapshot =>
      if negb (truthy newData) then ret bad_snapshot else
      groups <-- lift (getProp newData "groups") ;;
      if negb (isArray groups) then ret bad_snapshot else
      logs <-- lift (getProp newData "logs") ;;
      if negb (isArray logs) then ret bad_snapshot else
      _ <-- saveData snapshot ;;
      ret (Json 200 (JObj [("status", JStr "ok")]))
  end.

End Legacy.

(* ================================================================== *)
(** * Notions for the properties of the other routes *)

Module Notions.
Import JS Store Server Spec Accounts Displays.

(** An entry the append route accepts: [newLog && newLog.date &&
    newLog.type]. *)
Definition valid_log (e : json) : bool :=
  truthy (Some e) && truthy (field e "date") && truthy (field e "type").

(** The operations that work on the logs of the published file. *)
Definition on_published_logs (o : operation) : bool :=
  match o with
  | Append _ | DeleteByTimestamp _ | DeleteByGroup _
  | DeleteByGroupAndDate _ _ => true
  | SaveDraft _ | Publish | Discard => false
  end.

(** The entries posted one after the other. *)
Definition append_all (entries : list json) (fs : disk) : disk :=
  fold_left (fun fs e => step (Append (Some e)) fs) entries fs.

(** The string has no percent sign. *)
Fixpoint no_percent (s : string) : bool :=
  match s with
  | EmptyString => true
  | String c rest => negb (Ascii.eqb c "%") && no_percent rest
  end.

(** The user names of a list of accounts. *)
Definition username_of (u : json) : value := field u "username".

(** An account as the create route stores it: an object whose username is
    a string. *)
Definition has_name (name : string) (u : json) : bool :=
  strict_eq_string (username_of u) name.

(** Every account of the list can be read by the routes: none is [null]. *)
Definition readable_accounts (items : list json) : Prop :=
  Forall (fun u => u <> JNull) items.

(** Every character of the string is in the class the upload keeps. *)
Fixpoint all_safe (s : string) : bool :=
  match s with
  | EmptyString => true
  | String c rest => safe_char c && all_safe rest
  end.

(** The test of the delete-upload route: the name has two dots in a row, a
    slash or a backslash. *)
Definition refused_name (fileName : string) : bool :=
  includes fileName ".." || includes fileName "/"
  || includes fileName backslash_string.

(** Entries posted one after the other to the first server. *)
Definition backend_post_all (entries : list json) (fs : disk) : disk :=
  fold_left (fun fs e => snd (run (Backend.post_logs (Some e)) fs)) entries fs.

(** The accounts of a users document. *)
Definition accounts_of (users : json) : list json :=
  match users with
  | JArr items => items
  | _ => []
  end.

(** The index of the first element that satisfies [f]. *)
Fixpoint first_index (f : json -> bool) (items : list json) : option nat :=
  match items with
  | [] => None
  | x :: rest => if f x then Some O else option_map S (first_index f rest)
  end.


End Notions.

(* ================================================================== *)
(** * Lemmas on the store *)

Import JS Store Server Spec Examples.

Section StoreFacts.

Variable fs : disk.

Lemma files_put_same (p : path) (f : file) : files (put p f fs) p = f.
Proof. unfold put; simpl. now rewrite String.eqb_refl. Qed.

Lemma files_put_other (p q : path) (f : file) :
  q <> p -> files (put p f fs) q = files fs q.
Proof.
  intros Hne. unfold put; simpl.
  destruct (String.eqb_spec q p); [contradiction | reflexivity].
Qed.

Lemma write_error_put (p : path) (f : file) :
  write_error (put p f fs) = write_error fs.
Proof. reflexivity. Qed.

Lemma loadData_after_write (d : json) :
  loadData (put DATA_FILE (Content (Encodes d)) fs) = d.
Proof. reflexivity. Qed.

Lemma loadData_other_file (p : path) (f : file) :
  p <> DATA_FILE -> loadData (put p f fs) = loadData fs.
Proof.
  intros Hne. unfold loadData, readFileSync.
  rewrite files_put_other by congruence. reflexivity.
Qed.

Lemma loadDraft_after_write (d : json) :
  loadDraft (put DRAFT_FILE (Content (Encodes d)) fs) = d.
Proof. reflexivity. Qed.

(** The draft read after the published file was rewritten with [d]. *)
Lemma loadDraft_after_publish (d : json) :
  loadDraft (put DATA_FILE (Content (Encodes d)) fs) =
  match files fs DRAFT_FILE with
  | Content (Encodes x) => x
  | Content Empty => emptySnapshot
  | Content Malformed | Absent | Unreadable => d
  end.
Proof.
  unfold loadDraft, readFileSync.
  rewrite files_put_other by discriminate.
  destruct (files fs DRAFT_FILE) as [| |[| |x]]; reflexivity.
Qed.

Lemma loadDraft_cases :
  loadDraft fs =
  match files fs DRAFT_FILE with
  | Content (Encodes x) => x
  | Content Empty => emptySnapshot
  | Content Malformed | Absent | Unreadable => loadData fs
  end.
Proof.
  unfold loadDraft, readFileSync.
  destruct (files fs DRAFT_FILE) as [| |[| |x]]; reflexivity.
Qed.

Lemma saveData_ok (d : json) :
  write_error fs = None ->
  saveData d fs = (Return tt, put DATA_FILE (Content (Encodes d)) fs).
Proof.
  intros Hw. unfold saveData, saveData_calls, perform_all, bindM, perform.
  now rewrite Hw.
Qed.

Lemma saveData_fails (d : json) (m : string) :
  write_error fs = Some m -> saveData d fs = (Throw (IOError m), fs).
Proof.
  intros Hw. unfold saveData, saveData_calls, perform_all, bindM, perform.
  now rewrite Hw.
Qed.

Lemma saveDraft_ok (d : json) :
  write_error fs = None ->
  saveDraft d fs = (Return tt, put DRAFT_FILE (Content (Encodes d)) fs).
Proof.
  intros Hw. unfold saveDraft, saveDraft_calls, perform_all, bindM, perform.
  now rewrite Hw.
Qed.

Lemma saveDraft_fails (d : json) (m : string) :
  write_error fs = Some m -> saveDraft d fs = (Throw (IOError m), fs).
Proof.
  intros Hw. unfold saveDraft, saveDraft_calls, perform_all, bindM, perform.
  now rewrite Hw.
Qed.

End StoreFacts.

(** A published file written with the current draft leaves the draft as it
    reads. *)
Lemma loadDraft_stable_under_publish (fs : disk) :
  loadDraft (put DATA_FILE (Content (Encodes (loadDraft fs))) fs) = loadDraft fs.
Proof.
  rewrite loadDraft_after_publish, (loadDraft_cases fs).
  destruct (files fs DRAFT_FILE) as [| |[| |x]]; reflexivity.
Qed.

(** The two outcomes of the publish route. *)
Lemma publish_run (fs : disk) :
  run post_publish fs =
  match write_error fs with
  | None =>
      (Json 200 (JObj [("status", JStr "ok");
                       ("message", JStr "Published successfully")]),
       put DATA_FILE (Content (Encodes (loadDraft fs))) fs)
  | Some m => (Json 500 (JObj [("error", JStr ("Publish failed: " ++ m))]), fs)
  end.
Proof.
  unfold run, post_publish, try_catchM, bindM, gets.
  destruct (write_error fs) as [m|] eqn:Hw.
  - now rewrite (saveData_fails fs _ m Hw).
  - now rewrite (saveData_ok fs _ Hw).
Qed.

Lemma discard_run (fs : disk) :
  run post_discard fs =
  match write_error fs with
  | None =>
      (Json 200 (JObj [("status", JStr "ok"); ("message", JStr "Draft discarded")]),
       put DRAFT_FILE (Content (Encodes (loadData fs))) fs)
  | Some m => (Json 500 (JObj [("error", JStr ("Discard failed: " ++ m))]), fs)
  end.
Proof.
  unfold run, post_discard, try_catchM, bindM, gets.
  destruct (write_error fs) as [m|] eqn:Hw.
  - now rewrite (saveDraft_fails fs _ m Hw).
  - now rewrite (saveDraft_ok fs _ Hw).
Qed.

(* ================================================================== *)
(** * Structural equality *)

Lemma lookup_in (k : string) (props : list (string * json)) (v : json) :
  lookup k props = Some v -> exists k', In (k', v) props.
Proof.
  induction props as [|[k' v'] rest IH]; simpl; [discriminate|].
  destruct (String.eqb k k').
  - intros [= <-]. exists k'. now left.
  - intros H. destruct (IH H) as [k'' Hin]. exists k''. now right.
Qed.

Lemma struct_eq_refl (x : json) : struct_eq x x.
Proof.
  induction x as [| b | n | s | items IH | props IH] using json_induction;
    try constructor.
  - induction IH; constructor; assumption.
  - tauto.
  - intros k v w Hv Hw. rewrite Hv in Hw. injection Hw as <-.
    destruct (lookup_in _ _ _ Hv) as [k' Hin].
    rewrite Forall_forall in IH. exact (IH _ Hin).
Qed.

Lemma struct_eq_of_eq (x y : json) : x = y -> struct_eq x y.
Proof. intros ->. apply struct_eq_refl. Qed.

(* ================================================================== *)
(** * The draft and publish routes *)

Lemma getProp_field (d : json) (k : string) :
  d <> JNull -> getProp (Some d) k = Return (field d k).
Proof. intros H. destruct d; try reflexivity. congruence. Qed.

(** The save route, case by case. *)
Lemma post_save_run (d : json) (fs : disk) :
  run (post_save (Some d)) fs =
  if isArray (field d "groups") && isArray (field d "logs") then
    match write_error fs with
    | None =>
        (Json 200 (JObj [("status", JStr "ok"); ("target", JStr "draft")]),
         put DRAFT_FILE (Content (Encodes d)) fs)
    | Some m => (Uncaught (IOError m), fs)
    end
  else (bad_snapshot, fs).
Proof.
  unfold run, post_save.
  destruct d as [| b | n | s | items | props]; simpl.
  - reflexivity.
  - destruct b; reflexivity.
  - destruct (Z.eqb n 0); reflexivity.
  - destruct (String.eqb s ""); reflexivity.
  - reflexivity.
  - unfold bindM, lift; simpl.
    destruct (isArray (lookup "groups" props)); simpl; [|reflexivity].
    destruct (isArray (lookup "logs" props)); simpl; [|reflexivity].
    destruct (write_error fs) as [m|] eqn:Hw.
    + now rewrite (saveDraft_fails fs _ m Hw).
    + now rewrite (saveDraft_ok fs _ Hw).
Qed.





(** C6.  When the publish route answers 200, the published Snapshot read
    afterwards is the draft read before (so the two are structurally
    equal); and a second publish right after the first writes nothing new:
    every file, and the published Snapshot read from it, is as the first
    publish left it. *)
Theorem publish_copies_draft_and_is_idempotent :
  forall fs : disk,
    (status_of (fst (run post_publish fs)) = 200 ->
       loadData (step Publish fs) = loadDraft fs
       /\ struct_eq (loadData (step Publish fs)) (loadDraft fs))
    /\ (forall p, files (step Publish (step Publish fs)) p
                  = files (step Publish fs) p)
    /\ loadData (step Publish (step Publish fs)) = loadData (step Publish fs).
Proof.
  intros fs. unfold step, perform_operation.
  rewrite (publish_run fs).
  destruct (write_error fs) as [m|] eqn:Hw; simpl.
  - rewrite (publish_run fs), Hw; simpl.
    repeat split; lia.
  - rewrite publish_run, write_error_put, Hw; simpl.
    rewrite loadDraft_stable_under_publish.
    repeat split.
    + apply struct_eq_refl.
    + intros p. unfold put; simpl. destruct (String.eqb p DATA_FILE); reflexivity.
Qed.

Lemma publish_copies_draft_and_is_idempotent_witness :
  loadData (step Publish other_order_disk) = loadDraft other_order_disk.
Proof.
  destruct (publish_copies_draft_and_is_idempotent other_order_disk) as (H & _).
  apply H. reflexivity.
Defined.

(** Start-up on a directory with no draft file. *)
Lemma startup_without_draft (fs : disk) :
  files fs DRAFT_FILE = Absent -> write_error fs = None ->
  exists fs', startup fs = (Return tt, fs') /\ loadDraft fs' = loadData fs'.
Proof.
  destruct fs as [f w]; simpl. intros Hd ->.
  unfold startup, bindM, gets, existsSync, perform, ret. cbn.
  destruct (f DATA_FILE) eqn:Hdata; cbn;
    destruct (f USERS_FILE) eqn:Husers; cbn; rewrite ?Hd; cbn;
    eexists; (split; [reflexivity|]); reflexivity.
Qed.

(** C5 (amended).  When the draft file is missing, cannot be read, or holds
    a non-empty text that is not JSON, [loadDraft] returns what [loadData]
    returns; when the draft file is empty it returns the empty Snapshot;
    it is a total function (it never raises).  On a directory with no draft
    file, start-up writes one, after which the draft read is the published
    Snapshot read. *)
Theorem loadDraft_falls_back_to_published :
  forall fs : disk,
    (files fs DRAFT_FILE = Absent \/ files fs DRAFT_FILE = Unreadable
     \/ files fs DRAFT_FILE = Content Malformed ->
     loadDraft fs = loadData fs)
    /\ (files fs DRAFT_FILE = Content Empty -> loadDraft fs = emptySnapshot)
    /\ (files fs DRAFT_FILE = Absent -> write_error fs = None ->
        fst (startup fs) = Return tt
        /\ loadDraft (snd (startup fs)) = loadData (snd (startup fs))
        /\ struct_eq (loadDraft (snd (startup fs))) (loadData (snd (startup fs)))).
Proof.
  intros fs. split; [|split].
  - rewrite loadDraft_cases. intros [-> | [-> | ->]]; reflexivity.
  - rewrite loadDraft_cases. now intros ->.
  - intros Hd Hw.
    destruct (startup_without_draft fs Hd Hw) as (fs' & Hrun & Hdraft).
    rewrite Hrun; simpl. split; [reflexivity|].
    split; [exact Hdraft | now apply struct_eq_of_eq].
Qed.

Lemma loadDraft_falls_back_to_published_witness :
  loadDraft fresh_disk = loadData fresh_disk
  /\ loadDraft blank_draft_disk = emptySnapshot
  /\ loadDraft (snd (startup fresh_disk)) = loadData (snd (startup fresh_disk)).
Proof.
  destruct (loadDraft_falls_back_to_published fresh_disk) as (Hfall & _ & Hstart).
  destruct (loadDraft_falls_back_to_published blank_draft_disk) as (_ & Hblank & _).
  split; [|split].
  - apply Hfall. left. reflexivity.
  - apply Hblank. reflexivity.
  - apply Hstart; reflexivity.
Defined.

(** C5, as stated, fails: an empty draft file cannot be parsed, yet the
    draft read from it is the empty Snapshot and not the published one. *)
Lemma loadDraft_empty_file_is_not_published :
  files blank_draft_disk DRAFT_FILE = Content Empty
  /\ JSON_parse Empty = Throw SyntaxError
  /\ loadData blank_draft_disk = one_group
  /\ loadDraft blank_draft_disk = emptySnapshot
  /\ loadDraft blank_draft_disk <> loadData blank_draft_disk
  /\ ~ struct_eq (loadDraft blank_draft_disk) (loadData blank_draft_disk).
Proof.
  repeat split; try discriminate.
  intros H. inversion H as [| | | | |ps qs _ Hv]; subst.
  specialize (Hv "groups" (JArr []) (JArr [JObj [("name", JStr "A")]])
                 eq_refl eq_refl).
  inversion Hv as [| | | | xs ys Hf |]; subst. inversion Hf.
Qed.

(** C4 (amended).  [saveData] and [saveDraft] each make one call,
    [writeFileSync] on the file itself, with no temporary file and no
    rename; on a directory that can be written the call succeeds, the file
    then holds exactly the serialized document whatever it held before, and
    no other file changes. *)
Theorem save_is_one_direct_write :
  forall (data : json) (fs : disk),
    write_error fs = None ->
    saveData_calls data = [WriteFileSync DATA_FILE (JSON_stringify_2 data)]
    /\ saveDraft_calls data = [WriteFileSync DRAFT_FILE (JSON_stringify_2 data)]
    /\ fst (saveData data fs) = Return tt
    /\ files (snd (saveData data fs)) DATA_FILE = Content (Encodes data)
    /\ loadData (snd (saveData data fs)) = data
    /\ (forall p, p <> DATA_FILE -> files (snd (saveData data fs)) p = files fs p)
    /\ fst (saveDraft data fs) = Return tt
    /\ files (snd (saveDraft data fs)) DRAFT_FILE = Content (Encodes data)
    /\ loadDraft (snd (saveDraft data fs)) = data
    /\ (forall p, p <> DRAFT_FILE -> files (snd (saveDraft data fs)) p = files fs p).
Proof.
  intros data fs Hw.
  rewrite (saveData_ok fs data Hw), (saveDraft_ok fs data Hw); simpl.
  repeat split.
  - intros p Hp. now apply files_put_other.
  - intros p Hp. now apply files_put_other.
Qed.

Lemma save_is_one_direct_write_witness :
  loadData (snd (saveData one_group blank_draft_disk)) = one_group.
Proof.
  apply (save_is_one_direct_write one_group blank_draft_disk). reflexivity.
Defined.

(** C4, as stated, fails: a save writes to no location other than the
    backing file and renames nothing onto it, so its calls are not a write
    to a temporary file followed by a rename into place. *)
Lemma save_makes_no_rename :
  (forall c, In c (saveData_calls emptySnapshot) ->
     exists t, c = WriteFileSync DATA_FILE t)
  /\ (forall c, In c (saveDraft_calls emptySnapshot) ->
     exists t, c = WriteFileSync DRAFT_FILE t)
  /\ (~ exists tmp t, tmp <> DATA_FILE /\
       saveData_calls emptySnapshot = [WriteFileSync tmp t; RenameSync tmp DATA_FILE])
  /\ (~ exists tmp t, tmp <> DRAFT_FILE /\
       saveDraft_calls emptySnapshot = [WriteFileSync tmp t; RenameSync tmp DRAFT_FILE]).
Proof.
  split; [|split; [|split]].
  - intros c [<- | []]. eexists; reflexivity.
  - intros c [<- | []]. eexists; reflexivity.
  - intros (tmp & t & _ & H); discriminate.
  - intros (tmp & t & _ & H); discriminate.
Qed.

(* ================================================================== *)
(** * Lists, objects and filters *)

Lemma filter_total (keep : json -> outcome bool) (f : json -> bool)
      (items : list json) :
  Forall (fun x => keep x = Return (f x)) items ->
  filter_ keep items = Return (filter f items).
Proof.
  induction 1 as [|x rest Hx _ IH]; simpl; [reflexivity|].
  rewrite Hx, IH; simpl. destruct (f x); reflexivity.
Qed.

(** Whatever the callback, a filter that returns has kept a selection of
    the elements. *)
Lemma filter_selects (keep : json -> outcome bool) (items kept : list json) :
  filter_ keep items = Return kept ->
  kept = filter (fun x => match keep x with Return b => b | Throw _ => false end)
                items.
Proof.
  revert kept. induction items as [|x rest IH]; simpl; intros kept H.
  - now injection H as <-.
  - destruct (keep x) as [b|e]; simpl in H; [|discriminate].
    destruct (filter_ keep rest) as [kept'|e]; simpl in H; [|discriminate].
    injection H as <-. rewrite (IH kept' eq_refl).
    destruct b; reflexivity.
Qed.

Lemma removed_count (f : json -> bool) (items : list json) :
  (Z.of_nat (List.length items)
   - Z.of_nat (List.length (filter (fun x => negb (f x)) items)))%Z
  = Z.of_nat (List.length (filter f items)).
Proof.
  pose proof (filter_length f items) as H. lia.
Qed.

Lemma filter_none_removed (f : json -> bool) (items : list json) :
  filter f items = [] -> filter (fun x => negb (f x)) items = items.
Proof.
  induction items as [|x rest IH]; simpl; [reflexivity|].
  destruct (f x); simpl; [discriminate|]. intros H. now rewrite IH.
Qed.

Lemma lookup_assign (k : string) (v : json) (props : list (string * json)) :
  lookup k (assign k v props) = Some v.
Proof.
  induction props as [|[k' v'] rest IH]; simpl.
  - now rewrite String.eqb_refl.
  - destruct (String.eqb k k') eqn:E; simpl; rewrite E; [reflexivity | exact IH].
Qed.

Lemma assign_same (k : string) (v : json) (props : list (string * json)) :
  lookup k props = Some v -> assign k v props = props.
Proof.
  induction props as [|[k' v'] rest IH]; simpl; [discriminate|].
  destruct (String.eqb k k').
  - now intros [= ->].
  - intros H. now rewrite IH.
Qed.

Lemma logs_of_assign (items : list json) (props : list (string * json)) :
  logs_of (JObj (assign "logs" (JArr items) props)) = items.
Proof. unfold logs_of, field. now rewrite lookup_assign. Qed.

Lemma unique_ts_filter (f : json -> bool) (items : list json) :
  unique_ts items -> unique_ts (filter f items).
Proof.
  unfold unique_ts. induction items as [|x rest IH]; simpl; [trivial|].
  intros H. inversion H as [|? ? Hnotin Hrest]; subst.
  destruct (f x); simpl; [|now apply IH].
  constructor; [|now apply IH].
  intros Hin. apply Hnotin.
  apply in_map_iff in Hin as (y & Hy & Hiny).
  apply in_map_iff. exists y. split; [exact Hy|].
  apply filter_In in Hiny. tauto.
Qed.

Lemma has_ts_key (ts : string) (l : json) :
  has_ts ts l = true <-> ts_key l = Return ts.
Proof.
  unfold has_ts. destruct (ts_key l) as [s|e].
  - rewrite String.eqb_eq. split; [now intros -> | now intros [= ->]].
  - split; discriminate.
Qed.

(** With distinct identities, at most one entry has a given identity. *)
Lemma unique_ts_at_most_one (ts : string) (items : list json) :
  unique_ts items ->
  (List.length (filter (has_ts ts) items) <= 1)%nat.
Proof.
  unfold unique_ts. induction items as [|x rest IH]; simpl; [lia|].
  intros H. inversion H as [|? ? Hnotin Hrest]; subst.
  destruct (has_ts ts x) eqn:Hx; [|now apply IH].
  apply has_ts_key in Hx.
  simpl. replace (filter (has_ts ts) rest) with (@nil json).
  - simpl; lia.
  - symmetry. clear - Hnotin Hx. induction rest as [|y rest IH]; [reflexivity|].
    simpl. destruct (has_ts ts y) eqn:Hy.
    + exfalso. apply Hnotin. left. apply has_ts_key in Hy. congruence.
    + apply IH. intros Hin. apply Hnotin. now right.
Qed.

Lemma unique_ts_append (items : list json) (e : json) :
  unique_ts items -> ~ In (ts_key e) (map ts_key items) ->
  unique_ts (items ++ [e])%list.
Proof.
  unfold unique_ts. intros Hu Hnew. rewrite map_app. simpl.
  induction items as [|x rest IH]; simpl in *.
  - constructor; [tauto | constructor].
  - inversion Hu as [|? ? Hnotin Hrest]; subst.
    constructor.
    + rewrite in_app_iff. simpl. intros [Hin | [Heq | []]]; [tauto|].
      apply Hnew. now left.
    + apply IH; [assumption|]. intros Hin. apply Hnew. now right.
Qed.

(* ================================================================== *)
(** * The deletion routes *)

Lemma keep_by_ts_total (ts : string) (l : json) :
  plain_ts l -> keep_by_ts ts l = Return (negb (has_ts ts l)).
Proof.
  intros (Hl & _ & s & Hs). unfold keep_by_ts, has_ts.
  rewrite (getProp_field l _ Hl). cbn [bind].
  unfold ts_key in *. rewrite Hs. reflexivity.
Qed.

Lemma lowercase_unknowngroup : lowercase "unknowngroup" = "unknowngroup".
Proof. vm_compute. reflexivity. Qed.

(** The conversion on letters of several scripts: the accented capitals,
    the two forms of the small sigma, the capital sharp s and the capital
    I with dot above. *)
Lemma lowercase_samples :
  lowercase "Tracker LIVE" = "tracker live"
  /\ lowercase "ÉCOLE" = "école"
  /\ lowercase "ΟΔΟΣ ΣΟΦΙΑΣ" = "οδος σοφιας"
  /\ lowercase "STRAẞE" = "straße"
  /\ lowercase "İ" = "i̇"
  /\ lowercase "ЖУРНАЛ" = "журнал".
Proof. vm_compute. repeat split. Qed.

Lemma keep_by_group_and_date_total (g d : string) (l : json) :
  readable_log l ->
  keep_by_group_and_date g d l = Return (negb (handler_removes g d l)).
Proof.
  intros [Hl Hgroup]. unfold keep_by_group_and_date, handler_removes.
  rewrite !(getProp_field l _ Hl). unfold bind, has_date.
  destruct (strict_eq_string (field l "date") d); simpl; [|reflexivity].
  unfold lifecycle_marker.
  destruct (strict_eq_string (field l "type") "group-create"
            || strict_eq_string (field l "type") "group-delete");
    simpl; [reflexivity|].
  unfold group_is, group_falsy, same_name.
  destruct (truthy (field l "group")) eqn:Ht; cbn -[lowercase String.eqb].
  - destruct (Hgroup eq_refl) as [s Hs]. rewrite Hs; cbn -[lowercase String.eqb].
    rewrite lowercase_unknowngroup.
    destruct (String.eqb (lowercase s) (lowercase g));
      cbn -[lowercase String.eqb]; [reflexivity|].
    destruct (String.eqb (lowercase s) "unknowngroup"); reflexivity.
  - destruct (field l "group") as [[| | | s | |]|]; simpl;
      rewrite ?orb_true_r; reflexivity.
Qed.

(** The timestamp route on a published document with a logs array whose
    entries have an identity, when the directory can be written. *)
Lemma delete_log_by_ts_run (fs : disk) (ts : string)
      (props : list (string * json)) (items : list json) :
  loadData fs = JObj props ->
  lookup "logs" props = Some (JArr items) ->
  Forall plain_ts items ->
  write_error fs = None ->
  run (delete_log_by_ts ts) fs =
  (Json 200 (JObj [("status", JStr "deleted"); ("ts", JStr ts);
                   ("removed",
                    json_of_nat (List.length (filter (has_ts ts) items)))]),
   put DATA_FILE
       (Content (Encodes (JObj (assign "logs"
          (JArr (filter (fun l => negb (has_ts ts l)) items))
          props))))
       fs).
Proof.
  intros Hdata Hlogs Hitems Hw.
  unfold run, delete_log_by_ts, bindM, gets, lift.
  rewrite Hdata; simpl. rewrite Hlogs.
  rewrite (filter_total (keep_by_ts ts) (fun l => negb (has_ts ts l))).
  - rewrite saveData_ok by exact Hw. unfold ret.
    rewrite removed_count. reflexivity.
  - eapply Forall_impl; [|exact Hitems].
    intros l Hl. now apply keep_by_ts_total.
Qed.

Lemma delete_logs_by_group_and_date_run (fs : disk) (groupName date g d : string)
      (props : list (string * json)) (items : list json) :
  decodeURIComponent groupName = Return g ->
  decodeURIComponent date = Return d ->
  loadData fs = JObj props ->
  lookup "logs" props = Some (JArr items) ->
  Forall readable_log items ->
  write_error fs = None ->
  run (delete_logs_by_group_and_date groupName date) fs =
  (Json 200 (JObj [("status", JStr "deleted"); ("groupName", JStr g);
                   ("date", JStr d);
                   ("removed",
                    json_of_nat (List.length (filter (handler_removes g d) items)))]),
   put DATA_FILE
       (Content (Encodes (JObj (assign "logs"
          (JArr (filter (fun l => negb (handler_removes g d l)) items))
          props))))
       fs).
Proof.
  intros Hg Hd Hdata Hlogs Hitems Hw.
  unfold run, delete_logs_by_group_and_date, bindM, gets, lift.
  rewrite Hg, Hd, Hdata; simpl. rewrite Hlogs.
  rewrite (filter_total (keep_by_group_and_date g d)
             (fun l => negb (handler_removes g d l))).
  - rewrite saveData_ok by exact Hw. unfold ret.
    rewrite removed_count. reflexivity.
  - eapply Forall_impl; [|exact Hitems].
    intros l Hl. now apply keep_by_group_and_date_total.
Qed.

(** C7 (amended).  On a published Snapshot whose logs are entries with an
    identity (not [null], with a [ts] that [String] converts and whose
    numbers are safe integers), the timestamp route removes exactly the
    entries whose [ts], normalized to a string, is the given identifier (so
    a numeric [ts] matches its decimal form), keeps the others in order,
    leaves the rest of the document alone and reports the number removed;
    when the normalized [ts] are pairwise distinct it removes at most one
    entry, and when none matches the published Snapshot is unchanged and
    the count is 0. *)
Theorem delete_by_timestamp_removes_matching :
  forall (fs : disk) (ts : string)
         (props : list (string * json)) (items : list json),
    loadData fs = JObj props ->
    lookup "logs" props = Some (JArr items) ->
    Forall plain_ts items ->
    write_error fs = None ->
    fst (run (delete_log_by_ts ts) fs)
      = Json 200 (JObj [("status", JStr "deleted"); ("ts", JStr ts);
                        ("removed",
                         json_of_nat (List.length (filter (has_ts ts) items)))])
    /\ logs_of (loadData (step (DeleteByTimestamp ts) fs))
       = filter (fun l => negb (has_ts ts l)) items
    /\ loadData (step (DeleteByTimestamp ts) fs)
       = JObj (assign "logs" (JArr (filter (fun l => negb (has_ts ts l)) items))
                 props)
    /\ (forall l, has_ts ts l = true <-> String_ (field l "ts") = Return ts)
    /\ (forall (l : json) (n : Z),
          field l "ts" = Some (JNum n) -> safe_integer n = true ->
          ts = string_of_Z n -> has_ts ts l = true)
    /\ (unique_ts items -> (List.length (filter (has_ts ts) items) <= 1)%nat)
    /\ (filter (has_ts ts) items = [] ->
        loadData (step (DeleteByTimestamp ts) fs) = loadData fs
        /\ logs_of (loadData (step (DeleteByTimestamp ts) fs)) = items).
Proof.
  intros fs ts props items Hdata Hlogs Hitems Hw.
  unfold step, perform_operation.
  rewrite (delete_log_by_ts_run fs ts props items Hdata Hlogs Hitems Hw).
  cbn [fst snd]. rewrite loadData_after_write, logs_of_assign.
  split; [reflexivity|]. split; [reflexivity|]. split; [reflexivity|].
  split; [|split; [|split]].
  - intros l. apply has_ts_key.
  - intros l n Hl _ ->. apply has_ts_key. unfold ts_key. now rewrite Hl.
  - apply unique_ts_at_most_one.
  - intros Hnone. rewrite (filter_none_removed _ _ Hnone).
    rewrite (assign_same _ _ _ Hlogs). now rewrite Hdata.
Qed.

Lemma cascade_entries_plain : Forall plain_ts [ts1; ts2; ts3; ts4].
Proof.
  repeat constructor; try discriminate;
    try (intros t [= <-]; reflexivity); eexists; reflexivity.
Qed.

Lemma delete_by_timestamp_removes_matching_witness :
  logs_of (loadData (step (DeleteByTimestamp "3") cascade_disk)) = [ts1; ts2; ts4]
  /\ fst (run (delete_log_by_ts "3") cascade_disk)
     = Json 200 (JObj [("status", JStr "deleted"); ("ts", JStr "3");
                       ("removed", JNum 1)]).
Proof.
  destruct (delete_by_timestamp_removes_matching cascade_disk "3"
              [("groups", JArr []); ("logs", JArr [ts1; ts2; ts3; ts4])]
              [ts1; ts2; ts3; ts4] eq_refl eq_refl cascade_entries_plain eq_refl)
    as (Hreply & Hkept & _).
  split; [exact Hkept | exact Hreply].
Defined.

(** C7, as stated, fails: the [ts] of the two entries are different values,
    the number 1 and the string "1", so the [ts] values are unique in the
    sequence; both normalize to "1", and the deletion of "1" removes the
    two entries. *)
Lemma delete_by_timestamp_removes_two_distinct_ts :
  logs_of (loadData mixed_ts_disk) = [numbered; lettered]
  /\ field numbered "ts" = Some (JNum 1)
  /\ field lettered "ts" = Some (JStr "1")
  /\ NoDup (map (fun l => field l "ts") (logs_of (loadData mixed_ts_disk)))
  /\ fst (run (delete_log_by_ts "1") mixed_ts_disk)
     = Json 200 (JObj [("status", JStr "deleted"); ("ts", JStr "1");
                       ("removed", JNum 2)])
  /\ logs_of (loadData (step (DeleteByTimestamp "1") mixed_ts_disk)) = [].
Proof.
  split; [reflexivity|]. split; [reflexivity|]. split; [reflexivity|].
  split; [|split; reflexivity].
  constructor.
  - intros [H | []]. discriminate H.
  - constructor; [intros [] | constructor].
Qed.

(** C2 (amended).  Write [g] and [d] for the group name and the date after
    the handler has decoded them.  On a published Snapshot whose logs are
    entries with a string or falsy group, the group-and-date route keeps
    every entry whose date is not [d], and among the entries of date [d]
    removes exactly the lifecycle markers (whatever their group), the
    entries whose group is [g] without regard to case, and the entries
    whose group is falsy (absent, null or the empty string) or is
    unknowngroup without regard to case; it reports the number removed.
    On the four entries of the cascade scenario it removes ts1 and ts2,
    keeps ts3 and ts4 and reports 2. *)
Theorem delete_by_group_and_date_cascade :
  (forall (fs : disk) (groupName date g d : string)
          (props : list (string * json)) (items : list json),
      decodeURIComponent groupName = Return g ->
      decodeURIComponent date = Return d ->
      loadData fs = JObj props ->
      lookup "logs" props = Some (JArr items) ->
      Forall readable_log items ->
      write_error fs = None ->
      fst (run (delete_logs_by_group_and_date groupName date) fs)
        = Json 200 (JObj [("status", JStr "deleted"); ("groupName", JStr g);
                          ("date", JStr d);
                          ("removed",
                           json_of_nat (List.length
                             (filter (handler_removes g d) items)))])
      /\ logs_of (loadData (step (DeleteByGroupAndDate groupName date) fs))
         = filter (fun l => negb (handler_removes g d l)) items
      /\ (forall l, In l items -> has_date d l = false ->
            In l (logs_of (loadData (step (DeleteByGroupAndDate groupName date) fs))))
      /\ (forall l, In l items -> has_date d l = true ->
            (In l (logs_of (loadData (step (DeleteByGroupAndDate groupName date) fs)))
             <-> lifecycle_marker l = false /\ group_is g l = false
                 /\ group_falsy l = false /\ group_is "unknowngroup" l = false)))
  /\ fst (run (delete_logs_by_group_and_date "A" "2024-01-01") cascade_disk)
     = Json 200 (JObj [("status", JStr "deleted"); ("groupName", JStr "A");
                       ("date", JStr "2024-01-01"); ("removed", JNum 2)])
  /\ logs_of (loadData (step (DeleteByGroupAndDate "A" "2024-01-01") cascade_disk))
     = [ts3; ts4].
Proof.
  split; [|split; reflexivity].
  intros fs groupName date g d props items Hg Hd Hdata Hlogs Hitems Hw.
  unfold step, perform_operation.
  rewrite (delete_logs_by_group_and_date_run fs groupName date g d props items
             Hg Hd Hdata Hlogs Hitems Hw).
  cbn [fst snd]. rewrite loadData_after_write, logs_of_assign.
  split; [reflexivity|]. split; [reflexivity|]. split.
  - intros l Hin Hdate. apply filter_In. split; [exact Hin|].
    unfold handler_removes. now rewrite Hdate.
  - intros l Hin Hdate. rewrite filter_In. unfold handler_removes.
    rewrite Hdate; simpl. rewrite negb_true_iff, !orb_false_iff. tauto.
Qed.

Lemma school_entries_readable :
  Forall readable_log [ecole_capitals; ecole_title; ecole_plain].
Proof. repeat constructor; try discriminate; intros _; eexists; reflexivity. Qed.

Lemma delete_by_group_and_date_cascade_witness :
  logs_of (loadData (step (DeleteByGroupAndDate "%41" "2024-01-01") cascade_disk))
  = filter (fun l => negb (handler_removes "A" "2024-01-01" l)) [ts1; ts2; ts3; ts4]
  /\ logs_of (loadData (step (DeleteByGroupAndDate "%C3%89cole" "2024-03-01")
                             school_disk))
     = [ecole_plain].
Proof.
  assert (Hitems : Forall readable_log [ts1; ts2; ts3; ts4]).
  { repeat constructor; try discriminate;
      intros _; eexists; reflexivity. }
  destruct delete_by_group_and_date_cascade as (Hrule & _).
  destruct (Hrule cascade_disk "%41" "2024-01-01" "A" "2024-01-01"
              [("groups", JArr []); ("logs", JArr [ts1; ts2; ts3; ts4])]
              [ts1; ts2; ts3; ts4] eq_refl eq_refl eq_refl eq_refl Hitems eq_refl)
    as (_ & Hkept & _).
  destruct (Hrule school_disk "%C3%89cole" "2024-03-01" "École" "2024-03-01"
              [("groups", JArr []);
               ("logs", JArr [ecole_capitals; ecole_title; ecole_plain])]
              [ecole_capitals; ecole_title; ecole_plain]
              eq_refl eq_refl eq_refl eq_refl school_entries_readable eq_refl)
    as (_ & Hschool & _).
  split; [exact Hkept|]. rewrite Hschool. reflexivity.
Defined.

(** C2, as stated, fails: an entry of the given date whose group is the
    empty string is no lifecycle marker, its group is present, is not the
    given name and is not unknowngroup, so the rule of the claim keeps it;
    the route removes it. *)
Lemma cascade_removes_empty_group :
  field nameless "group" = Some (JStr "")
  /\ cascade_removes "A" "2024-01-01" nameless = false
  /\ logs_of (loadData nameless_disk) = [nameless]
  /\ logs_of (loadData (step (DeleteByGroupAndDate "A" "2024-01-01") nameless_disk))
     = []
  /\ fst (run (delete_logs_by_group_and_date "A" "2024-01-01") nameless_disk)
     = Json 200 (JObj [("status", JStr "deleted"); ("groupName", JStr "A");
                       ("date", JStr "2024-01-01"); ("removed", JNum 1)]).
Proof. repeat split. Qed.

(** The group route where it does not fault: every entry is an object with
    a string group, and the name decodes. *)
Lemma keep_by_group_total (groupName g : string) (l : json) :
  decodeURIComponent groupName = Return g ->
  (exists s, field l "group" = Some (JStr s)) ->
  keep_by_group groupName l = Return (negb (group_is g l)).
Proof.
  intros Hg [s Hs]. unfold keep_by_group, group_is.
  assert (Hl : l <> JNull) by (intros ->; discriminate Hs).
  rewrite (getProp_field l _ Hl), Hs, Hg. reflexivity.
Qed.

(** The handler of the group route, run by itself: an entry with no [group]
    field makes its callback throw a TypeError, and the handler removes
    nothing; the group-and-date handler reads the same entry without a
    fault.  Where every entry has a group, the handler removes the entries
    of the group, whatever the case of the name. *)
Lemma group_handler_faults_on_missing_group :
  field groupless "group" = None
  /\ keep_by_group "A" groupless = Throw TypeError
  /\ run (delete_logs_by_group "A") groupless_disk = (Uncaught TypeError, groupless_disk)
  /\ keep_by_group_and_date "A" "2024-01-02" groupless = Return true
  /\ logs_of (loadData (step (DeleteByGroup "a") cascade_disk)) = [ts2; ts3].
Proof. repeat split. Qed.

(* ================================================================== *)
(** * Uniqueness of ts *)

Lemma ts_invariant_put_data (fs : disk) (d : json) :
  unique_ts (logs_of d) -> ts_invariant fs ->
  ts_invariant (put DATA_FILE (Content (Encodes d)) fs).
Proof.
  unfold ts_invariant. intros Hd [_ Hdraft].
  rewrite loadData_after_write, loadDraft_after_publish.
  rewrite loadDraft_cases in Hdraft.
  split; [exact Hd|].
  destruct (files fs DRAFT_FILE) as [| |[| |x]]; assumption.
Qed.

Lemma ts_invariant_put_draft (fs : disk) (d : json) :
  unique_ts (logs_of d) -> ts_invariant fs ->
  ts_invariant (put DRAFT_FILE (Content (Encodes d)) fs).
Proof.
  unfold ts_invariant. intros Hd [Hdata _].
  rewrite loadDraft_after_write, loadData_other_file by discriminate.
  split; assumption.
Qed.

Lemma logs_of_object (d : json) (props : list (string * json)) (items : list json) :
  d = JObj props -> lookup "logs" props = Some (JArr items) -> logs_of d = items.
Proof. intros -> H. unfold logs_of, field. now rewrite H. Qed.

Lemma selection_keeps_ts (fs fs' : disk) :
  selection_of_logs fs fs' -> ts_invariant fs -> ts_invariant fs'.
Proof.
  intros [-> | (props & items & f & Hdata & Hlogs & ->)] Hinv; [exact Hinv|].
  apply ts_invariant_put_data; [|exact Hinv].
  rewrite logs_of_assign. apply unique_ts_filter.
  destruct Hinv as [Hu _]. now rewrite (logs_of_object _ _ _ Hdata Hlogs) in Hu.
Qed.

Ltac open_logs fs :=
  unfold run, bindM, gets, lift;
  destruct (loadData fs) as [| b | n | s | xs | props] eqn:Hdata; simpl;
  try (left; reflexivity);
  destruct (lookup "logs" props) as [[| b | n | s | items | ps]|] eqn:Hlogs;
  simpl; try (left; reflexivity).

Ltac after_filter fs keep items :=
  destruct (filter_ keep items) as [kept|e] eqn:Hkept; simpl;
  [ apply filter_selects in Hkept; subst kept;
    destruct (write_error fs) as [m|] eqn:Hw;
    [ rewrite (saveData_fails fs _ m Hw); simpl; left; reflexivity
    | rewrite (saveData_ok fs _ Hw); simpl ]
  | left; reflexivity ].

Lemma delete_log_by_ts_selects (ts : string) (fs : disk) :
  selection_of_logs fs (snd (run (delete_log_by_ts ts) fs)).
Proof.
  unfold delete_log_by_ts. open_logs fs.
  after_filter fs (keep_by_ts ts) items.
  right. exists props, items. eexists. repeat split; eassumption || reflexivity.
Qed.

Lemma delete_logs_by_group_selects (groupName : string) (fs : disk) :
  selection_of_logs fs (snd (run (delete_logs_by_group groupName) fs)).
Proof.
  unfold delete_logs_by_group. open_logs fs.
  after_filter fs (keep_by_group groupName) items.
  right. exists props, items. eexists.
  split; [exact Hdata|]. split; [exact Hlogs|].
  destruct (decodeURIComponent groupName); reflexivity.
Qed.

Lemma delete_logs_by_group_and_date_selects (groupName date : string) (fs : disk) :
  selection_of_logs fs (snd (run (delete_logs_by_group_and_date groupName date) fs)).
Proof.
  unfold delete_logs_by_group_and_date, run, bindM, gets, lift.
  destruct (decodeURIComponent groupName) as [g|e]; simpl; [|left; reflexivity].
  destruct (decodeURIComponent date) as [d|e]; simpl; [|left; reflexivity].
  destruct (loadData fs) as [| b | n | s | xs | props] eqn:Hdata; simpl;
    try (left; reflexivity).
  destruct (lookup "logs" props) as [[| b | n | s | items | ps]|] eqn:Hlogs;
    simpl; try (left; reflexivity).
  after_filter fs (keep_by_group_and_date g d) items.
  right. exists props, items. eexists. repeat split; eassumption || reflexivity.
Qed.

(** The append route: nothing, or the published file rewritten with the
    entry added last. *)
Lemma post_logs_appends (e : json) (fs : disk) :
  snd (run (post_logs (Some e)) fs) = fs \/
  exists props items,
    loadData fs = JObj props
    /\ lookup "logs" props = Some (JArr items)
    /\ snd (run (post_logs (Some e)) fs)
       = put DATA_FILE
           (Content (Encodes (JObj (assign "logs" (JArr (items ++ [e])%list) props))))
           fs.
Proof.
  remember (snd (run (post_logs (Some e)) fs)) as fs' eqn:E.
  unfold post_logs, run, bindM, lift, gets in E.
  destruct (negb (truthy (Some e))); [left; exact E|].
  destruct (getProp (Some e) "date") as [date|err]; [|left; exact E].
  destruct (negb (truthy date)); [left; exact E|].
  destruct (getProp (Some e) "type") as [type|err]; [|left; exact E].
  destruct (negb (truthy type)); [left; exact E|].
  destruct (loadData fs) as [| b | n | s | xs | props] eqn:Hdata; simpl in E;
    try (left; exact E).
  destruct (lookup "logs" props) as [[| b | n | s | items | ps]|] eqn:Hlogs;
    simpl in E; try (left; exact E).
  destruct (write_error fs) as [m|] eqn:Hw.
  - rewrite (saveData_fails fs _ m Hw) in E. left; exact E.
  - rewrite (saveData_ok fs _ Hw) in E.
    right. exists props, items.
    split; [reflexivity|]. split; [exact Hlogs|]. exact E.
Qed.

(** C9 (amended).  From a state in which the published logs and the draft
    logs each have pairwise distinct normalized [ts], publish, discard and
    the three deletions lead to such a state.  Append and saveDraft store
    what they are given without looking at [ts]: they lead to such a state
    when the appended entry carries a [ts] that no published entry has, and
    when the saved logs have pairwise distinct [ts]. *)
Theorem ts_uniqueness_preserved :
  forall (o : operation) (fs : disk),
    ts_invariant fs -> keeps_ts_distinct o fs -> ts_invariant (step o fs).
Proof.
  intros o fs Hinv Hok. unfold step.
  destruct o as [entry | body | | | ts | groupName | groupName date];
    cbn [perform_operation].
  - (* append *)
    destruct entry as [e|]; [|exact Hinv].
    destruct (post_logs_appends e fs) as [-> | (props & items & Hdata & Hlogs & ->)];
      [exact Hinv|].
    apply ts_invariant_put_data; [|exact Hinv].
    rewrite logs_of_assign.
    specialize (Hok e eq_refl). destruct Hinv as [Hu _].
    rewrite (logs_of_object _ _ _ Hdata Hlogs) in Hu, Hok.
    now apply unique_ts_append.
  - (* saveDraft *)
    destruct body as [d|]; [|exact Hinv].
    rewrite post_save_run.
    destruct (isArray (field d "groups") && isArray (field d "logs"));
      [|exact Hinv].
    destruct (write_error fs); [exact Hinv|]. cbn [snd].
    apply ts_invariant_put_draft; [|exact Hinv]. now apply Hok.
  - (* publish *)
    rewrite publish_run. destruct (write_error fs); [exact Hinv|]. cbn [snd].
    apply ts_invariant_put_data; [|exact Hinv]. apply Hinv.
  - (* discard *)
    rewrite discard_run. destruct (write_error fs); [exact Hinv|]. cbn [snd].
    apply ts_invariant_put_draft; [|exact Hinv]. apply Hinv.
  - exact (selection_keeps_ts _ _ (delete_log_by_ts_selects ts fs) Hinv).
  - exact (selection_keeps_ts _ _ (delete_logs_by_group_selects groupName fs) Hinv).
  - exact (selection_keeps_ts _ _
             (delete_logs_by_group_and_date_selects groupName date fs) Hinv).
Qed.

Lemma one_entry_disk_invariant : ts_invariant one_entry_disk.
Proof.
  split; (constructor; [intros [] | constructor]).
Qed.

Lemma ts_uniqueness_preserved_witness :
  ts_invariant (step (DeleteByGroupAndDate "A" "2024-01-01") one_entry_disk)
  /\ ts_invariant (step (Append (Some ts2)) one_entry_disk).
Proof.
  split.
  - apply (ts_uniqueness_preserved
             (DeleteByGroupAndDate "A" "2024-01-01") one_entry_disk).
    + exact one_entry_disk_invariant.
    + exact I.
  - apply (ts_uniqueness_preserved (Append (Some ts2)) one_entry_disk).
    + exact one_entry_disk_invariant.
    + intros e [= <-] [H | []]. discriminate H.
Defined.

(** C9, as stated, fails: appending an entry whose [ts] is already in the
    published logs, or saving a draft that lists an entry twice, is
    accepted and leaves two entries with the same [ts]. *)
Lemma append_and_save_accept_duplicate_ts :
  ts_invariant one_entry_disk
  /\ fst (run (post_logs (Some ts1)) one_entry_disk)
     = Json 200 (JObj [("status", JStr "ok"); ("log", ts1)])
  /\ logs_of (loadData (step (Append (Some ts1)) one_entry_disk)) = [ts1; ts1]
  /\ ~ ts_invariant (step (Append (Some ts1)) one_entry_disk)
  /\ logs_of (loadDraft (step (SaveDraft (Some (snapshot [ts1; ts1]))) one_entry_disk))
     = [ts1; ts1]
  /\ ~ ts_invariant (step (SaveDraft (Some (snapshot [ts1; ts1]))) one_entry_disk).
Proof.
  split; [exact one_entry_disk_invariant|].
  split; [reflexivity|]. split; [reflexivity|].
  split; [|split; [reflexivity|]].
  - intros [H _]. inversion H as [|? ? Hnotin _]. apply Hnotin. now left.
  - intros [_ H]. inversion H as [|? ? Hnotin _]. apply Hnotin. now left.
Qed.

(* ================================================================== *)
(** * Routing *)

(** The two single-parameter patterns under /api/logs match the same
    paths. *)
Lemma logs_param_patterns_agree (a b : string) (p : list string) :
  match_path [Lit "api"; Lit "logs"; Par a] p = None ->
  match_path [Lit "api"; Lit "logs"; Par b] p = None.
Proof.
  destruct p as [|x1 [|x2 [|x3 [|x4 rest]]]]; cbn -[lower String.eqb];
    try reflexivity;
    destruct (String.eqb (lower "api") (lower x1)); try reflexivity;
    destruct (String.eqb (lower "logs") (lower x2)); try reflexivity;
    destruct (String.eqb x3 ""); try reflexivity; discriminate.
Qed.

Lemma group_route_is_shadowed (req : request) (ps : params) :
  dispatch req <> Some (DeleteLogsByGroup, ps).
Proof.
  destruct req as [m p body]. unfold dispatch, routes.
  destruct m; cbn -[match_path];
    repeat match goal with
      | |- context [match match_path ?pat ?x with _ => _ end] =>
          let E := fresh "E" in
          destruct (match_path pat x) eqn:E; [discriminate|]
      end;
    try discriminate.
  rewrite (logs_param_patterns_agree "ts" "groupName" p E).
  repeat match goal with
    | |- context [match match_path ?pat ?x with _ => _ end] =>
        destruct (match_path pat x); [discriminate|]
    end.
  discriminate.
Qed.

Lemma single_segment_delete_dispatch (a l x : string) (body : value) :
  lower a = "api" -> lower l = "logs" -> x <> "" ->
  dispatch (mkRequest DELETE [a; l; x] body) = Some (DeleteLogByTs, [("ts", x)]).
Proof.
  intros Ha Hl Hx. unfold dispatch, routes.
  cbn -[lower String.eqb]. rewrite Ha, Hl.
  apply String.eqb_neq in Hx. rewrite Hx. reflexivity.
Qed.

(** C10.  A DELETE request on a single segment [x] under /api/logs is
    dispatched to the timestamp route with [ts = x], and the reply and the
    new disk are those of the timestamp handler; no request at all is
    dispatched to the group route, whose handler therefore never runs. *)
Theorem single_segment_delete_is_by_timestamp :
  forall (a l x : string) (body : value) (fs : disk),
    lower a = "api" -> lower l = "logs" -> x <> "" ->
    dispatch (mkRequest DELETE [a; l; x] body) = Some (DeleteLogByTs, [("ts", x)])
    /\ app (mkRequest DELETE [a; l; x] body) fs = Some (run (delete_log_by_ts x) fs)
    /\ (forall (req : request) (ps : params),
          dispatch req <> Some (DeleteLogsByGroup, ps)).
Proof.
  intros a l x body fs Ha Hl Hx.
  pose proof (single_segment_delete_dispatch a l x body Ha Hl Hx) as Hd.
  split; [exact Hd|]. split.
  - unfold app. rewrite Hd. reflexivity.
  - exact group_route_is_shadowed.
Qed.

Lemma single_segment_delete_is_by_timestamp_witness :
  app (mkRequest DELETE ["API"; "logs"; "A"] None) cascade_disk
  = Some (run (delete_log_by_ts "A") cascade_disk).
Proof.
  apply (single_segment_delete_is_by_timestamp "API" "logs" "A" None cascade_disk);
    [reflexivity | reflexivity | discriminate].
Defined.

(** C3 (the code departs from it).  A request to delete the logs of a
    group, DELETE /api/logs/<g>, is taken by the timestamp route, which is
    registered first, with [g] as the identifier.  When no entry has [g] as
    its normalized [ts], the request is answered 200 with the count 0 and
    the published Snapshot is as before: the logs sequence is unchanged,
    and every entry whose group is [g] is still in it. *)
Theorem delete_by_group_request_removes_nothing :
  forall (a l g : string) (body : value) (fs : disk)
         (props : list (string * json)) (items : list json),
    lower a = "api" -> lower l = "logs" -> g <> "" ->
    loadData fs = JObj props ->
    lookup "logs" props = Some (JArr items) ->
    Forall plain_ts items ->
    filter (has_ts g) items = [] ->
    write_error fs = None ->
    exists fs' : disk,
      app (mkRequest DELETE [a; l; g] body) fs
      = Some (Json 200 (JObj [("status", JStr "deleted"); ("ts", JStr g);
                              ("removed", JNum 0)]), fs')
      /\ loadData fs' = loadData fs
      /\ logs_of (loadData fs') = items
      /\ (forall x, In x items -> group_is g x = true ->
            In x (logs_of (loadData fs'))).
Proof.
  intros a l g body fs props items Ha Hl Hg Hdata Hlogs Hitems Hnone Hw.
  unfold app. rewrite (single_segment_delete_dispatch a l g body Ha Hl Hg).
  cbn [handler param String.eqb Ascii.eqb Bool.eqb req_body].
  rewrite (delete_log_by_ts_run fs g props items Hdata Hlogs Hitems Hw).
  rewrite Hnone, (filter_none_removed _ _ Hnone), (assign_same _ _ _ Hlogs).
  eexists. split; [reflexivity|].
  rewrite loadData_after_write, Hdata.
  split; [reflexivity|].
  assert (Hsame : logs_of (JObj props) = items)
    by (now apply (logs_of_object _ props)).
  split; [exact Hsame|]. intros x Hin _. now rewrite Hsame.
Qed.

Lemma delete_by_group_request_removes_nothing_witness :
  exists fs' : disk,
    app (mkRequest DELETE ["api"; "logs"; "A"] None) cascade_disk
    = Some (Json 200 (JObj [("status", JStr "deleted"); ("ts", JStr "A");
                            ("removed", JNum 0)]), fs')
    /\ group_is "A" ts1 = true
    /\ In ts1 (logs_of (loadData fs')).
Proof.
  destruct (delete_by_group_request_removes_nothing "api" "logs" "A" None
              cascade_disk
              [("groups", JArr []); ("logs", JArr [ts1; ts2; ts3; ts4])]
              [ts1; ts2; ts3; ts4] eq_refl eq_refl ltac:(discriminate)
              eq_refl eq_refl cascade_entries_plain eq_refl eq_refl)
    as (fs' & Happ & _ & _ & Hin).
  exists fs'. split; [exact Happ|]. split; [reflexivity|].
  apply Hin; [now left | reflexivity].
Defined.

(* ================================================================== *)
(** * JSON.stringify is injective *)

Lemma unescape_escape (c : ascii) (k : string) :
  unescape (escape c k) = Some (c, k).
Proof.
  destruct c as [[|] [|] [|] [|] [|] [|] [|] [|]]; reflexivity.
Qed.

Lemma quote_body_inj (s1 s2 k1 k2 : string) :
  quote_body s1 k1 = quote_body s2 k2 -> s1 = s2 /\ k1 = k2.
Proof.
  revert s2. induction s1 as [|c1 r1 IH]; intros [|c2 r2]; simpl; intros H.
  - injection H as ->. now split.
  - apply (f_equal unescape) in H. rewrite unescape_escape in H. discriminate H.
  - apply (f_equal unescape) in H. rewrite unescape_escape in H. discriminate H.
  - apply (f_equal unescape) in H. rewrite !unescape_escape in H.
    injection H as -> H. destruct (IH _ H) as [-> ->]. now split.
Qed.

Lemma quote_inj (s1 s2 k1 k2 : string) :
  quote s1 k1 = quote s2 k2 -> s1 = s2 /\ k1 = k2.
Proof.
  unfold quote. intros H. injection H as H. now apply quote_body_inj.
Qed.

Lemma uint_digits (d : Decimal.uint) :
  all_digits (NilEmpty.string_of_uint d) = true.
Proof. induction d; simpl; auto. Qed.

Lemma nz_uint_digits (d : Decimal.uint) :
  exists c r, NilZero.string_of_uint d = String c r
              /\ is_digit c = true /\ all_digits r = true.
Proof.
  pose proof (uint_digits d) as H.
  destruct d; simpl in *; eauto.
Qed.

Lemma digits_split (s1 s2 k1 k2 : string) :
  all_digits s1 = true -> all_digits s2 = true ->
  no_digit_head k1 -> no_digit_head k2 ->
  s1 ++ k1 = s2 ++ k2 -> s1 = s2 /\ k1 = k2.
Proof.
  revert s2. induction s1 as [|c1 r1 IH]; intros [|c2 r2]; simpl;
    intros H1 H2 Hk1 Hk2 H.
  - now split.
  - subst k1. simpl in Hk1. apply andb_true_iff in H2. destruct H2; congruence.
  - subst k2. simpl in Hk2. apply andb_true_iff in H1. destruct H1; congruence.
  - injection H as -> H.
    apply andb_true_iff in H1, H2. destruct H1 as [_ H1], H2 as [_ H2].
    destruct (IH r2 H1 H2 Hk1 Hk2 H) as [-> ->]. now split.
Qed.

Lemma to_int_not_nil (n : Z) :
  Z.to_int n <> Decimal.Pos Decimal.Nil /\ Z.to_int n <> Decimal.Neg Decimal.Nil.
Proof.
  destruct n; simpl; split; try discriminate;
    intros [= H]; now apply DecimalPos.Unsigned.to_uint_nonnil in H.
Qed.

Lemma string_of_Z_inj (n1 n2 : Z) : string_of_Z n1 = string_of_Z n2 -> n1 = n2.
Proof.
  unfold string_of_Z. intros H.
  apply (f_equal NilZero.int_of_string) in H.
  destruct (to_int_not_nil n1), (to_int_not_nil n2).
  rewrite !NilZero.isi in H by assumption.
  injection H as H. now apply DecimalZ.to_int_inj.
Qed.

(** A number starts with a digit or a minus sign, and ends where the
    digits end. *)
Lemma string_of_Z_head (n : Z) (k : string) :
  exists c r, string_of_Z n ++ k = String c r /\ number_head c = true.
Proof.
  unfold string_of_Z, number_head.
  destruct (Z.to_int n) as [d|d]; simpl.
  - destruct (nz_uint_digits d) as (c & r & -> & Hc & _). simpl.
    exists c, (r ++ k). now rewrite Hc.
  - eexists _, _. split; reflexivity.
Qed.

Lemma string_of_Z_split (n1 n2 : Z) (k1 k2 : string) :
  no_digit_head k1 -> no_digit_head k2 ->
  string_of_Z n1 ++ k1 = string_of_Z n2 ++ k2 -> n1 = n2 /\ k1 = k2.
Proof.
  intros Hk1 Hk2 H.
  assert (Hs : string_of_Z n1 = string_of_Z n2 /\ k1 = k2).
  { unfold string_of_Z in *.
    destruct (Z.to_int n1) as [d1|d1], (Z.to_int n2) as [d2|d2]; simpl in *.
    - destruct (nz_uint_digits d1) as (c1 & r1 & E1 & Hc1 & Hr1).
      destruct (nz_uint_digits d2) as (c2 & r2 & E2 & Hc2 & Hr2).
      rewrite E1, E2 in *.
      apply digits_split; simpl; try assumption; now rewrite ?Hc1, ?Hc2.
    - destruct (nz_uint_digits d1) as (c1 & r1 & E1 & Hc1 & _).
      rewrite E1 in H. simpl in H. injection H as -> _. discriminate Hc1.
    - destruct (nz_uint_digits d2) as (c2 & r2 & E2 & Hc2 & _).
      rewrite E2 in H. simpl in H. injection H as <- _. discriminate Hc2.
    - injection H as H.
      destruct (nz_uint_digits d1) as (c1 & r1 & E1 & Hc1 & Hr1).
      destruct (nz_uint_digits d2) as (c2 & r2 & E2 & Hc2 & Hr2).
      rewrite E1, E2 in *.
      destruct (digits_split (String c1 r1) (String c2 r2) k1 k2) as [E ->];
        simpl; try assumption; try now rewrite ?Hc1, ?Hc2.
      now rewrite E. }
  destruct Hs as [Hs ->]. split; [now apply string_of_Z_inj | reflexivity].
Qed.

Lemma stringify_array (first : json) (others : list json) (k : string) :
  stringify_onto (JArr (first :: others)) k
  = String "[" (stringify_onto first (more_items others k)).
Proof.
  simpl. do 2 f_equal.
  induction others as [|y l IH]; simpl; [reflexivity | now rewrite IH].
Qed.

Lemma stringify_object (key : string) (v : json)
      (others : list (string * json)) (k : string) :
  stringify_onto (JObj ((key, v) :: others)) k
  = String "{" (quote key (String ":" (stringify_onto v (more_props others k)))).
Proof.
  simpl. unfold quote. do 5 f_equal.
  induction others as [|[key' v'] l IH]; simpl; [reflexivity | now rewrite IH].
Qed.

Lemma stringify_head (x : json) (k : string) :
  exists c r, stringify_onto x k = String c r /\ value_head c = true.
Proof.
  destruct x as [| [|] | n | s | [|y ys] | [|[key v] ps]];
    try (eexists _, _; split; reflexivity).
  destruct (string_of_Z_head n k) as (c & r & E & Hc).
  exists c, r. split; [exact E|]. unfold value_head. now rewrite Hc.
Qed.

Lemma more_items_head (l : list json) (k : string) : no_digit_head (more_items l k).
Proof. destruct l; reflexivity. Qed.

Lemma more_props_head (l : list (string * json)) (k : string) :
  no_digit_head (more_props l k).
Proof. destruct l as [|[key v] l]; reflexivity. Qed.

Lemma more_items_inj (l : list json) :
  Forall reads_back l ->
  forall (l' : list json) (k1 k2 : string),
    no_digit_head k1 -> no_digit_head k2 ->
    more_items l k1 = more_items l' k2 -> l = l' /\ k1 = k2.
Proof.
  induction 1 as [|x l Hx _ IH]; intros [|y l'] k1 k2 Hk1 Hk2 H; simpl in H;
    try discriminate.
  - injection H as ->. now split.
  - injection H as H.
    destruct (Hx y _ _ (more_items_head l k1) (more_items_head l' k2) H)
      as [-> Hrest].
    destruct (IH l' k1 k2 Hk1 Hk2 Hrest) as [-> ->]. now split.
Qed.

Lemma more_props_inj (l : list (string * json)) :
  Forall (fun kv => reads_back (snd kv)) l ->
  forall (l' : list (string * json)) (k1 k2 : string),
    no_digit_head k1 -> no_digit_head k2 ->
    more_props l k1 = more_props l' k2 -> l = l' /\ k1 = k2.
Proof.
  induction 1 as [|[key v] l Hv _ IH]; intros [|[key' v'] l'] k1 k2 Hk1 Hk2 H;
    simpl in H; try discriminate.
  - injection H as ->. now split.
  - injection H as H. apply quote_body_inj in H as [-> H].
    injection H as H. simpl in Hv.
    destruct (Hv v' _ _ (more_props_head l k1) (more_props_head l' k2) H)
      as [-> Hrest].
    destruct (IH l' k1 k2 Hk1 Hk2 Hrest) as [-> ->]. now split.
Qed.

(** A number on one side and the first character of another kind of value
    on the other. *)
Ltac number_clash H :=
  match type of H with
  | string_of_Z ?n ++ ?k = _ =>
      let c := fresh "c" in let r := fresh "r" in
      let E := fresh "E" in let Hc := fresh "Hc" in
      destruct (string_of_Z_head n k) as (c & r & E & Hc);
      rewrite E in H; injection H as -> _; discriminate Hc
  | _ = string_of_Z ?n ++ ?k =>
      let c := fresh "c" in let r := fresh "r" in
      let E := fresh "E" in let Hc := fresh "Hc" in
      destruct (string_of_Z_head n k) as (c & r & E & Hc);
      rewrite E in H; injection H as <- _; discriminate Hc
  end.

(** A closing bracket on one side and a value on the other. *)
Ltac value_clash H :=
  match type of H with
  | stringify_onto ?x ?k = _ =>
      let c := fresh "c" in let r := fresh "r" in
      let E := fresh "E" in let Hc := fresh "Hc" in
      destruct (stringify_head x k) as (c & r & E & Hc);
      rewrite E in H; injection H as -> _; discriminate Hc
  | _ = stringify_onto ?x ?k =>
      let c := fresh "c" in let r := fresh "r" in
      let E := fresh "E" in let Hc := fresh "Hc" in
      destruct (stringify_head x k) as (c & r & E & Hc);
      rewrite E in H; injection H as <- _; discriminate Hc
  end.

Lemma stringify_onto_inj (x : json) : reads_back x.
Proof.
  induction x as [| b | n | s | items IH | props IH] using json_induction;
    intros y k1 k2 Hk1 Hk2 H.
  - destruct y as [| [|] | n' | s' | [|y ys] | [|[key v] ps]];
      rewrite ?stringify_array, ?stringify_object in H;
      cbn -[string_of_Z] in H; try discriminate H; try number_clash H.
    injection H as ->. now split.
  - destruct b;
      destruct y as [| [|] | n' | s' | [|y ys] | [|[key v] ps]];
      rewrite ?stringify_array, ?stringify_object in H;
      cbn -[string_of_Z] in H; try discriminate H; try number_clash H;
      injection H as ->; now split.
  - destruct y as [| [|] | n' | s' | [|y ys] | [|[key v] ps]];
      rewrite ?stringify_array, ?stringify_object in H;
      cbn -[string_of_Z] in H; try number_clash H.
    destruct (string_of_Z_split n n' k1 k2 Hk1 Hk2 H) as [-> ->]. now split.
  - destruct y as [| [|] | n' | s' | [|y ys] | [|[key v] ps]];
      rewrite ?stringify_array, ?stringify_object in H;
      cbn -[string_of_Z] in H; try discriminate H; try number_clash H.
    apply quote_inj in H as [-> ->]. now split.
  - destruct items as [|x xs];
      destruct y as [| [|] | n' | s' | [|y ys] | [|[key v] ps]];
      rewrite ?stringify_array, ?stringify_object in H;
      cbn -[string_of_Z] in H; try discriminate H; try number_clash H.
    + injection H as ->. now split.
    + injection H as H. value_clash H.
    + injection H as H. value_clash H.
    + injection H as H. inversion IH as [|? ? Hx Hxs]; subst.
      destruct (Hx y _ _ (more_items_head xs k1) (more_items_head ys k2) H)
        as [-> Hrest].
      destruct (more_items_inj xs Hxs ys k1 k2 Hk1 Hk2 Hrest) as [-> ->].
      now split.
  - destruct props as [|[key0 v0] ps0];
      destruct y as [| [|] | n' | s' | [|y ys] | [|[key v] ps]];
      rewrite ?stringify_array, ?stringify_object in H;
      cbn -[string_of_Z quote] in H; try discriminate H; try number_clash H.
    + injection H as ->. now split.
    + injection H as H. apply quote_body_inj in H as [-> H]. injection H as H.
      inversion IH as [|? ? Hv Hps]; subst. simpl in Hv.
      destruct (Hv v _ _ (more_props_head ps0 k1) (more_props_head ps k2) H)
        as [-> Hrest].
      destruct (more_props_inj ps0 Hps ps k1 k2 Hk1 Hk2 Hrest) as [-> ->].
      now split.
Qed.

Lemma JSON_stringify_inj (x y : json) :
  JSON_stringify x = JSON_stringify y -> x = y.
Proof.
  unfold JSON_stringify. intros H.
  now destruct (stringify_onto_inj x y "" "" I I H).
Qed.

(* ================================================================== *)
(** * The draft-status route *)

Lemma hasChanges_iff_texts (fs : disk) :
  hasChanges fs = true <->
  JSON_stringify (loadData fs) <> JSON_stringify (loadDraft fs).
Proof.
  unfold hasChanges. rewrite negb_true_iff. apply String.eqb_neq.
Qed.

Lemma hasChanges_iff_documents (fs : disk) :
  hasChanges fs = true <-> loadData fs <> loadDraft fs.
Proof.
  rewrite hasChanges_iff_texts. split; intros H E; apply H.
  - now rewrite E.
  - now apply JSON_stringify_inj.
Qed.

Lemma hasChanges_same_documents (fs : disk) :
  loadData fs = loadDraft fs -> hasChanges fs = false.
Proof.
  intros E. unfold hasChanges. rewrite E, String.eqb_refl. reflexivity.
Qed.

(** C1 (amended).  The draft-status route reports [hasChanges] as the result
    of comparing the two serializations: it is true exactly when the texts
    of the published and of the draft Snapshot differ, which is exactly
    when the two documents differ as trees with ordered keys.  So it is
    true whenever the two are not structurally equal, and it is false right
    after a publish or a discard that succeeded. *)
Theorem draft_status_compares_serializations :
  forall fs : disk,
    run get_draft_status fs
      = (Json 200 (JObj [("hasChanges", JBool (hasChanges fs))]), fs)
    /\ (hasChanges fs = true <->
        JSON_stringify (loadData fs) <> JSON_stringify (loadDraft fs))
    /\ (hasChanges fs = true <-> loadData fs <> loadDraft fs)
    /\ (~ struct_eq (loadData fs) (loadDraft fs) -> hasChanges fs = true)
    /\ (status_of (fst (run post_publish fs)) = 200 ->
        hasChanges (step Publish fs) = false)
    /\ (status_of (fst (run post_discard fs)) = 200 ->
        hasChanges (step Discard fs) = false).
Proof.
  intros fs.
  split; [reflexivity|].
  split; [apply hasChanges_iff_texts|].
  split; [apply hasChanges_iff_documents|].
  split; [|split].
  - intros Hne. apply hasChanges_iff_documents. intros E. apply Hne.
    now apply struct_eq_of_eq.
  - unfold step, perform_operation. rewrite publish_run.
    destruct (write_error fs); cbn [fst snd status_of]; [lia|]. intros _.
    apply hasChanges_same_documents.
    now rewrite loadData_after_write, loadDraft_stable_under_publish.
  - unfold step, perform_operation. rewrite discard_run.
    destruct (write_error fs); cbn [fst snd status_of]; [lia|]. intros _.
    apply hasChanges_same_documents.
    rewrite loadDraft_after_write. apply loadData_other_file. discriminate.
Qed.

Lemma draft_status_compares_serializations_witness :
  hasChanges (step Publish other_order_disk) = false
  /\ hasChanges (step Discard other_order_disk) = false.
Proof.
  destruct (draft_status_compares_serializations other_order_disk)
    as (_ & _ & _ & _ & Hpublish & Hdiscard).
  split; [apply Hpublish | apply Hdiscard]; reflexivity.
Defined.

(** C1, as stated, fails: a published Snapshot that lists logs before
    groups and a draft that lists groups before logs are structurally
    equal, yet the route reports changes; and replacing the published
    document by this permutation of its keys turns the answer from false
    to true. *)
Lemma draft_status_depends_on_key_order :
  struct_eq (loadData other_order_disk) (loadDraft other_order_disk)
  /\ hasChanges other_order_disk = true
  /\ key_permutation (loadData same_order_disk) (loadData other_order_disk)
  /\ loadDraft same_order_disk = loadDraft other_order_disk
  /\ hasChanges same_order_disk = false.
Proof.
  split; [|split; [reflexivity|split; [|split; reflexivity]]].
  - change (struct_eq logs_first groups_first). apply se_obj.
    + intros k. simpl.
      destruct (String.eqb k "logs"), (String.eqb k "groups");
        split; congruence.
    + intros k v w. simpl.
      destruct (String.eqb k "logs"), (String.eqb k "groups");
        intros [= <-] [= <-]; apply se_arr; constructor.
  - apply perm_swap.
Qed.

(* ================================================================== *)
(** * More on the draft workflow *)

Import Accounts Displays Notions.

(** X1.  The discard route answers 200 when the directory can be written;
    when it answers 200, the draft read afterwards is the published
    Snapshot and every file but the draft file is as before; a second
    discard right after the first changes no file. *)
Theorem discard_copies_published :
  forall fs : disk,
    (status_of (fst (run post_discard fs)) = 200 ->
       loadDraft (step Discard fs) = loadData fs
       /\ loadData (step Discard fs) = loadData fs
       /\ (forall p, p <> DRAFT_FILE -> files (step Discard fs) p = files fs p))
    /\ (write_error fs = None -> status_of (fst (run post_discard fs)) = 200)
    /\ (forall p, files (step Discard (step Discard fs)) p
                  = files (step Discard fs) p).
Proof.
  intros fs. unfold step, perform_operation.
  rewrite (discard_run fs).
  destruct (write_error fs) as [m|] eqn:Hw; cbn [fst snd status_of].
  - split; [lia|]. split; [discriminate|].
    rewrite (discard_run fs), Hw. reflexivity.
  - split; [|split; [reflexivity|]].
    + intros _. split; [reflexivity|]. split.
      * apply loadData_other_file. discriminate.
      * intros p Hp. now apply files_put_other.
    + rewrite discard_run, write_error_put, Hw. cbn [snd].
      rewrite loadData_other_file by discriminate.
      intros p. unfold put; simpl. destruct (String.eqb p DRAFT_FILE); reflexivity.
Qed.

Lemma discard_copies_published_witness :
  loadDraft other_order_disk <> loadData other_order_disk
  /\ loadDraft (step Discard other_order_disk) = loadData other_order_disk.
Proof.
  destruct (discard_copies_published other_order_disk) as (Hcopy & Hok & _).
  split; [discriminate|]. apply Hcopy. apply Hok. reflexivity.
Defined.

(** The disk after a save that is accepted. *)
Lemma save_step (d : json) (fs : disk) :
  isArray (field d "groups") = true -> isArray (field d "logs") = true ->
  write_error fs = None ->
  step (SaveDraft (Some d)) fs = put DRAFT_FILE (Content (Encodes d)) fs.
Proof.
  intros Hg Hl Hw. unfold step, perform_operation.
  now rewrite post_save_run, Hg, Hl, Hw.
Qed.

(** X2.  Save then publish: for a body whose groups and logs are arrays, on
    a directory that can be written, the published route then returns the
    body, the draft is the body too, and the draft-status route reports no
    changes. *)
Theorem save_then_publish_shows_snapshot :
  forall (d : json) (fs : disk),
    isArray (field d "groups") = true -> isArray (field d "logs") = true ->
    write_error fs = None ->
    run get_data (step Publish (step (SaveDraft (Some d)) fs))
      = (Json 200 d, step Publish (step (SaveDraft (Some d)) fs))
    /\ loadDraft (step Publish (step (SaveDraft (Some d)) fs)) = d
    /\ hasChanges (step Publish (step (SaveDraft (Some d)) fs)) = false.
Proof.
  intros d fs Hg Hl Hw. rewrite (save_step d fs Hg Hl Hw).
  unfold step, perform_operation.
  rewrite publish_run, write_error_put, Hw. cbn [snd].
  rewrite loadDraft_after_write.
  assert (Hdata : loadData (put DATA_FILE (Content (Encodes d))
                     (put DRAFT_FILE (Content (Encodes d)) fs)) = d)
    by apply loadData_after_write.
  assert (Hdraft : loadDraft (put DATA_FILE (Content (Encodes d))
                     (put DRAFT_FILE (Content (Encodes d)) fs)) = d)
    by reflexivity.
  split; [|split].
  - unfold run, get_data, bindM, gets, ret. now rewrite Hdata.
  - exact Hdraft.
  - apply hasChanges_same_documents. now rewrite Hdata, Hdraft.
Qed.

Lemma save_then_publish_shows_snapshot_witness :
  loadDraft (step Publish (step (SaveDraft (Some one_group)) fresh_disk)) = one_group.
Proof.
  apply (save_then_publish_shows_snapshot one_group fresh_disk); reflexivity.
Defined.

(** X3.  Discard undoes a save: after a save that is accepted and a
    discard, the draft is the published Snapshot of before the save, which
    is still the published Snapshot, and no changes are reported. *)
Theorem discard_undoes_save :
  forall (d : json) (fs : disk),
    isArray (field d "groups") = true -> isArray (field d "logs") = true ->
    write_error fs = None ->
    loadDraft (step (SaveDraft (Some d)) fs) = d
    /\ loadDraft (step Discard (step (SaveDraft (Some d)) fs)) = loadData fs
    /\ loadData (step Discard (step (SaveDraft (Some d)) fs)) = loadData fs
    /\ hasChanges (step Discard (step (SaveDraft (Some d)) fs)) = false.
Proof.
  intros d fs Hg Hl Hw. rewrite (save_step d fs Hg Hl Hw).
  unfold step, perform_operation.
  rewrite discard_run, write_error_put, Hw. cbn [snd].
  rewrite (loadData_other_file fs DRAFT_FILE) by discriminate.
  assert (Hdata : loadData (put DRAFT_FILE (Content (Encodes (loadData fs)))
                     (put DRAFT_FILE (Content (Encodes d)) fs)) = loadData fs).
  { rewrite loadData_other_file by discriminate.
    apply loadData_other_file. discriminate. }
  split; [reflexivity|]. split; [reflexivity|]. split; [exact Hdata|].
  apply hasChanges_same_documents. now rewrite Hdata.
Qed.

Lemma discard_undoes_save_witness :
  loadDraft (step Discard (step (SaveDraft (Some logs_first)) blank_draft_disk))
  = one_group.
Proof.
  apply (discard_undoes_save logs_first blank_draft_disk); reflexivity.
Defined.

(* ================================================================== *)
(** * The append route *)

Lemma lookup_assign_other (k k' : string) (v : json) (props : list (string * json)) :
  k' <> k -> lookup k' (assign k v props) = lookup k' props.
Proof.
  intros Hne. induction props as [|[k0 v0] rest IH]; simpl.
  - destruct (String.eqb_spec k' k); [contradiction | reflexivity].
  - destruct (String.eqb_spec k k0) as [->|Hk]; simpl.
    + destruct (String.eqb_spec k' k0); [contradiction | reflexivity].
    + destruct (String.eqb k' k0); [reflexivity | exact IH].
Qed.

Lemma valid_log_not_null (e : json) : valid_log e = true -> e <> JNull.
Proof. intros H ->. discriminate H. Qed.

(** The append route on an entry it accepts, case by case. *)
Lemma post_logs_valid (e : json) (fs : disk) :
  valid_log e = true ->
  run (post_logs (Some e)) fs =
  match loadData fs with
  | JObj props =>
      match lookup "logs" props with
      | Some (JArr items) =>
          match write_error fs with
          | None =>
              (Json 200 (JObj [("status", JStr "ok"); ("log", e)]),
               put DATA_FILE
                 (Content (Encodes (JObj (assign "logs"
                    (JArr (items ++ [e])%list) props)))) fs)
          | Some m => (Uncaught (IOError m), fs)
          end
      | _ => (Uncaught TypeError, fs)
      end
  | _ => (Uncaught TypeError, fs)
  end.
Proof.
  intros Hv. pose proof (valid_log_not_null e Hv) as Hnull.
  unfold valid_log in Hv. apply andb_true_iff in Hv as [Hv Htype].
  apply andb_true_iff in Hv as [He Hdate].
  unfold run, post_logs. rewrite He. cbn [negb].
  unfold bindM, lift, gets.
  rewrite !(getProp_field e _ Hnull), Hdate, Htype. cbn [negb].
  destruct (loadData fs) as [| b | n | s | xs | props]; try reflexivity.
  cbn [getProp set_logs].
  destruct (lookup "logs" props) as [[| b | n | s | items | ps]|]; try reflexivity.
  destruct (write_error fs) as [m|] eqn:Hw.
  - now rewrite (saveData_fails fs _ m Hw).
  - now rewrite (saveData_ok fs _ Hw).
Qed.

Lemma post_logs_invalid (e : json) (fs : disk) :
  valid_log e = false -> run (post_logs (Some e)) fs = (bad_log, fs).
Proof.
  unfold valid_log, run, post_logs. intros Hv.
  destruct (truthy (Some e)) eqn:He; cbn [negb]; [|reflexivity].
  assert (Hnull : e <> JNull) by (intros ->; discriminate He).
  unfold bindM, lift. rewrite !(getProp_field e _ Hnull).
  destruct (truthy (field e "date")); cbn [negb]; [|reflexivity].
  destruct (truthy (field e "type")); cbn [negb]; [discriminate Hv | reflexivity].
Qed.

(** X4.  The append route answers 400 exactly when the body is missing or
    falsy, or its date or its type is falsy; it then leaves the disk alone.
    An accepted entry is added after the last published log, the rest of
    the published document and every other file stay as they were, and the
    reply carries the entry.  When the published document has no logs array
    the route fails with a TypeError and writes nothing. *)
Theorem append_validates_and_adds_last :
  forall (entry : value) (fs : disk),
    (status_of (fst (run (post_logs entry) fs)) = 400 <->
     (forall e, entry = Some e -> valid_log e = false))
    /\ (status_of (fst (run (post_logs entry) fs)) = 400 ->
        snd (run (post_logs entry) fs) = fs)
    /\ (forall e props items,
          entry = Some e -> valid_log e = true ->
          loadData fs = JObj props -> lookup "logs" props = Some (JArr items) ->
          write_error fs = None ->
          fst (run (post_logs entry) fs)
            = Json 200 (JObj [("status", JStr "ok"); ("log", e)])
          /\ logs_of (loadData (step (Append entry) fs)) = (items ++ [e])%list
          /\ (forall k, k <> "logs" ->
                field (loadData (step (Append entry) fs)) k = lookup k props)
          /\ (forall p, p <> DATA_FILE ->
                files (step (Append entry) fs) p = files fs p))
    /\ (forall e, entry = Some e -> valid_log e = true ->
          (forall items, field (loadData fs) "logs" <> Some (JArr items)) ->
          run (post_logs entry) fs = (Uncaught TypeError, fs)).
Proof.
  intros [e|] fs.
  - destruct (valid_log e) eqn:Hv.
    + rewrite (post_logs_valid e fs Hv).
      split; [|split; [|split]].
      * split.
        -- destruct (loadData fs) as [| | | | |props]; cbn; try lia.
           destruct (lookup "logs" props) as [[| | | |items|]|]; cbn; try lia.
           destruct (write_error fs); cbn; lia.
        -- intros H. specialize (H e eq_refl). congruence.
      * destruct (loadData fs) as [| | | | |props]; cbn; try lia.
        destruct (lookup "logs" props) as [[| | | |items|]|]; cbn; try lia.
        destruct (write_error fs); cbn; lia.
      * intros e' props items [= <-] _ Hdata Hlogs Hw.
        unfold step, perform_operation.
        rewrite (post_logs_valid e fs Hv), Hdata, Hlogs, Hw. cbn [fst snd].
        rewrite loadData_after_write, logs_of_assign.
        split; [reflexivity|]. split; [reflexivity|]. split.
        -- intros k Hk. cbn [field]. now apply lookup_assign_other.
        -- intros p Hp. now apply files_put_other.
      * intros e' [= <-] _ Hno.
        destruct (loadData fs) as [| | | | |props]; try reflexivity.
        cbn [field] in Hno.
        destruct (lookup "logs" props) as [[| | | |items|]|]; try reflexivity.
        exfalso. now apply (Hno items).
    + rewrite (post_logs_invalid e fs Hv). cbn.
      split; [|split; [|split]].
      * split; [intros _ e' [= <-]; exact Hv | reflexivity].
      * reflexivity.
      * intros e' props items [= <-] Hv'. congruence.
      * intros e' [= <-] Hv'. congruence.
  - cbn. split; [|split; [|split]].
    + split; [intros _ e H; discriminate H | reflexivity].
    + reflexivity.
    + intros e props items H. discriminate H.
    + intros e H. discriminate H.
Qed.

Lemma append_validates_and_adds_last_witness :
  logs_of (loadData (step (Append (Some ts2)) one_entry_disk)) = [ts1; ts2].
Proof.
  destruct (append_validates_and_adds_last (Some ts2) one_entry_disk)
    as (_ & _ & Hok & _).
  destruct (Hok ts2 [("groups", JArr []); ("logs", JArr [ts1])] [ts1]
              eq_refl eq_refl eq_refl eq_refl eq_refl) as (_ & Hlogs & _).
  exact Hlogs.
Defined.

Lemma append_step (e : json) (fs : disk)
      (props : list (string * json)) (items : list json) :
  valid_log e = true -> loadData fs = JObj props ->
  lookup "logs" props = Some (JArr items) -> write_error fs = None ->
  step (Append (Some e)) fs
  = put DATA_FILE
      (Content (Encodes (JObj (assign "logs" (JArr (items ++ [e])%list) props)))) fs.
Proof.
  intros Hv Hdata Hlogs Hw. unfold step, perform_operation.
  now rewrite (post_logs_valid e fs Hv), Hdata, Hlogs, Hw.
Qed.

(** X5.  Entries posted one after the other, each accepted, end up after
    the logs that were published, in the order of posting; the logs route
    then returns them all, and the other fields of the published document
    are untouched. *)
Theorem appends_accumulate_in_order :
  forall (entries : list json) (fs : disk)
         (props : list (string * json)) (items : list json),
    Forall (fun e => valid_log e = true) entries ->
    loadData fs = JObj props ->
    lookup "logs" props = Some (JArr items) ->
    write_error fs = None ->
    logs_of (loadData (append_all entries fs)) = (items ++ entries)%list
    /\ fst (run get_logs (append_all entries fs))
       = Json 200 (JArr (items ++ entries)%list)
    /\ (forall k, k <> "logs" ->
          field (loadData (append_all entries fs)) k = lookup k props).
Proof.
  induction entries as [|e rest IH]; intros fs props items Hall Hdata Hlogs Hw.
  - cbn [append_all fold_left]. rewrite app_nil_r.
    split; [|split].
    + now apply logs_of_object with (props := props).
    + unfold run, get_logs, bindM, gets, lift. rewrite Hdata. cbn [getProp].
      rewrite Hlogs. reflexivity.
    + intros k _. now rewrite Hdata.
  - inversion Hall as [|? ? He Hrest]; subst.
    change (append_all (e :: rest) fs)
      with (append_all rest (step (Append (Some e)) fs)).
    rewrite (append_step e fs props items He Hdata Hlogs Hw).
    destruct (IH (put DATA_FILE
                 (Content (Encodes (JObj (assign "logs"
                    (JArr (items ++ [e])%list) props)))) fs)
              (assign "logs" (JArr (items ++ [e])%list) props)
              (items ++ [e])%list Hrest
              (loadData_after_write fs _) (lookup_assign _ _ _) Hw)
      as (Hl & Hg & Hk).
    rewrite <- app_assoc in Hl, Hg. cbn [app] in Hl, Hg.
    split; [exact Hl|]. split; [exact Hg|].
    intros k Hne. rewrite (Hk k Hne). now apply lookup_assign_other.
Qed.

Lemma appends_accumulate_in_order_witness :
  logs_of (loadData (append_all [ts2; ts3] one_entry_disk)) = [ts1; ts2; ts3].
Proof.
  apply (appends_accumulate_in_order [ts2; ts3] one_entry_disk
           [("groups", JArr []); ("logs", JArr [ts1])] [ts1]).
  - repeat constructor.
  - reflexivity.
  - reflexivity.
  - reflexivity.
Defined.

(* ================================================================== *)
(** * The log routes and the rest of the disk *)

(** A route on the published logs leaves the disk as it is, or rewrites
    the published file with another value for [logs]. *)
Lemma log_operation_shape (o : operation) (fs : disk) :
  on_published_logs o = true ->
  step o fs = fs \/
  exists props v,
    loadData fs = JObj props
    /\ step o fs
       = put DATA_FILE (Content (Encodes (JObj (assign "logs" v props)))) fs.
Proof.
  intros Ho. unfold step.
  destruct o as [entry | body | | | ts | groupName | groupName date];
    try discriminate Ho; cbn [perform_operation].
  - destruct entry as [e|]; [|left; reflexivity].
    destruct (post_logs_appends e fs) as [-> | (props & items & Hd & _ & ->)];
      [now left | right; eauto].
  - destruct (delete_log_by_ts_selects ts fs)
      as [-> | (props & items & f & Hd & _ & ->)]; [now left | right; eauto].
  - destruct (delete_logs_by_group_selects groupName fs)
      as [-> | (props & items & f & Hd & _ & ->)]; [now left | right; eauto].
  - destruct (delete_logs_by_group_and_date_selects groupName date fs)
      as [-> | (props & items & f & Hd & _ & ->)]; [now left | right; eauto].
Qed.

(** The draft file and the write permission are out of reach of a route on
    the published logs. *)
Lemma log_operation_keeps_draft (o : operation) (fs : disk) :
  on_published_logs o = true ->
  files (step o fs) DRAFT_FILE = files fs DRAFT_FILE
  /\ write_error (step o fs) = write_error fs.
Proof.
  intros Ho.
  destruct (log_operation_shape o fs Ho) as [-> | (props & v & _ & ->)].
  - split; reflexivity.
  - split; [apply files_put_other; discriminate | reflexivity].
Qed.



(** X7.  What the log routes did to the published file is lost at the next
    publish: when the draft file holds a document, an append or a deletion
    followed by a publish leaves that document as the published Snapshot,
    with the logs the draft had. *)
Theorem publish_overwrites_published_logs :
  forall (o : operation) (fs : disk) (d : json),
    on_published_logs o = true ->
    files fs DRAFT_FILE = Content (Encodes d) ->
    write_error fs = None ->
    loadData (step Publish (step o fs)) = d
    /\ logs_of (loadData (step Publish (step o fs))) = logs_of (loadDraft fs).
Proof.
  intros o fs d Ho Hdraft Hw.
  destruct (log_operation_keeps_draft o fs Ho) as (Hfile & Hw').
  assert (Hd : loadDraft (step o fs) = d).
  { now rewrite loadDraft_cases, Hfile, Hdraft. }
  assert (Hd0 : loadDraft fs = d) by (now rewrite loadDraft_cases, Hdraft).
  unfold step at 1 3. cbn [perform_operation].
  rewrite publish_run, Hw', Hw. cbn [snd].
  rewrite loadData_after_write, Hd, Hd0. split; reflexivity.
Qed.

Lemma publish_overwrites_published_logs_witness :
  loadData (step Publish (step (Append (Some ts2)) one_entry_disk))
  = snapshot [ts1].
Proof.
  apply (publish_overwrites_published_logs (Append (Some ts2)) one_entry_disk);
    reflexivity.
Defined.

Lemma no_changes_same_documents (fs : disk) :
  hasChanges fs = false -> loadData fs = loadDraft fs.
Proof.
  unfold hasChanges. rewrite negb_false_iff, String.eqb_eq.
  apply JSON_stringify_inj.
Qed.

(** X8.  An accepted append shows as a change: when the draft file holds a
    document and no changes are reported, the draft-status route reports
    changes after the append, although the draft was not edited. *)
Theorem append_shows_as_change :
  forall (e : json) (fs : disk) (d : json)
         (props : list (string * json)) (items : list json),
    valid_log e = true ->
    files fs DRAFT_FILE = Content (Encodes d) ->
    hasChanges fs = false ->
    loadData fs = JObj props -> lookup "logs" props = Some (JArr items) ->
    write_error fs = None ->
    hasChanges (step (Append (Some e)) fs) = true
    /\ loadDraft (step (Append (Some e)) fs) = loadDraft fs.
Proof.
  intros e fs d props items Hv Hdraft Hno Hdata Hlogs Hw.
  rewrite (append_step e fs props items Hv Hdata Hlogs Hw).
  assert (Hd : loadDraft fs = d) by (now rewrite loadDraft_cases, Hdraft).
  assert (Hd' : loadDraft (put DATA_FILE (Content (Encodes (JObj (assign "logs"
                   (JArr (items ++ [e])%list) props)))) fs) = d)
    by (now rewrite loadDraft_after_publish, Hdraft).
  split; [|now rewrite Hd, Hd'].
  apply hasChanges_iff_documents.
  rewrite loadData_after_write, Hd', <- Hd, <- (no_changes_same_documents fs Hno), Hdata.
  intros [= H].
  apply (f_equal (lookup "logs")) in H. rewrite lookup_assign, Hlogs in H.
  injection H as H. apply (f_equal (@List.length json)) in H.
  rewrite length_app in H. simpl in H. lia.
Qed.

Lemma append_shows_as_change_witness :
  hasChanges (step (Append (Some ts2)) one_entry_disk) = true.
Proof.
  apply (append_shows_as_change ts2 one_entry_disk (snapshot [ts1])
           [("groups", JArr []); ("logs", JArr [ts1])] [ts1]);
    reflexivity.
Defined.

(* ================================================================== *)
(** * More on the deletion routes *)

Lemma delete_logs_by_group_run (fs : disk) (groupName g : string)
      (props : list (string * json)) (items : list json) :
  decodeURIComponent groupName = Return g ->
  loadData fs = JObj props ->
  lookup "logs" props = Some (JArr items) ->
  Forall (fun l => exists s, field l "group" = Some (JStr s)) items ->
  write_error fs = None ->
  run (delete_logs_by_group groupName) fs =
  (Json 200 (JObj [("status", JStr "deleted"); ("groupName", JStr g);
                   ("removed",
                    json_of_nat (List.length (filter (group_is g) items)))]),
   put DATA_FILE
       (Content (Encodes (JObj (assign "logs"
          (JArr (filter (fun l => negb (group_is g l)) items)) props))))
       fs).
Proof.
  intros Hg Hdata Hlogs Hitems Hw.
  unfold run, delete_logs_by_group, bindM, gets, lift.
  rewrite Hdata; simpl. rewrite Hlogs.
  rewrite (filter_total (keep_by_group groupName)
             (fun l => negb (group_is g l))).
  - rewrite saveData_ok by exact Hw. rewrite Hg. unfold ret.
    rewrite removed_count. reflexivity.
  - eapply Forall_impl; [|exact Hitems].
    intros l Hl. now apply keep_by_group_total.
Qed.

(** X9.  The handler of the group route, on published logs whose entries
    all carry a string group and for a name that decodes to [g]: it removes
    exactly the entries whose group is [g] without regard to case, keeps
    the others in order, and reports the decoded name and the number
    removed. *)
Theorem delete_by_group_removes_the_group :
  forall (fs : disk) (groupName g : string)
         (props : list (string * json)) (items : list json),
    decodeURIComponent groupName = Return g ->
    loadData fs = JObj props ->
    lookup "logs" props = Some (JArr items) ->
    Forall (fun l => exists s, field l "group" = Some (JStr s)) items ->
    write_error fs = None ->
    fst (run (delete_logs_by_group groupName) fs)
      = Json 200 (JObj [("status", JStr "deleted"); ("groupName", JStr g);
                        ("removed",
                         json_of_nat (List.length (filter (group_is g) items)))])
    /\ logs_of (loadData (step (DeleteByGroup groupName) fs))
       = filter (fun l => negb (group_is g l)) items
    /\ (forall l, In l (logs_of (loadData (step (DeleteByGroup groupName) fs)))
          -> group_is g l = false).
Proof.
  intros fs groupName g props items Hg Hdata Hlogs Hitems Hw.
  unfold step, perform_operation.
  rewrite (delete_logs_by_group_run fs groupName g props items
             Hg Hdata Hlogs Hitems Hw).
  cbn [fst snd]. rewrite loadData_after_write, logs_of_assign.
  split; [reflexivity|]. split; [reflexivity|].
  intros l Hin. apply filter_In in Hin as [_ H]. now apply negb_true_iff.
Qed.

Lemma delete_by_group_removes_the_group_witness :
  logs_of (loadData (step (DeleteByGroup "a") cascade_disk)) = [ts2; ts3]
  /\ logs_of (loadData (step (DeleteByGroup "%C3%A9cole") school_disk))
     = [ecole_plain].
Proof.
  assert (Hitems : Forall (fun l => exists s, field l "group" = Some (JStr s))
                          [ts1; ts2; ts3; ts4])
    by (repeat constructor; eexists; reflexivity).
  assert (Hschool : Forall (fun l => exists s, field l "group" = Some (JStr s))
                           [ecole_capitals; ecole_title; ecole_plain])
    by (repeat constructor; eexists; reflexivity).
  destruct (delete_by_group_removes_the_group cascade_disk "a" "a"
              [("groups", JArr []); ("logs", JArr [ts1; ts2; ts3; ts4])]
              [ts1; ts2; ts3; ts4] eq_refl eq_refl eq_refl Hitems eq_refl)
    as (_ & H & _).
  destruct (delete_by_group_removes_the_group school_disk "%C3%A9cole" "école"
              [("groups", JArr []);
               ("logs", JArr [ecole_capitals; ecole_title; ecole_plain])]
              [ecole_capitals; ecole_title; ecole_plain]
              eq_refl eq_refl eq_refl Hschool eq_refl)
    as (_ & H' & _).
  split; [exact H|]. rewrite H'. reflexivity.
Defined.

Lemma filter_twice (f : json -> bool) (items : list json) :
  filter f (filter f items) = filter f items.
Proof.
  induction items as [|x rest IH]; simpl; [reflexivity|].
  destruct (f x) eqn:E; simpl; rewrite ?E, IH; reflexivity.
Qed.

Lemma filter_none_left (f : json -> bool) (items : list json) :
  filter f (filter (fun x => negb (f x)) items) = [].
Proof.
  induction items as [|x rest IH]; simpl; [reflexivity|].
  destruct (f x) eqn:E; simpl; rewrite ?E; exact IH.
Qed.

Lemma Forall_filter (P : json -> Prop) (f : json -> bool) (items : list json) :
  Forall P items -> Forall P (filter f items).
Proof.
  induction 1 as [|x rest Hx _ IH]; simpl; [constructor|].
  destruct (f x); [constructor|]; assumption.
Qed.

(** A filter run again on what it kept keeps everything. *)
Lemma filter_again (keep : json -> outcome bool) (items kept : list json) :
  filter_ keep items = Return kept -> filter_ keep kept = Return kept.
Proof.
  revert kept. induction items as [|x rest IH]; simpl; intros kept H.
  - now injection H as <-.
  - destruct (keep x) as [b|e] eqn:Hx; simpl in H; [|discriminate].
    destruct (filter_ keep rest) as [kept'|e]; simpl in H; [|discriminate].
    injection H as <-. specialize (IH kept' eq_refl).
    destruct b; [|exact IH]. simpl. now rewrite Hx, IH.
Qed.

Lemma assign_twice (k : string) (v w : json) (props : list (string * json)) :
  assign k v (assign k w props) = assign k v props.
Proof.
  induction props as [|[k' v'] rest IH]; simpl.
  - now rewrite String.eqb_refl.
  - destruct (String.eqb k k') eqn:E; simpl; rewrite E; [reflexivity|].
    now rewrite IH.
Qed.

(** The timestamp route when the filter returns and the directory can be
    written. *)
Lemma delete_log_by_ts_kept (fs : disk) (ts : string)
      (props : list (string * json)) (items kept : list json) :
  loadData fs = JObj props ->
  lookup "logs" props = Some (JArr items) ->
  filter_ (keep_by_ts ts) items = Return kept ->
  write_error fs = None ->
  run (delete_log_by_ts ts) fs =
  (Json 200 (JObj [("status", JStr "deleted"); ("ts", JStr ts);
                   ("removed",
                    JNum (Z.of_nat (List.length items)
                          - Z.of_nat (List.length kept)))]),
   put DATA_FILE (Content (Encodes (JObj (assign "logs" (JArr kept) props)))) fs).
Proof.
  intros Hdata Hlogs Hkept Hw.
  unfold run, delete_log_by_ts, bindM, gets, lift.
  rewrite Hdata; simpl. rewrite Hlogs, Hkept.
  now rewrite saveData_ok by exact Hw.
Qed.

(** The timestamp route answers 200 only in that case. *)
Lemma delete_log_by_ts_answered (fs : disk) (ts : string) :
  status_of (fst (run (delete_log_by_ts ts) fs)) = 200 ->
  exists props items kept,
    loadData fs = JObj props
    /\ lookup "logs" props = Some (JArr items)
    /\ filter_ (keep_by_ts ts) items = Return kept
    /\ write_error fs = None.
Proof.
  unfold run, delete_log_by_ts, bindM, gets, lift.
  destruct (loadData fs) as [| b | n | s | xs | props] eqn:Hdata; simpl;
    try (intros H; exfalso; lia).
  destruct (lookup "logs" props) as [[| b | n | s | items | ps]|] eqn:Hlogs;
    simpl; try (intros H; exfalso; lia).
  destruct (filter_ (keep_by_ts ts) items) as [kept|e] eqn:Hkept; simpl;
    [|intros H; exfalso; lia].
  destruct (write_error fs) as [m|] eqn:Hw.
  - rewrite (saveData_fails fs _ m Hw); simpl. intros H; exfalso; lia.
  - intros _. exists props, items, kept. now repeat split.
Qed.

(** X10.  A deletion by timestamp repeated right away removes nothing:
    whenever the first deletion is answered 200, the second one is answered
    200 with the count 0, and the published Snapshot is as the first
    deletion left it. *)
Theorem delete_by_timestamp_twice :
  forall (fs : disk) (ts : string),
    status_of (fst (run (delete_log_by_ts ts) fs)) = 200 ->
    fst (run (delete_log_by_ts ts) (step (DeleteByTimestamp ts) fs))
      = Json 200 (JObj [("status", JStr "deleted"); ("ts", JStr ts);
                        ("removed", JNum 0)])
    /\ loadData (step (DeleteByTimestamp ts) (step (DeleteByTimestamp ts) fs))
       = loadData (step (DeleteByTimestamp ts) fs).
Proof.
  intros fs ts H200.
  destruct (delete_log_by_ts_answered fs ts H200)
    as (props & items & kept & Hdata & Hlogs & Hkept & Hw).
  unfold step, perform_operation.
  rewrite (delete_log_by_ts_kept fs ts props items kept Hdata Hlogs Hkept Hw).
  cbn [snd].
  rewrite (delete_log_by_ts_kept _ ts _ kept kept
             (loadData_after_write fs _) (lookup_assign _ _ _)
             (filter_again _ _ _ Hkept) Hw).
  cbn [fst snd]. rewrite !loadData_after_write, assign_twice.
  split; [|reflexivity].
  now rewrite Z.sub_diag.
Qed.

Lemma delete_by_timestamp_twice_witness :
  fst (run (delete_log_by_ts "3") (step (DeleteByTimestamp "3") cascade_disk))
  = Json 200 (JObj [("status", JStr "deleted"); ("ts", JStr "3");
                    ("removed", JNum 0)])
  /\ logs_of (loadData (step (DeleteByTimestamp "3") cascade_disk))
     = [ts1; ts2; ts4].
Proof.
  destruct (delete_by_timestamp_twice cascade_disk "3" eq_refl) as (Hreply & _).
  split; [exact Hreply | reflexivity].
Defined.

Lemma toString_array (items : list json) :
  toString (JArr items) = (parts <- strings_of items ;; Return (join "," parts)).
Proof. reflexivity. Qed.

(** [String] throws nothing but a TypeError. *)
Lemma toString_throws_TypeError (x : json) (e : error) :
  toString x = Throw e -> e = TypeError.
Proof.
  revert e.
  induction x as [| b | n | s | items IH | props IH] using json_induction;
    intros e.
  - discriminate.
  - destruct b; discriminate.
  - discriminate.
  - discriminate.
  - rewrite toString_array.
    assert (Heach : forall e', strings_of items = Throw e' -> e' = TypeError).
    { induction IH as [|i rest Hi _ IHrest]; simpl; [discriminate|].
      intros e'.
      destruct (element_string i) as [p|e0] eqn:Ei; simpl.
      - destruct (strings_of rest) as [ps|e1]; simpl; [discriminate|].
        intros [= <-]. now apply IHrest.
      - intros [= <-]. apply Hi. destruct i; try exact Ei. discriminate Ei. }
    destruct (strings_of items) as [parts|e0]; simpl; [discriminate|].
    intros [= <-]. now apply Heach.
  - simpl. destruct (lookup "toString" props); [now intros [= <-] | discriminate].
Qed.

Lemma keep_by_ts_outcome (ts : string) (l : json) :
  l <> JNull ->
  keep_by_ts ts l = match ts_key l with
                    | Return s => Return (negb (String.eqb s ts))
                    | Throw _ => Throw TypeError
                    end.
Proof.
  intros Hl. unfold keep_by_ts, ts_key, String_.
  rewrite (getProp_field l _ Hl). cbn [bind].
  destruct (field l "ts") as [t|]; [|reflexivity].
  destruct (toString t) as [s|e] eqn:E; [reflexivity|].
  now rewrite (toString_throws_TypeError t e E).
Qed.

(** A filter whose callback throws nothing but TypeError, and throws on
    one element at least. *)
Lemma filter_throws (keep : json -> outcome bool) (items : list json) (l : json) :
  (forall x e, In x items -> keep x = Throw e -> e = TypeError) ->
  In l items -> keep l = Throw TypeError ->
  filter_ keep items = Throw TypeError.
Proof.
  induction items as [|x rest IH]; intros Hall Hin Hl; [destruct Hin|].
  simpl. destruct (keep x) as [b|e] eqn:Hx; simpl.
  - destruct Hin as [-> | Hin]; [congruence|].
    rewrite IH; [reflexivity | | exact Hin | exact Hl].
    intros y e Hy. apply Hall. now right.
  - f_equal. apply (Hall x e); [now left | exact Hx].
Qed.

(** X30.  One entry whose [ts] cannot be normalized stops every deletion
    by timestamp: when the logs hold an entry whose [ts] is an object with
    an own property named toString, the route throws a TypeError whatever
    the identifier asked for, answers 500 and writes nothing, so that no
    entry at all can be deleted by its [ts] any more. *)
Theorem unprintable_ts_fails_every_deletion :
  forall (fs : disk) (ts : string) (props : list (string * json))
         (items : list json) (l : json) (inner : list (string * json)) (v : json),
    loadData fs = JObj props ->
    lookup "logs" props = Some (JArr items) ->
    Forall (fun x => x <> JNull) items ->
    In l items ->
    field l "ts" = Some (JObj inner) -> lookup "toString" inner = Some v ->
    run (delete_log_by_ts ts) fs = (Uncaught TypeError, fs)
    /\ status_of (fst (run (delete_log_by_ts ts) fs)) = 500.
Proof.
  intros fs ts props items l inner v Hdata Hlogs Hitems Hin Hts Hinner.
  assert (Hrun : run (delete_log_by_ts ts) fs = (Uncaught TypeError, fs)).
  { unfold run, delete_log_by_ts, bindM, gets, lift.
    rewrite Hdata; simpl. rewrite Hlogs.
    rewrite (filter_throws (keep_by_ts ts) items l); [reflexivity | | exact Hin |].
    - intros x e Hx. rewrite Forall_forall in Hitems.
      rewrite (keep_by_ts_outcome ts x (Hitems x Hx)).
      destruct (ts_key x); [discriminate | now intros [= <-]].
    - rewrite Forall_forall in Hitems.
      rewrite (keep_by_ts_outcome ts l (Hitems l Hin)).
      unfold ts_key. rewrite Hts. simpl. now rewrite Hinner. }
  rewrite Hrun. split; reflexivity.
Qed.

Lemma unprintable_ts_fails_every_deletion_witness :
  run (delete_log_by_ts "1") opaque_ts_disk = (Uncaught TypeError, opaque_ts_disk).
Proof.
  assert (Hitems : Forall (fun x => x <> JNull) [numbered; opaque_ts])
    by (repeat constructor; discriminate).
  destruct (unprintable_ts_fails_every_deletion opaque_ts_disk "1"
              [("groups", JArr []); ("logs", JArr [numbered; opaque_ts])]
              [numbered; opaque_ts] opaque_ts [("toString", JNum 1)] (JNum 1)
              eq_refl eq_refl Hitems (or_intror (or_introl eq_refl))
              eq_refl eq_refl) as (Hrun & _).
  exact Hrun.
Defined.

(** X11.  The cascade repeated right away removes nothing: after a
    deletion by group and date, the same request counts 0 and leaves the
    published Snapshot as it is. *)
Theorem delete_by_group_and_date_twice :
  forall (fs : disk) (groupName date g d : string)
         (props : list (string * json)) (items : list json),
    decodeURIComponent groupName = Return g ->
    decodeURIComponent date = Return d ->
    loadData fs = JObj props ->
    lookup "logs" props = Some (JArr items) ->
    Forall readable_log items ->
    write_error fs = None ->
    fst (run (delete_logs_by_group_and_date groupName date)
             (step (DeleteByGroupAndDate groupName date) fs))
      = Json 200 (JObj [("status", JStr "deleted"); ("groupName", JStr g);
                        ("date", JStr d); ("removed", JNum 0)])
    /\ loadData (step (DeleteByGroupAndDate groupName date)
                   (step (DeleteByGroupAndDate groupName date) fs))
       = loadData (step (DeleteByGroupAndDate groupName date) fs).
Proof.
  intros fs groupName date g d props items Hg Hd Hdata Hlogs Hitems Hw.
  unfold step, perform_operation.
  rewrite (delete_logs_by_group_and_date_run fs groupName date g d props items
             Hg Hd Hdata Hlogs Hitems Hw).
  cbn [snd].
  rewrite (delete_logs_by_group_and_date_run _ groupName date g d _ _ Hg Hd
             (loadData_after_write fs _) (lookup_assign _ _ _)
             (Forall_filter _ _ _ Hitems) Hw).
  cbn [fst snd]. rewrite !loadData_after_write.
  rewrite filter_none_left, filter_twice. split; [reflexivity|].
  f_equal. apply assign_same. apply lookup_assign.
Qed.

Lemma delete_by_group_and_date_twice_witness :
  loadData (step (DeleteByGroupAndDate "A" "2024-01-01")
              (step (DeleteByGroupAndDate "A" "2024-01-01") cascade_disk))
  = loadData (step (DeleteByGroupAndDate "A" "2024-01-01") cascade_disk).
Proof.
  assert (Hitems : Forall readable_log [ts1; ts2; ts3; ts4]).
  { repeat constructor; try discriminate; intros _; eexists; reflexivity. }
  apply (delete_by_group_and_date_twice cascade_disk "A" "2024-01-01"
           "A" "2024-01-01"
           [("groups", JArr []); ("logs", JArr [ts1; ts2; ts3; ts4])]
           [ts1; ts2; ts3; ts4] eq_refl eq_refl eq_refl eq_refl Hitems eq_refl).
Defined.

(* ================================================================== *)
(** * Decoding the route parameters a second time *)

Lemma uri_units_plain (c : ascii) (rest : string) :
  Ascii.eqb c "%" = false ->
  uri_units (String c rest) = (us <- uri_units rest ;; Return (Plain c :: us)).
Proof.
  destruct c as [[|] [|] [|] [|] [|] [|] [|] [|]]; intros H;
    try discriminate H; reflexivity.
Qed.

Lemma uri_units_no_percent (s : string) :
  no_percent s = true ->
  exists us, uri_units s = Return us /\ decode_units us = Return s.
Proof.
  induction s as [|c rest IH]; simpl no_percent; intros H.
  - exists []. split; reflexivity.
  - apply andb_true_iff in H as [Hc Hrest]. apply negb_true_iff in Hc.
    destruct (IH Hrest) as (us & Hus & Hdec).
    exists (Plain c :: us). rewrite (uri_units_plain c rest Hc), Hus.
    split; [reflexivity|]. simpl. now rewrite Hdec.
Qed.

Lemma decode_no_percent (s : string) :
  no_percent s = true -> decodeURIComponent s = Return s.
Proof.
  intros H. destruct (uri_units_no_percent s H) as (us & Hus & Hdec).
  unfold decodeURIComponent. now rewrite Hus.
Qed.

(** X12.  A group name and a date without a percent sign are used as they
    are: the second decoding of the handler changes nothing, and the
    group-and-date route applies its rule to the very strings of the
    path. *)
Theorem plain_names_are_not_changed_by_decoding :
  forall (fs : disk) (groupName date : string)
         (props : list (string * json)) (items : list json),
    no_percent groupName = true -> no_percent date = true ->
    loadData fs = JObj props ->
    lookup "logs" props = Some (JArr items) ->
    Forall readable_log items ->
    write_error fs = None ->
    decodeURIComponent groupName = Return groupName
    /\ decodeURIComponent date = Return date
    /\ fst (run (delete_logs_by_group_and_date groupName date) fs)
       = Json 200 (JObj [("status", JStr "deleted"); ("groupName", JStr groupName);
                         ("date", JStr date);
                         ("removed",
                          json_of_nat (List.length
                            (filter (handler_removes groupName date) items)))])
    /\ logs_of (loadData (step (DeleteByGroupAndDate groupName date) fs))
       = filter (fun l => negb (handler_removes groupName date l)) items.
Proof.
  intros fs groupName date props items Hg Hd Hdata Hlogs Hitems Hw.
  pose proof (decode_no_percent groupName Hg) as Hg'.
  pose proof (decode_no_percent date Hd) as Hd'.
  split; [exact Hg'|]. split; [exact Hd'|].
  unfold step, perform_operation.
  rewrite (delete_logs_by_group_and_date_run fs groupName date groupName date
             props items Hg' Hd' Hdata Hlogs Hitems Hw).
  cbn [fst snd]. rewrite loadData_after_write, logs_of_assign.
  split; reflexivity.
Qed.

Lemma plain_names_are_not_changed_by_decoding_witness :
  logs_of (loadData (step (DeleteByGroupAndDate "A" "2024-01-01") cascade_disk))
  = filter (fun l => negb (handler_removes "A" "2024-01-01" l)) [ts1; ts2; ts3; ts4]
  /\ logs_of (loadData (step (DeleteByGroupAndDate "école" "2024-03-01")
                             school_disk))
     = [ecole_plain].
Proof.
  assert (Hitems : Forall readable_log [ts1; ts2; ts3; ts4]).
  { repeat constructor; try discriminate; intros _; eexists; reflexivity. }
  destruct (plain_names_are_not_changed_by_decoding cascade_disk "A" "2024-01-01"
              [("groups", JArr []); ("logs", JArr [ts1; ts2; ts3; ts4])]
              [ts1; ts2; ts3; ts4] eq_refl eq_refl eq_refl eq_refl Hitems eq_refl)
    as (_ & _ & _ & Hkept).
  destruct (plain_names_are_not_changed_by_decoding school_disk
              "école" "2024-03-01"
              [("groups", JArr []);
               ("logs", JArr [ecole_capitals; ecole_title; ecole_plain])]
              [ecole_capitals; ecole_title; ecole_plain]
              eq_refl eq_refl eq_refl eq_refl school_entries_readable eq_refl)
    as (_ & _ & _ & Hschool).
  split; [exact Hkept|]. rewrite Hschool. reflexivity.
Defined.

Lemma uri_units_percent_short (s : string) :
  (String.length s < 2)%nat -> uri_units (String "%" s) = Throw URIError.
Proof.
  destruct s as [|h [|l rest]]; simpl String.length; intros H;
    [reflexivity | reflexivity | lia].
Qed.

Lemma uri_units_percent_long (h l : ascii) (rest : string) :
  uri_units (String "%" (String h (String l rest)))
  = match hex_digit h, hex_digit l with
    | Some x, Some y =>
        us <- uri_units rest ;; Return (Escaped (16 * x + y) :: us)
    | _, _ => Throw URIError
    end.
Proof. reflexivity. Qed.

Lemma hex_digit_percent : hex_digit "%" = None.
Proof. reflexivity. Qed.

(** A lone percent sign at the end never decodes. *)
Lemma uri_units_trailing_percent (n : nat) :
  forall s, (String.length s <= n)%nat -> uri_units (s ++ "%") = Throw URIError.
Proof.
  induction n as [|n IH]; intros s Hlen.
  - destruct s; [reflexivity | simpl in Hlen; lia].
  - destruct s as [|c rest]; [reflexivity|].
    simpl in Hlen. change (String c rest ++ "%") with (String c (rest ++ "%")).
    destruct (Ascii.eqb c "%") eqn:Hc.
    + apply Ascii.eqb_eq in Hc. subst c.
      destruct rest as [|h [|l rest']].
      * reflexivity.
      * change (String h "" ++ "%") with (String h (String "%" "")).
        rewrite uri_units_percent_long, hex_digit_percent.
        destruct (hex_digit h); reflexivity.
      * change (String h (String l rest') ++ "%")
          with (String h (String l (rest' ++ "%"))).
        rewrite uri_units_percent_long.
        destruct (hex_digit h); [|reflexivity].
        destruct (hex_digit l); [|reflexivity].
        rewrite IH by (simpl in Hlen; lia). reflexivity.
    + rewrite (uri_units_plain c _ Hc), IH by lia. reflexivity.
Qed.

Lemma decode_trailing_percent (s : string) :
  decodeURIComponent (s ++ "%") = Throw URIError.
Proof.
  unfold decodeURIComponent.
  now rewrite (uri_units_trailing_percent (String.length s) s (Nat.le_refl _)).
Qed.

(** X13.  A group name or a date that ends with a percent sign cannot be
    decoded a second time: the group-and-date route fails with a URIError
    before it reads the logs, and the disk is as it was.  The logs of such
    a group cannot be cleaned through this route. *)
Theorem trailing_percent_fails_the_cascade :
  forall (fs : disk) (s other : string),
    run (delete_logs_by_group_and_date (s ++ "%") other) fs = (Uncaught URIError, fs)
    /\ (forall g, decodeURIComponent other = Return g ->
          run (delete_logs_by_group_and_date other (s ++ "%")) fs
          = (Uncaught URIError, fs)).
Proof.
  intros fs s other. split.
  - unfold run, delete_logs_by_group_and_date, bindM, gets, lift.
    now rewrite decode_trailing_percent.
  - intros g Hg. unfold run, delete_logs_by_group_and_date, bindM, gets, lift.
    now rewrite Hg, decode_trailing_percent.
Qed.

Lemma trailing_percent_fails_the_cascade_witness :
  run (delete_logs_by_group_and_date "A" "50%") cascade_disk
  = (Uncaught URIError, cascade_disk).
Proof.
  destruct (trailing_percent_fails_the_cascade cascade_disk "50" "A") as (_ & H).
  apply (H "A"). reflexivity.
Defined.

(* ================================================================== *)
(** * A directory that cannot be written *)

Ltac failing_filter_route fs m Hw :=
  unfold run, bindM, gets, lift;
  destruct (loadData fs) as [| ? | ? | ? | ? | props]; simpl;
  try (split; [reflexivity | lia]);
  destruct (lookup "logs" props) as [[| ? | ? | ? | items | ?]|]; simpl;
  try (split; [reflexivity | lia]);
  match goal with
  | |- context [filter_ ?keep items] =>
      destruct (filter_ keep items); simpl;
      [ rewrite (saveData_fails fs _ m Hw); simpl | ];
      (split; [reflexivity | lia])
  end.

(** X14.  On a directory that cannot be written, no operation changes the
    disk and none answers 200: a save, an append, a publish, a discard and
    the deletions all report a failure. *)
Theorem unwritable_directory_refuses_every_operation :
  forall (o : operation) (fs : disk) (m : string),
    write_error fs = Some m ->
    step o fs = fs
    /\ status_of (fst (run (perform_operation o) fs)) <> 200.
Proof.
  intros o fs m Hw. unfold step.
  destruct o as [entry | body | | | ts | groupName | groupName date];
    cbn [perform_operation].
  - destruct entry as [e|]; [|cbn; split; [reflexivity | lia]].
    destruct (valid_log e) eqn:Hv.
    + rewrite (post_logs_valid e fs Hv), Hw.
      destruct (loadData fs) as [| | | | |props]; cbn;
        try (split; [reflexivity | lia]).
      destruct (lookup "logs" props) as [[| | | |items|]|]; cbn;
        split; reflexivity || lia.
    + rewrite (post_logs_invalid e fs Hv). cbn. split; [reflexivity | lia].
  - destruct body as [d|]; [|cbn; split; [reflexivity | lia]].
    rewrite post_save_run, Hw.
    destruct (isArray (field d "groups") && isArray (field d "logs")); cbn;
      split; reflexivity || lia.
  - rewrite publish_run, Hw. cbn. split; [reflexivity | lia].
  - rewrite discard_run, Hw. cbn. split; [reflexivity | lia].
  - unfold delete_log_by_ts. failing_filter_route fs m Hw.
  - unfold delete_logs_by_group. failing_filter_route fs m Hw.
  - unfold delete_logs_by_group_and_date, run, bindM, gets, lift.
    destruct (decodeURIComponent groupName); simpl; [|split; [reflexivity | lia]].
    destruct (decodeURIComponent date); simpl; [|split; [reflexivity | lia]].
    destruct (loadData fs) as [| ? | ? | ? | ? | props]; simpl;
      try (split; [reflexivity | lia]).
    destruct (lookup "logs" props) as [[| ? | ? | ? | items | ?]|]; simpl;
      try (split; [reflexivity | lia]).
    match goal with
    | |- context [filter_ ?keep items] =>
        destruct (filter_ keep items); simpl;
        [ rewrite (saveData_fails fs _ m Hw); simpl | ];
        (split; [reflexivity | lia])
    end.
Qed.

Lemma unwritable_directory_refuses_every_operation_witness :
  step Publish (mkDisk (files one_entry_disk) (Some "EROFS"))
  = mkDisk (files one_entry_disk) (Some "EROFS").
Proof.
  apply (unwritable_directory_refuses_every_operation Publish
           (mkDisk (files one_entry_disk) (Some "EROFS")) "EROFS").
  reflexivity.
Defined.

(* ================================================================== *)
(** * Start-up *)

(** X15.  On a directory that can be written, start-up succeeds, leaves
    every file that exists as it is (also one that cannot be read or
    parsed), creates the data, users, draft and TV URLs files that are
    missing and no other file; a second start-up changes nothing.  A data
    file created by start-up holds the empty Snapshot, a users file the two
    default accounts and a TV URLs file the empty list. *)
Theorem startup_creates_only_missing_files :
  forall fs : disk,
    write_error fs = None ->
    fst (startup_all fs) = Return tt
    /\ (forall p, existsSync fs p = true ->
          files (snd (startup_all fs)) p = files fs p)
    /\ (forall p, p <> DATA_FILE -> p <> USERS_FILE -> p <> DRAFT_FILE ->
          p <> TV_URLS_FILE ->
          files (snd (startup_all fs)) p = files fs p)
    /\ existsSync (snd (startup_all fs)) DATA_FILE = true
    /\ existsSync (snd (startup_all fs)) USERS_FILE = true
    /\ existsSync (snd (startup_all fs)) DRAFT_FILE = true
    /\ existsSync (snd (startup_all fs)) TV_URLS_FILE = true
    /\ (files fs DATA_FILE = Absent ->
        loadData (snd (startup_all fs)) = emptySnapshot)
    /\ (files fs USERS_FILE = Absent ->
        loadUsers (snd (startup_all fs)) = defaultUsers)
    /\ (files fs TV_URLS_FILE = Absent ->
        loadTVUrls (snd (startup_all fs)) = JArr [])
    /\ startup_all (snd (startup_all fs)) = (Return tt, snd (startup_all fs)).
Proof.
  intros [f w]; simpl; intros ->.
  unfold startup_all, startup_tv_urls, startup, bindM, gets, existsSync,
    perform, ret. cbn.
  destruct (f DATA_FILE) as [| |t1] eqn:Hdata; cbn;
    destruct (f USERS_FILE) as [| |t2] eqn:Husers; cbn;
    destruct (f DRAFT_FILE) as [| |t3] eqn:Hdraft; cbn;
    rewrite ?Hdata, ?Husers, ?Hdraft; cbn;
    destruct (f TV_URLS_FILE) as [| |t4] eqn:Htv; cbn;
    rewrite ?Hdata, ?Husers, ?Hdraft, ?Htv; cbn;
    (split; [reflexivity|]);
    (split; [intros p Hp; unfold put; cbn;
             repeat match goal with
               | |- context [String.eqb p ?q] =>
                   destruct (String.eqb_spec p q);
                   [subst p; rewrite ?Hdata, ?Husers, ?Hdraft, ?Htv in Hp;
                    try discriminate Hp; try congruence |]
               end; reflexivity|]);
    (split; [intros p H1 H2 H3 H4; unfold put; cbn;
             repeat match goal with
               | |- context [String.eqb p ?q] =>
                   destruct (String.eqb_spec p q); [contradiction|]
               end; reflexivity|]);
    (split; [reflexivity|]); (split; [reflexivity|]);
    (split; [reflexivity|]); (split; [reflexivity|]);
    (split; [try reflexivity; intros H; discriminate H|]);
    (split; [try reflexivity; intros H; discriminate H|]);
    (split; [try reflexivity; intros H; discriminate H|]);
    repeat progress (cbn; rewrite ?Hdata, ?Husers, ?Hdraft, ?Htv);
    reflexivity.
Qed.

Lemma startup_creates_only_missing_files_witness :
  files (snd (startup_all blank_draft_disk)) DRAFT_FILE = Content Empty
  /\ loadUsers (snd (startup_all blank_draft_disk)) = defaultUsers.
Proof.
  destruct (startup_creates_only_missing_files blank_draft_disk eq_refl)
    as (_ & Hkeep & _ & _ & _ & _ & _ & _ & Husers & _).
  split.
  - apply (Hkeep DRAFT_FILE). reflexivity.
  - apply Husers. reflexivity.
Defined.

(* ================================================================== *)
(** * User accounts *)

Lemma loadUsers_cases (fs : disk) :
  loadUsers fs =
  match files fs USERS_FILE with
  | Content (Encodes d) => d
  | Content Empty => JArr []
  | Content Malformed | Absent | Unreadable => defaultUsers
  end.
Proof.
  unfold loadUsers, readFileSync.
  destruct (files fs USERS_FILE) as [| |[| |d]]; reflexivity.
Qed.

Lemma loadUsers_after_write (fs : disk) (d : json) :
  loadUsers (put USERS_FILE (Content (Encodes d)) fs) = d.
Proof. reflexivity. Qed.

Lemma saveUsers_ok (fs : disk) (d : json) :
  write_error fs = None ->
  saveUsers d fs = (Return tt, put USERS_FILE (Content (Encodes d)) fs).
Proof. intros Hw. unfold saveUsers, perform. now rewrite Hw. Qed.

Lemma saveUsers_fails (fs : disk) (d : json) (m : string) :
  write_error fs = Some m -> saveUsers d fs = (Throw (IOError m), fs).
Proof. intros Hw. unfold saveUsers, perform. now rewrite Hw. Qed.

Lemma has_name_object (name : string) (u : json) :
  has_name name u = true -> truthy (Some u) = true /\ u <> JNull.
Proof.
  unfold has_name, username_of. destruct u; simpl; try discriminate.
  intros _. split; [reflexivity | discriminate].
Qed.

Lemma has_name_field (name : string) (u : json) :
  has_name name u = true <-> field u "username" = Some (JStr name).
Proof.
  unfold has_name, username_of, strict_eq_string.
  destruct (field u "username") as [[| | |s| |]|]; split; try discriminate.
  - intros H. apply String.eqb_eq in H. now subst.
  - intros [= ->]. apply String.eqb_refl.
Qed.

(** The searches of the account routes on a list without [null]. *)
Lemma find_named (name : string) (items : list json) :
  readable_accounts items ->
  find_ (named (Some (JStr name))) items = Return (find (has_name name) items).
Proof.
  induction 1 as [|u rest Hu _ IH]; simpl; [reflexivity|].
  unfold named at 1. rewrite (getProp_field u _ Hu). simpl.
  change (strict_eq (field u "username") (Some (JStr name)))
    with (match field u "username" with
          | Some (JStr x) => String.eqb x name
          | _ => false
          end).
  unfold has_name, username_of, strict_eq_string.
  destruct (field u "username") as [[| | |s| |]|]; try exact IH.
  destruct (String.eqb s name); [reflexivity | exact IH].
Qed.

Lemma find_has_name_truthy (name : string) (items : list json) :
  truthy (find (has_name name) items) = existsb (has_name name) items.
Proof.
  induction items as [|u rest IH]; simpl; [reflexivity|].
  destruct (has_name name u) eqn:E; simpl; [|exact IH].
  now destruct (has_name_object name u E).
Qed.



(** X16.  A users file that is missing, cannot be read or is not JSON
    stands for the two default accounts: the users route returns them, and
    the next account creation with a new name writes them to the file,
    followed by the new account.  An empty users file stands for no
    account at all. *)
Theorem unreadable_users_file_means_default_accounts :
  forall fs : disk,
    (files fs USERS_FILE = Absent \/ files fs USERS_FILE = Unreadable
     \/ files fs USERS_FILE = Content Malformed ->
     run get_users fs = (Json 200 defaultUsers, fs)
     /\ forall (name : string) (p r : json),
          name <> "" -> name <> "admin" -> name <> "user" ->
          truthy (Some p) = true -> truthy (Some r) = true ->
          write_error fs = None ->
          loadUsers (snd (run (post_users_create
                     (Some (JObj [("username", JStr name); ("password", p);
                                  ("role", r)]))) fs))
          = JArr [JObj [("username", JStr "admin"); ("password", JStr "admin123");
                        ("role", JStr "admin")];
                  JObj [("username", JStr "user"); ("password", JStr "user123");
                        ("role", JStr "user")];
                  JObj [("username", JStr name); ("password", p); ("role", r)]])
    /\ (files fs USERS_FILE = Content Empty ->
        run get_users fs = (Json 200 (JArr []), fs)).
Proof.
  intros fs. split.
  - intros Hfile.
    assert (Hload : loadUsers fs = defaultUsers)
      by (rewrite loadUsers_cases; destruct Hfile as [-> | [-> | ->]]; reflexivity).
    split.
    + unfold run, get_users, try_catchM, bindM, gets, ret. now rewrite Hload.
    + intros name p r Hname Hadmin Huser Hp Hr Hw.
      unfold run, post_users_create, try_catchM, bindM, lift, gets.
      cbn [getProp lookup String.eqb Ascii.eqb Bool.eqb].
      cbn -[truthy defaultUsers saveUsers find_ named].
      assert (Hn : truthy (Some (JStr name)) = true).
      { simpl. apply negb_true_iff. now apply String.eqb_neq. }
      rewrite Hn, Hp, Hr. cbn [negb orb]. rewrite Hload.
      unfold defaultUsers at 1.
      rewrite find_named by (repeat constructor; discriminate).
      rewrite find_has_name_truthy.
      assert (Hnone : existsb (has_name name)
                [JObj [("username", JStr "admin"); ("password", JStr "admin123");
                       ("role", JStr "admin")];
                 JObj [("username", JStr "user"); ("password", JStr "user123");
                       ("role", JStr "user")]] = false).
      { match goal with |- ?b = false => destruct b eqn:E end; [|reflexivity].
        apply existsb_exists in E as (u & [<- | [<- | []]] & Hu);
          apply has_name_field in Hu; cbn in Hu; injection Hu as Hu;
          congruence. }
      rewrite Hnone. rewrite saveUsers_ok by exact Hw. reflexivity.
  - intros Hfile.
    unfold run, get_users, try_catchM, bindM, gets, ret.
    now rewrite loadUsers_cases, Hfile.
Qed.

Lemma unreadable_users_file_means_default_accounts_witness :
  run get_users fresh_disk = (Json 200 defaultUsers, fresh_disk).
Proof.
  destruct (unreadable_users_file_means_default_accounts fresh_disk) as (H & _).
  apply H. left. reflexivity.
Defined.

(** The create route on a body with a string username and truthy password
    and role, when the users file holds a list of accounts. *)
Lemma post_users_create_run (fs : disk) (b : json) (name : string) (p r : json)
      (items : list json) :
  field b "username" = Some (JStr name) -> name <> "" ->
  field b "password" = Some p -> truthy (Some p) = true ->
  field b "role" = Some r -> truthy (Some r) = true ->
  loadUsers fs = JArr items -> readable_accounts items ->
  run (post_users_create (Some b)) fs =
  if existsb (has_name name) items then
    (Json 409 (JObj [("error", JStr "Username already exists")]), fs)
  else
    match write_error fs with
    | None =>
        (Json 200 (JObj [("status", JStr "ok");
                         ("user", JObj [("username", JStr name); ("role", r)])]),
         put USERS_FILE
           (Content (Encodes (JArr (items ++
              [JObj [("username", JStr name); ("password", p); ("role", r)]])%list)))
           fs)
    | Some m => (failed "Failed to create user", fs)
    end.
Proof.
  intros Hn Hname Hp Htp Hr Htr Hload Hitems.
  assert (Hb : b <> JNull) by (intros ->; discriminate Hn).
  unfold run, post_users_create, try_catchM, bindM, lift, gets.
  rewrite !(getProp_field b _ Hb), Hn, Hp, Hr.
  assert (Htn : truthy (Some (JStr name)) = true).
  { simpl. apply negb_true_iff. now apply String.eqb_neq. }
  rewrite Htn, Htp, Htr. cbn [negb orb]. rewrite Hload.
  rewrite (find_named name items Hitems), find_has_name_truthy.
  destruct (existsb (has_name name) items); [reflexivity|].
  destruct (write_error fs) as [m|] eqn:Hw.
  - now rewrite (saveUsers_fails fs _ m Hw).
  - now rewrite (saveUsers_ok fs _ Hw).
Qed.

Lemma no_account_named (name : string) (items : list json) :
  existsb (has_name name) items = false ->
  ~ In (Some (JStr name)) (map username_of items).
Proof.
  intros Hnone Hin. apply in_map_iff in Hin as (u & Hu & Hin).
  assert (H : existsb (has_name name) items = true).
  { apply existsb_exists. exists u. split; [exact Hin|].
    now apply has_name_field. }
  congruence.
Qed.

(** X17.  Account creation never duplicates a user name.  For a body with
    a non-empty string username and truthy password and role, on a users
    list without [null]: the route answers 409 exactly when an account
    already has that username, and then changes nothing; otherwise, when
    the directory can be written, it answers 200 and the new account is
    added after the others.  In every case, user names that were pairwise
    distinct are still pairwise distinct afterwards. *)
Theorem create_user_keeps_usernames_distinct :
  forall (fs : disk) (b : json) (name : string) (p r : json) (items : list json),
    field b "username" = Some (JStr name) -> name <> "" ->
    field b "password" = Some p -> truthy (Some p) = true ->
    field b "role" = Some r -> truthy (Some r) = true ->
    loadUsers fs = JArr items -> readable_accounts items ->
    (status_of (fst (run (post_users_create (Some b)) fs)) = 409 <->
     exists u, In u items /\ field u "username" = Some (JStr name))
    /\ (status_of (fst (run (post_users_create (Some b)) fs)) = 409 ->
        snd (run (post_users_create (Some b)) fs) = fs)
    /\ (write_error fs = None ->
        (forall u, In u items -> field u "username" <> Some (JStr name)) ->
        status_of (fst (run (post_users_create (Some b)) fs)) = 200
        /\ loadUsers (snd (run (post_users_create (Some b)) fs))
           = JArr (items ++
               [JObj [("username", JStr name); ("password", p); ("role", r)]])%list)
    /\ (NoDup (map username_of items) ->
        NoDup (map username_of
                 (accounts_of (loadUsers (snd (run (post_users_create (Some b)) fs)))))).
Proof.
  intros fs b name p r items Hn Hname Hp Htp Hr Htr Hload Hitems.
  rewrite (post_users_create_run fs b name p r items
             Hn Hname Hp Htp Hr Htr Hload Hitems).
  destruct (existsb (has_name name) items) eqn:Hex.
  - cbn [fst snd status_of]. split; [|split; [|split]].
    + split; [intros _ | reflexivity].
      apply existsb_exists in Hex as (u & Hin & Hu).
      exists u. split; [exact Hin | now apply has_name_field].
    + reflexivity.
    + intros _ Hnone. exfalso.
      apply existsb_exists in Hex as (u & Hin & Hu).
      apply (Hnone u Hin). now apply has_name_field.
    + intros Hnd. now rewrite Hload.
  - assert (Hnone : forall u, In u items -> field u "username" <> Some (JStr name)).
    { intros u Hin Hu. apply has_name_field in Hu.
      assert (existsb (has_name name) items = true)
        by (apply existsb_exists; eauto).
      congruence. }
    destruct (write_error fs) as [m|] eqn:Hw; cbn [fst snd status_of failed].
    + split; [|split; [|split]].
      * split; [lia|]. intros (u & Hin & Hu). exfalso. exact (Hnone u Hin Hu).
      * reflexivity.
      * discriminate.
      * intros Hnd. now rewrite Hload.
    + split; [|split; [|split]].
      * split; [lia|]. intros (u & Hin & Hu). exfalso. exact (Hnone u Hin Hu).
      * lia.
      * intros _ _. split; reflexivity.
      * intros Hnd. rewrite loadUsers_after_write. cbn [accounts_of].
        rewrite map_app. cbn [map].
        apply NoDup_app.
        -- exact Hnd.
        -- constructor; [intros [] | constructor].
        -- intros x Hx [<- | []]. revert Hx. now apply no_account_named.
Qed.

Lemma create_user_keeps_usernames_distinct_witness :
  loadUsers (snd (run (post_users_create
     (Some (JObj [("username", JStr "guest"); ("password", JStr "pw");
                  ("role", JStr "user")]))) fresh_disk))
  = JArr [JObj [("username", JStr "admin"); ("password", JStr "admin123");
                ("role", JStr "admin")];
          JObj [("username", JStr "user"); ("password", JStr "user123");
                ("role", JStr "user")];
          JObj [("username", JStr "guest"); ("password", JStr "pw");
                ("role", JStr "user")]].
Proof.
  assert (Hitems : readable_accounts
            [JObj [("username", JStr "admin"); ("password", JStr "admin123");
                   ("role", JStr "admin")];
             JObj [("username", JStr "user"); ("password", JStr "user123");
                   ("role", JStr "user")]])
    by (repeat constructor; discriminate).
  destruct (create_user_keeps_usernames_distinct fresh_disk
              (JObj [("username", JStr "guest"); ("password", JStr "pw");
                     ("role", JStr "user")])
              "guest" (JStr "pw") (JStr "user") _
              eq_refl ltac:(discriminate) eq_refl eq_refl eq_refl eq_refl
              eq_refl Hitems) as (_ & _ & Hok & _).
  apply Hok; [reflexivity|].
  intros u [<- | [<- | []]]; discriminate.
Defined.




Lemma findIndex_called (name : string) (items : list json) :
  readable_accounts items ->
  findIndex_ (called name) items = Return (first_index (has_name name) items).
Proof.
  induction 1 as [|u rest Hu _ IH]; simpl; [reflexivity|].
  unfold called at 1. rewrite (getProp_field u _ Hu). simpl.
  change (strict_eq_string (field u "username") name) with (has_name name u).
  destruct (has_name name u); [reflexivity|]. now rewrite IH.
Qed.

Lemma first_index_spec (f : json -> bool) (items : list json) (i : nat) :
  first_index f items = Some i ->
  exists before u after,
    items = (before ++ u :: after)%list /\ List.length before = i
    /\ f u = true /\ forallb (fun x => negb (f x)) before = true.
Proof.
  revert i. induction items as [|x rest IH]; simpl; intros i H; [discriminate|].
  destruct (f x) eqn:E.
  - injection H as <-. exists [], x, rest. repeat split; assumption.
  - destruct (first_index f rest) as [j|]; [|discriminate].
    injection H as <-.
    destruct (IH j eq_refl) as (before & u & after & -> & Hlen & Hu & Hb).
    exists (x :: before), u, after. simpl. rewrite E, Hb, Hlen. repeat split.
    exact Hu.
Qed.

Lemma first_index_none (f : json -> bool) (items : list json) :
  first_index f items = None <-> forall u, In u items -> f u = false.
Proof.
  induction items as [|x rest IH]; simpl.
  - split; [intros _ u [] | reflexivity].
  - destruct (f x) eqn:E.
    + split; [discriminate|]. intros H. rewrite (H x) in E; [discriminate | now left].
    + destruct (first_index f rest) as [j|]; simpl.
      * split; [discriminate|]. intros H.
        assert (Hn : Some j = None) by (apply IH; intros u Hu; apply H; now right).
        discriminate Hn.
      * split; [|reflexivity]. intros _ u [<- | Hu]; [exact E|].
        now apply (proj1 IH).
Qed.

Lemma update_at_middle (before after : list json) (u u' : json) :
  update_at (List.length before) u' (before ++ u :: after)
  = (before ++ u' :: after)%list.
Proof. induction before as [|x rest IH]; simpl; [reflexivity | now rewrite IH]. Qed.

Lemma nth_middle_json (before after : list json) (u : json) :
  nth (List.length before) (before ++ u :: after) JNull = u.
Proof. induction before as [|x rest IH]; simpl; [reflexivity | exact IH]. Qed.

Lemma update_if_object (v : value) (k : string) (u : json) :
  (exists props, u = JObj props) -> exists props, update_if v k u = JObj props.
Proof.
  intros [props ->]. unfold update_if.
  destruct v as [x|]; [|eauto]. destruct (truthy (Some x)); simpl; eauto.
Qed.

Lemma update_if_other (v : value) (k k' : string) (u : json) :
  k' <> k -> field (update_if v k u) k' = field u k'.
Proof.
  intros Hne. unfold update_if.
  destruct v as [x|]; [|reflexivity].
  destruct (truthy (Some x)); [|reflexivity].
  destruct u; try reflexivity. simpl. now apply lookup_assign_other.
Qed.

(** The update route on a body that can be read and a users list without
    [null]. *)
Lemma put_user_run (fs : disk) (name : string) (b : json) (items : list json) :
  b <> JNull -> loadUsers fs = JArr items -> readable_accounts items ->
  run (put_user name (Some b)) fs =
  match first_index (has_name name) items with
  | None => (Json 404 (JObj [("error", JStr "User not found")]), fs)
  | Some i =>
      let user :=
        update_if (field b "role") "role"
          (update_if (field b "password") "password"
             (update_if (field b "newUsername") "username" (nth i items JNull))) in
      match write_error fs with
      | None =>
          (Json 200 (JObj [("status", JStr "ok"); ("user", user)]),
           put USERS_FILE (Content (Encodes (JArr (update_at i user items)))) fs)
      | Some m => (failed "Failed to update user", fs)
      end
  end.
Proof.
  intros Hb Hload Hitems.
  unfold run, put_user, try_catchM, bindM, lift, gets.
  rewrite !(getProp_field b _ Hb), Hload.
  rewrite (findIndex_called name items Hitems).
  destruct (first_index (has_name name) items) as [i|]; [|reflexivity].
  destruct (write_error fs) as [m|] eqn:Hw.
  - now rewrite (saveUsers_fails fs _ m Hw).
  - now rewrite (saveUsers_ok fs _ Hw).
Qed.

Lemma update_if_set (x : json) (k : string) (u : json) :
  (exists props, u = JObj props) -> truthy (Some x) = true ->
  field (update_if (Some x) k u) k = Some x.
Proof.
  intros [props ->] Hx. unfold update_if. rewrite Hx. simpl. apply lookup_assign.
Qed.

Lemma update_if_skip (v : value) (k : string) (u : json) :
  truthy v = false -> update_if v k u = u.
Proof.
  intros Hv. unfold update_if. destruct v as [x|]; [|reflexivity]. now rewrite Hv.
Qed.

(** X19.  The update route, on a body that is not [null] and a users list
    without [null]: it answers 404 and changes nothing exactly when no
    account has the name of the path.  Otherwise, when the directory can
    be written, it changes the first account of that name and no other:
    the accounts before and after it are kept; a truthy newUsername,
    password or role of the body becomes the username, password or role
    of the account; each of the three that the body does not give (or
    gives falsy) is left alone, as is every other field.  No check is made
    on the new name. *)
Theorem update_user_changes_first_match_only :
  forall (fs : disk) (name : string) (b : json) (items : list json),
    b <> JNull -> loadUsers fs = JArr items -> readable_accounts items ->
    (status_of (fst (run (put_user name (Some b)) fs)) = 404 <->
     forall u, In u items -> has_name name u = false)
    /\ (status_of (fst (run (put_user name (Some b)) fs)) = 404 ->
        snd (run (put_user name (Some b)) fs) = fs)
    /\ (write_error fs = None ->
        forall before u after,
          items = (before ++ u :: after)%list ->
          has_name name u = true ->
          (forall x, In x before -> has_name name x = false) ->
          exists u',
            loadUsers (snd (run (put_user name (Some b)) fs))
              = JArr (before ++ u' :: after)%list
            /\ fst (run (put_user name (Some b)) fs)
               = Json 200 (JObj [("status", JStr "ok"); ("user", u')])
            /\ (forall x, field b "newUsername" = Some x -> truthy (Some x) = true ->
                  field u' "username" = Some x)
            /\ (truthy (field b "newUsername") = false ->
                  field u' "username" = field u "username")
            /\ (forall x, field b "password" = Some x -> truthy (Some x) = true ->
                  field u' "password" = Some x)
            /\ (truthy (field b "password") = false ->
                  field u' "password" = field u "password")
            /\ (forall x, field b "role" = Some x -> truthy (Some x) = true ->
                  field u' "role" = Some x)
            /\ (truthy (field b "role") = false ->
                  field u' "role" = field u "role")
            /\ (forall k, k <> "username" -> k <> "password" -> k <> "role" ->
                  field u' k = field u k)).
Proof.
  intros fs name b items Hb Hload Hitems.
  rewrite (put_user_run fs name b items Hb Hload Hitems).
  split; [|split].
  - destruct (first_index (has_name name) items) as [i|] eqn:Hi.
    + split.
      * destruct (write_error fs); cbn; lia.
      * intros Hnone. apply first_index_none in Hnone. congruence.
    + split; [intros _; now apply first_index_none | reflexivity].
  - destruct (first_index (has_name name) items) as [i|]; [|reflexivity].
    cbn zeta. destruct (write_error fs); cbn; [reflexivity | lia].
  - intros Hw before u after -> Hu Hbefore. rewrite Hw.
    assert (Hi : first_index (has_name name) (before ++ u :: after)
                 = Some (List.length before)).
    { clear - Hu Hbefore. induction before as [|x rest IH]; simpl.
      - now rewrite Hu.
      - rewrite (Hbefore x) by now left.
        rewrite IH; [reflexivity|]. intros y Hy. apply Hbefore. now right. }
    rewrite Hi. cbn zeta. rewrite nth_middle_json, update_at_middle.
    cbn [fst snd]. rewrite loadUsers_after_write.
    eexists. split; [reflexivity|]. split; [reflexivity|].
    assert (Hobj : exists props, u = JObj props).
    { apply has_name_field in Hu. destruct u; try discriminate Hu. eauto. }
    pose proof (update_if_object (field b "newUsername") "username" u Hobj) as Hobj1.
    pose proof (update_if_object (field b "password") "password" _ Hobj1) as Hobj2.
    split; [|split; [|split; [|split; [|split; [|split]]]]].
    + intros x Hx Htx. rewrite !update_if_other by discriminate.
      rewrite Hx. now apply update_if_set.
    + intros Hf. rewrite !update_if_other by discriminate.
      now rewrite update_if_skip.
    + intros x Hx Htx. rewrite update_if_other by discriminate.
      rewrite Hx. now apply update_if_set.
    + intros Hf. rewrite update_if_other by discriminate.
      rewrite (update_if_skip (field b "password")) by exact Hf.
      now apply update_if_other.
    + intros x Hx Htx. rewrite Hx. now apply update_if_set.
    + intros Hf. rewrite (update_if_skip (field b "role")) by exact Hf.
      now rewrite !update_if_other by discriminate.
    + intros k H1 H2 H3. now rewrite !update_if_other by assumption.
Qed.

Lemma update_user_changes_first_match_only_witness :
  exists u',
    loadUsers (snd (run (put_user "user"
       (Some (JObj [("newUsername", JStr "admin"); ("role", JStr "admin")])))
       fresh_disk))
    = JArr [JObj [("username", JStr "admin"); ("password", JStr "admin123");
                  ("role", JStr "admin")]; u']
    /\ field u' "username" = Some (JStr "admin")
    /\ field u' "password" = Some (JStr "user123")
    /\ field u' "role" = Some (JStr "admin").
Proof.
  assert (Hitems : readable_accounts
            [JObj [("username", JStr "admin"); ("password", JStr "admin123");
                   ("role", JStr "admin")];
             JObj [("username", JStr "user"); ("password", JStr "user123");
                   ("role", JStr "user")]])
    by (repeat constructor; discriminate).
  destruct (update_user_changes_first_match_only fresh_disk "user"
              (JObj [("newUsername", JStr "admin"); ("role", JStr "admin")]) _
              ltac:(discriminate) eq_refl Hitems) as (_ & _ & Hok).
  destruct (Hok eq_refl
              [JObj [("username", JStr "admin"); ("password", JStr "admin123");
                     ("role", JStr "admin")]]
              (JObj [("username", JStr "user"); ("password", JStr "user123");
                     ("role", JStr "user")])
              [] eq_refl eq_refl)
    as (u' & Hload & _ & Hname & _ & _ & Hpass & Hrole & _).
  - intros x [<- | []]. reflexivity.
  - exists u'. split; [exact Hload|].
    split; [apply (Hname (JStr "admin")); reflexivity|].
    split; [rewrite Hpass; reflexivity|].
    apply (Hrole (JStr "admin")); reflexivity.
Defined.






(* ================================================================== *)
(** * TV display URLs *)

Lemma loadTVUrls_cases (fs : disk) :
  loadTVUrls fs =
  match files fs TV_URLS_FILE with
  | Content (Encodes d) => d
  | _ => JArr []
  end.
Proof.
  unfold loadTVUrls, readFileSync.
  destruct (files fs TV_URLS_FILE) as [| |[| |d]]; reflexivity.
Qed.

Lemma saveTVUrls_ok (fs : disk) (d : json) :
  write_error fs = None ->
  saveTVUrls d fs = (Return tt, put TV_URLS_FILE (Content (Encodes d)) fs).
Proof. intros Hw. unfold saveTVUrls, perform. now rewrite Hw. Qed.

(** X21.  The TV URLs list: a body that is not an array is answered 400
    and nothing is written; an array is stored as it is, whatever its
    entries, when the directory can be written, and the list route then
    returns exactly it, with no other file changed.  A list file that is
    missing, empty, unreadable or not JSON reads as the empty list. *)
Theorem tv_urls_round_trip :
  forall (body : value) (fs : disk),
    (isArray body = false ->
       run (post_tv_urls body) fs
       = (Json 400 (JObj [("error", JStr "URLs must be an array")]), fs))
    /\ (forall urls, body = Some (JArr urls) -> write_error fs = None ->
          fst (run (post_tv_urls body) fs)
            = Json 200 (JObj [("status", JStr "ok");
                              ("count", json_of_nat (List.length urls))])
          /\ run get_tv_urls (snd (run (post_tv_urls body) fs))
             = (Json 200 (JArr urls), snd (run (post_tv_urls body) fs))
          /\ (forall p, p <> TV_URLS_FILE ->
                files (snd (run (post_tv_urls body) fs)) p = files fs p))
    /\ ((forall d, files fs TV_URLS_FILE <> Content (Encodes d)) ->
        run get_tv_urls fs = (Json 200 (JArr []), fs)).
Proof.
  intros body fs. split; [|split].
  - intros Hno. destruct body as [[| | | |urls|]|]; try reflexivity.
    discriminate Hno.
  - intros urls -> Hw. unfold run, post_tv_urls, bindM.
    rewrite (saveTVUrls_ok fs _ Hw). cbn [fst snd ret].
    split; [reflexivity|]. split; [reflexivity|].
    intros p Hp. now apply files_put_other.
  - intros Hno. unfold run, get_tv_urls, bindM, gets, ret.
    rewrite loadTVUrls_cases.
    destruct (files fs TV_URLS_FILE) as [| |[| |d]]; try reflexivity.
    exfalso. now apply (Hno d).
Qed.

Lemma tv_urls_round_trip_witness :
  run get_tv_urls (snd (run (post_tv_urls (Some (JArr [JStr "http://tv"]))) fresh_disk))
  = (Json 200 (JArr [JStr "http://tv"]),
     snd (run (post_tv_urls (Some (JArr [JStr "http://tv"]))) fresh_disk)).
Proof.
  destruct (tv_urls_round_trip (Some (JArr [JStr "http://tv"])) fresh_disk)
    as (_ & Hok & _).
  apply (Hok [JStr "http://tv"]); reflexivity.
Defined.

(* ================================================================== *)
(** * Uploaded files *)

Lemma upload_path_not_dir (name : string) :
  name <> "." -> name <> EmptyString ->
  String.eqb (upload_path name) UPLOADS_DIR = false.
Proof.
  intros Hname Hempty. unfold upload_path.
  apply String.eqb_neq in Hname, Hempty. rewrite Hname, Hempty. reflexivity.
Qed.

Lemma upload_path_not_tv_urls (name : string) : upload_path name <> TV_URLS_FILE.
Proof.
  unfold upload_path.
  destruct (String.eqb name "." || String.eqb name EmptyString); discriminate.
Qed.

Lemma delete_upload_refused (name : string) (fs : disk) :
  refused_name name = true ->
  run (delete_upload name) fs
  = (Json 400 (JObj [("error", JStr "Invalid filename")]), fs).
Proof.
  unfold refused_name, run, delete_upload. cbn zeta. now intros ->.
Qed.

Lemma delete_upload_accepted (name : string) (fs : disk) :
  refused_name name = false -> name <> "." -> name <> EmptyString ->
  write_error fs = None ->
  run (delete_upload name) fs
  = (Json 200 (JObj [("status", JStr "ok"); ("deleted", JStr name)]),
     if existsSync fs (upload_path name)
     then put (upload_path name) Absent fs else fs).
Proof.
  unfold refused_name, run, delete_upload. cbn zeta. intros -> Hname Hempty Hw.
  unfold try_catchM, bindM, gets, exists_upload, unlinkSync, ret.
  cbn beta.
  rewrite (upload_path_not_dir name Hname Hempty). cbn [orb].
  destruct (existsSync fs (upload_path name)); [|reflexivity].
  cbn beta iota. now rewrite Hw.
Qed.

(** X22.  Deleting an uploaded file.  A name with two dots in a row, a
    slash or a backslash is answered 400 and nothing is touched.  Another
    name (the single dot and the empty name apart) is answered 200 when the
    directory can be written: the file of that name in the uploads
    directory is gone whether it existed or not, a second deletion is
    answered 200 as well, and no other file changes; in particular the TV
    URLs list still holds the entry that the upload registered.  The single
    dot and the empty name give the uploads directory itself and are
    answered 500. *)
Theorem delete_upload_removes_one_file :
  forall (name : string) (fs : disk),
    (refused_name name = true ->
       run (delete_upload name) fs
       = (Json 400 (JObj [("error", JStr "Invalid filename")]), fs))
    /\ (refused_name name = false -> name <> "." -> name <> EmptyString ->
        write_error fs = None ->
          fst (run (delete_upload name) fs)
            = Json 200 (JObj [("status", JStr "ok"); ("deleted", JStr name)])
          /\ files (snd (run (delete_upload name) fs)) (upload_path name) = Absent
          /\ (forall p, p <> upload_path name ->
                files (snd (run (delete_upload name) fs)) p = files fs p)
          /\ loadTVUrls (snd (run (delete_upload name) fs)) = loadTVUrls fs
          /\ run (delete_upload name) (snd (run (delete_upload name) fs))
             = (Json 200 (JObj [("status", JStr "ok"); ("deleted", JStr name)]),
                snd (run (delete_upload name) fs)))
    /\ (name = "." \/ name = EmptyString ->
          run (delete_upload name) fs
          = (Json 500 (JObj [("error", JStr "Failed to delete file")]), fs)).
Proof.
  intros name fs. split; [|split].
  - apply delete_upload_refused.
  - intros Hok Hname Hempty Hw.
    rewrite (delete_upload_accepted name fs Hok Hname Hempty Hw). cbn [fst snd].
    assert (Hgone : files (if existsSync fs (upload_path name)
                           then put (upload_path name) Absent fs else fs)
                          (upload_path name) = Absent).
    { unfold existsSync.
      destruct (files fs (upload_path name)) eqn:E;
        [exact E | apply files_put_same | apply files_put_same]. }
    assert (Hothers : forall p, p <> upload_path name ->
              files (if existsSync fs (upload_path name)
                     then put (upload_path name) Absent fs else fs) p
              = files fs p).
    { intros p Hp. destruct (existsSync fs (upload_path name));
        [now apply files_put_other | reflexivity]. }
    split; [reflexivity|]. split; [exact Hgone|]. split; [exact Hothers|].
    split.
    + rewrite !loadTVUrls_cases, Hothers; [reflexivity|].
      intros E. symmetry in E. now apply upload_path_not_tv_urls in E.
    + rewrite delete_upload_accepted; try assumption.
      * unfold existsSync at 1. now rewrite Hgone.
      * now destruct (existsSync fs (upload_path name)).
  - intros [-> | ->]; reflexivity.
Qed.

Lemma delete_upload_removes_one_file_witness :
  files (snd (run (delete_upload "1_a.pdf")
               (put "uploads/1_a.pdf" (Content Malformed) fresh_disk)))
        "uploads/1_a.pdf" = Absent.
Proof.
  destruct (delete_upload_removes_one_file "1_a.pdf"
              (put "uploads/1_a.pdf" (Content Malformed) fresh_disk))
    as (_ & Hok & _).
  apply Hok; [reflexivity | discriminate | discriminate | reflexivity].
Defined.

Lemma all_safe_app (a b : string) :
  all_safe (a ++ b) = all_safe a && all_safe b.
Proof.
  induction a as [|c rest IH]; simpl; [reflexivity|].
  now rewrite IH, andb_assoc.
Qed.

Lemma all_safe_safeName (s : string) : all_safe (safeName s) = true.
Proof.
  induction s as [|c rest IH]; simpl; [reflexivity|].
  rewrite IH, andb_true_r. destruct (safe_char c) eqn:E; [exact E | reflexivity].
Qed.

Lemma digit_is_safe (c : ascii) : is_digit c = true -> safe_char c = true.
Proof.
  unfold is_digit, safe_char. intros ->. now rewrite orb_true_r.
Qed.

Lemma all_digits_safe (s : string) : all_digits s = true -> all_safe s = true.
Proof.
  induction s as [|c rest IH]; simpl; [reflexivity|].
  intros H. apply andb_true_iff in H as [Hc Hrest].
  now rewrite (digit_is_safe c Hc), IH.
Qed.

Lemma all_safe_string_of_Z (n : Z) : all_safe (string_of_Z n) = true.
Proof.
  unfold string_of_Z.
  destruct (Z.to_int n) as [d|d]; simpl;
    destruct (nz_uint_digits d) as (c & r & -> & Hc & Hr); simpl;
    now rewrite (digit_is_safe c Hc), (all_digits_safe r Hr).
Qed.

Lemma all_safe_no_separator (s : string) (c : ascii) :
  safe_char c = false -> all_safe s = true ->
  includes s (String c EmptyString) = false.
Proof.
  intros Hc. induction s as [|a rest IH]; simpl; [reflexivity|].
  intros H. apply andb_true_iff in H as [Ha Hrest].
  rewrite (IH Hrest), orb_false_r.
  destruct (Ascii.eqb_spec a c) as [->|]; [congruence | reflexivity].
Qed.

Lemma starts_with_empty (s : string) : starts_with s "" = true.
Proof. destruct s; reflexivity. Qed.

Lemma starts_with_dots_safeName (s : string) :
  starts_with s ".." = true -> starts_with (safeName s) ".." = true.
Proof.
  destruct s as [|a [|b rest]]; simpl; try discriminate.
  - now rewrite andb_false_r.
  - intros H. apply andb_true_iff in H as [Ha H].
    apply andb_true_iff in H as [Hb _].
    apply Ascii.eqb_eq in Ha, Hb. subst a b.
    change (starts_with (safeName rest) "" = true). apply starts_with_empty.
Qed.

Lemma includes_dots_safeName (s : string) :
  includes s ".." = true -> includes (safeName s) ".." = true.
Proof.
  induction s as [|a rest IH]; [discriminate|].
  intros H.
  change (starts_with (String a rest) ".." || includes rest ".." = true) in H.
  change (starts_with (safeName (String a rest)) ".."
          || includes (safeName rest) ".." = true).
  apply orb_true_iff in H as [H | H]; apply orb_true_iff.
  - left. now apply starts_with_dots_safeName.
  - right. now apply IH.
Qed.

Lemma includes_app_right (a b sub : string) :
  includes b sub = true -> includes (a ++ b) sub = true.
Proof.
  intros H. induction a as [|c rest IH]; [exact H|].
  change (starts_with (String c (rest ++ b)) sub || includes (rest ++ b) sub = true).
  rewrite IH. apply orb_true_r.
Qed.

Lemma safeName_length (s : string) :
  String.length (safeName s) = String.length s.
Proof. induction s as [|c rest IH]; simpl; [reflexivity | now rewrite IH]. Qed.

(** X23.  The name under which an upload is stored is made of the
    characters a-z, A-Z, 0-9, dot, underscore and minus only, so it has no
    slash and no backslash, and the part taken from the original name has
    its length.  Dots are kept: an original name with two dots in a row
    gives a stored name with two dots in a row, which the delete-upload
    route refuses with 400, so that this file cannot be deleted through the
    interface. *)
Theorem stored_upload_name_is_safe :
  forall (now : Z) (original : string),
    all_safe (filename now original) = true
    /\ includes (filename now original) "/" = false
    /\ includes (filename now original) backslash_string = false
    /\ String.length (safeName original) = String.length original
    /\ (includes original ".." = true ->
        refused_name (filename now original) = true
        /\ forall fs, run (delete_upload (filename now original)) fs
                      = (Json 400 (JObj [("error", JStr "Invalid filename")]), fs)).
Proof.
  intros now original.
  assert (Hsafe : all_safe (filename now original) = true).
  { unfold filename. rewrite !all_safe_app, all_safe_string_of_Z, all_safe_safeName.
    reflexivity. }
  split; [exact Hsafe|].
  split; [now apply all_safe_no_separator|].
  split; [now apply all_safe_no_separator|].
  split; [apply safeName_length|].
  intros Hdots.
  { 
    assert (Href : refused_name (filename now original) = true).
    { unfold refused_name, filename.
      rewrite (includes_app_right (string_of_Z now) ("_" ++ safeName original) "..").
      - reflexivity.
      - apply (includes_app_right "_"). now apply includes_dots_safeName. }
    split; [exact Href|]. intros fs. now apply delete_upload_refused. }
Qed.

Lemma stored_upload_name_is_safe_witness :
  run (delete_upload (filename 17 "a..pdf")) fresh_disk
  = (Json 400 (JObj [("error", JStr "Invalid filename")]), fresh_disk).
Proof.
  destruct (stored_upload_name_is_safe 17 "a..pdf") as (_ & _ & _ & _ & H).
  destruct (H eq_refl) as (_ & Hdel). apply Hdel.
Defined.

Lemma post_upload_run (f : uploaded) (name : value) (uploadedAt : string)
      (fs : disk) (items : list json) :
  loadTVUrls fs = JArr items -> write_error fs = None ->
  exists entry displayName,
    run (post_upload (Some f) name uploadedAt) fs
    = (Json 200 (JObj [("status", JStr "ok"); ("name", displayName);
                       ("url", JStr ("/uploads/" ++ stored_name f));
                       ("fileName", JStr (stored_name f))]),
       put TV_URLS_FILE (Content (Encodes (JArr (items ++ [entry])%list))) fs)
    /\ field entry "url" = Some (JStr ("/uploads/" ++ stored_name f))
    /\ field entry "name" = Some displayName
    /\ field entry "originalName" = Some (JStr (originalname f))
    /\ (truthy name = false -> displayName = JStr (originalname f)).
Proof.
  intros Hload Hw. unfold run, post_upload, bindM, gets. cbn zeta beta.
  rewrite Hload, (saveTVUrls_ok fs _ Hw). cbn [ret].
  eexists _, _. split; [reflexivity|].
  split; [reflexivity|]. split; [reflexivity|]. split; [reflexivity|].
  intros Hname. destruct name as [n|]; [|reflexivity]. now rewrite Hname.
Qed.

(** X24.  An upload adds one entry at the end of the TV URLs list, with
    the URL of the stored file and the original name, and with the original
    name as display name when the request gives none.  Deleting the stored
    file afterwards is answered 200 and removes the file, and leaves this
    entry in the list: the list then points to a file that is gone.
    Without a file the upload route answers 400 and writes nothing. *)
Theorem upload_then_delete_leaves_the_entry :
  forall (f : uploaded) (name : value) (uploadedAt : string)
         (fs : disk) (items : list json),
    loadTVUrls fs = JArr items -> write_error fs = None ->
    refused_name (stored_name f) = false ->
    stored_name f <> "." -> stored_name f <> EmptyString ->
    run (post_upload None name uploadedAt) fs
      = (Json 400 (JObj [("error", JStr "No file uploaded")]), fs)
    /\ exists entry,
         loadTVUrls (snd (run (post_upload (Some f) name uploadedAt) fs))
           = JArr (items ++ [entry])%list
         /\ field entry "url" = Some (JStr ("/uploads/" ++ stored_name f))
         /\ field entry "originalName" = Some (JStr (originalname f))
         /\ (truthy name = false ->
             field entry "name" = Some (JStr (originalname f)))
         /\ fst (run (delete_upload (stored_name f))
                   (snd (run (post_upload (Some f) name uploadedAt) fs)))
            = Json 200 (JObj [("status", JStr "ok");
                              ("deleted", JStr (stored_name f))])
         /\ files (snd (run (delete_upload (stored_name f))
                     (snd (run (post_upload (Some f) name uploadedAt) fs))))
                  (upload_path (stored_name f)) = Absent
         /\ loadTVUrls (snd (run (delete_upload (stored_name f))
                     (snd (run (post_upload (Some f) name uploadedAt) fs))))
            = JArr (items ++ [entry])%list.
Proof.
  intros f name uploadedAt fs items Hload Hw Hok Hdot Hempty.
  split; [reflexivity|].
  destruct (post_upload_run f name uploadedAt fs items Hload Hw)
    as (entry & displayName & Hrun & Hurl & Hname & Horig & Hdisplay).
  exists entry. rewrite Hrun. cbn [snd].
  assert (Hlist : loadTVUrls (put TV_URLS_FILE
                    (Content (Encodes (JArr (items ++ [entry])%list))) fs)
                  = JArr (items ++ [entry])%list) by reflexivity.
  split; [exact Hlist|]. split; [exact Hurl|]. split; [exact Horig|].
  split; [intros Hn; now rewrite Hname, (Hdisplay Hn)|].
  rewrite (delete_upload_accepted (stored_name f) _ Hok Hdot Hempty)
    by (now rewrite write_error_put).
  cbn [fst snd]. split; [reflexivity|]. split.
  - unfold existsSync.
    destruct (files (put TV_URLS_FILE _ fs) (upload_path (stored_name f))) eqn:E;
      [exact E | apply files_put_same | apply files_put_same].
  - rewrite loadTVUrls_cases.
    assert (Hsame : forall fs0 : disk,
              files (if existsSync fs0 (upload_path (stored_name f))
                     then put (upload_path (stored_name f)) Absent fs0 else fs0)
                    TV_URLS_FILE = files fs0 TV_URLS_FILE).
    { intros fs0. destruct (existsSync fs0 (upload_path (stored_name f)));
        [|reflexivity].
      apply files_put_other. intros E. symmetry in E.
      now apply upload_path_not_tv_urls in E. }
    rewrite Hsame. now rewrite files_put_same.
Qed.

Lemma upload_then_delete_leaves_the_entry_witness :
  exists entry,
    loadTVUrls (snd (run (delete_upload "1_a.pdf")
       (snd (run (post_upload (Some (mkUploaded "a.pdf" "1_a.pdf")) None "t")
                 fresh_disk))))
    = JArr [entry]
    /\ field entry "url" = Some (JStr "/uploads/1_a.pdf").
Proof.
  destruct (upload_then_delete_leaves_the_entry
              (mkUploaded "a.pdf" "1_a.pdf") None "t" fresh_disk []
              eq_refl eq_refl eq_refl ltac:(discriminate) ltac:(discriminate))
    as (_ & entry & _ & Hurl & _ & _ & _ & _ & Hlist).
  exists entry. split; [exact Hlist | exact Hurl].
Defined.

(* ================================================================== *)
(** * The first server *)

Lemma backend_saveLogs_ok (fs : disk) (d : json) :
  write_error fs = None ->
  Backend.saveLogs d fs
  = (Return tt, put Backend.LOG_FILE (Content (Encodes d)) fs).
Proof. intros Hw. unfold Backend.saveLogs, perform. now rewrite Hw. Qed.

Lemma backend_saveData_ok (fs : disk) (d : json) :
  write_error fs = None ->
  Backend.saveData d fs
  = (Return tt, put Backend.DATA_FILE (Content (Encodes d)) fs).
Proof. intros Hw. unfold Backend.saveData, perform. now rewrite Hw. Qed.

Lemma backend_post_logs_step (e : json) (fs : disk) (items : list json) :
  truthy (Some e) = true -> Backend.loadLogs fs = JArr items ->
  write_error fs = None ->
  run (Backend.post_logs (Some e)) fs
  = (Json 200 (JObj [("status", JStr "ok")]),
     put Backend.LOG_FILE (Content (Encodes (JArr (items ++ [e])%list))) fs).
Proof.
  intros He Hload Hw. unfold run, Backend.post_logs, bindM, gets.
  rewrite He. cbn [negb]. rewrite Hload, (backend_saveLogs_ok fs _ Hw).
  reflexivity.
Qed.

(** X25.  The first server stores any truthy body as the data document,
    without looking at its shape, and returns it as it is afterwards; a
    missing or falsy body is answered 400 and nothing is written.  The
    logs file is not touched, and a data file that is missing, empty or not
    JSON reads as the empty list. *)
Theorem backend_data_round_trip :
  forall (body : value) (fs : disk),
    (truthy body = false ->
       run (Backend.post_data body) fs
       = (Json 400 (JObj [("error", JStr "Missing data")]), fs))
    /\ (forall d, body = Some d -> truthy body = true -> write_error fs = None ->
          fst (run (Backend.post_data body) fs) = Json 200 (JObj [("status", JStr "ok")])
          /\ run Backend.get_data (snd (run (Backend.post_data body) fs))
             = (Json 200 d, snd (run (Backend.post_data body) fs))
          /\ (forall p, p <> Backend.DATA_FILE ->
                files (snd (run (Backend.post_data body) fs)) p = files fs p))
    /\ ((forall d, files fs Backend.DATA_FILE <> Content (Encodes d)) ->
        run Backend.get_data fs = (Json 200 (JArr []), fs)).
Proof.
  intros body fs. split; [|split].
  - intros Hf. unfold run, Backend.post_data.
    destruct body as [d|]; [|reflexivity]. now rewrite Hf.
  - intros d -> Ht Hw. unfold run, Backend.post_data, bindM.
    rewrite Ht. cbn [negb]. rewrite (backend_saveData_ok fs _ Hw).
    cbn [fst snd ret].
    split; [reflexivity|]. split; [reflexivity|].
    intros p Hp. now apply files_put_other.
  - intros Hno. unfold run, Backend.get_data, Backend.loadData, bindM, gets, ret,
      readFileSync.
    destruct (files fs Backend.DATA_FILE) as [| |[| |d]]; try reflexivity.
    exfalso. now apply (Hno d).
Qed.

Lemma backend_data_round_trip_witness :
  run Backend.get_data (snd (run (Backend.post_data (Some (JStr "x"))) fresh_disk))
  = (Json 200 (JStr "x"),
     snd (run (Backend.post_data (Some (JStr "x"))) fresh_disk)).
Proof.
  destruct (backend_data_round_trip (Some (JStr "x")) fresh_disk) as (_ & Hok & _).
  apply (Hok (JStr "x")); reflexivity.
Defined.

(** X26.  On the first server, truthy entries posted one after the other
    are added after the logs that were stored, in the order of posting,
    and the data document is not touched.  On a directory without a logs
    file the logs are then exactly the entries posted. *)
Theorem backend_logs_accumulate :
  forall (entries : list json) (fs : disk) (items : list json),
    Forall (fun e => truthy (Some e) = true) entries ->
    Backend.loadLogs fs = JArr items ->
    write_error fs = None ->
    run Backend.get_logs (backend_post_all entries fs)
      = (Json 200 (JArr (items ++ entries)%list), backend_post_all entries fs)
    /\ Backend.loadData (backend_post_all entries fs) = Backend.loadData fs
    /\ write_error (backend_post_all entries fs) = None.
Proof.
  induction entries as [|e rest IH]; intros fs items Hall Hload Hw.
  - cbn [backend_post_all fold_left]. rewrite app_nil_r.
    split; [|split; [reflexivity | exact Hw]].
    unfold run, Backend.get_logs, bindM, gets, ret. now rewrite Hload.
  - inversion Hall as [|? ? He Hrest]; subst.
    change (backend_post_all (e :: rest) fs)
      with (backend_post_all rest (snd (run (Backend.post_logs (Some e)) fs))).
    rewrite (backend_post_logs_step e fs items He Hload Hw). cbn [snd].
    destruct (IH (put Backend.LOG_FILE
                    (Content (Encodes (JArr (items ++ [e])%list))) fs)
                 (items ++ [e])%list Hrest eq_refl Hw) as (Hg & Hd & Hw').
    rewrite <- app_assoc in Hg. cbn [app] in Hg.
    split; [exact Hg|]. split; [|exact Hw'].
    rewrite Hd. reflexivity.
Qed.

Lemma backend_logs_accumulate_witness :
  fst (run Backend.get_logs (backend_post_all [ts1; ts2] fresh_disk))
  = Json 200 (JArr [ts1; ts2]).
Proof.
  destruct (backend_logs_accumulate [ts1; ts2] fresh_disk []) as (H & _).
  - repeat constructor.
  - reflexivity.
  - reflexivity.
  - now rewrite H.
Defined.

(* ================================================================== *)
(** * The server before the draft workflow *)




(* ================================================================== *)
(** * More on routing and on the draft status *)

(** X28.  A DELETE request on two segments under /api/logs reaches the
    group-and-date handler with the first segment as group name and the
    second as date; a GET, POST or PUT request on one segment under
    /api/logs matches no route. *)
Theorem two_segment_delete_is_by_group_and_date :
  forall (a l g d : string) (body : value) (fs : disk),
    lower a = "api" -> lower l = "logs" -> g <> "" -> d <> "" ->
    dispatch (mkRequest DELETE [a; l; g; d] body)
      = Some (DeleteLogsByGroupAndDate, [("groupName", g); ("date", d)])
    /\ app (mkRequest DELETE [a; l; g; d] body) fs
       = Some (run (delete_logs_by_group_and_date g d) fs)
    /\ app (mkRequest GET [a; l; g] body) fs = Some (NotFound, fs)
    /\ app (mkRequest POST [a; l; g] body) fs = Some (NotFound, fs)
    /\ app (mkRequest PUT [a; l; g] body) fs = Some (NotFound, fs).
Proof.
  intros a l g d body fs Ha Hl Hg Hd.
  apply String.eqb_neq in Hg, Hd.
  assert (Hdis : dispatch (mkRequest DELETE [a; l; g; d] body)
                 = Some (DeleteLogsByGroupAndDate, [("groupName", g); ("date", d)])).
  { unfold dispatch, routes. cbn -[lower String.eqb].
    rewrite Ha, Hl, Hg, Hd. reflexivity. }
  split; [exact Hdis|]. split.
  - unfold app. rewrite Hdis. reflexivity.
  - assert (Hnone : forall m, m <> DELETE ->
              dispatch (mkRequest m [a; l; g] body) = None).
    { intros m Hm. unfold dispatch, routes.
      destruct m; try contradiction; cbn -[lower String.eqb];
        rewrite Ha, Hl; cbn; reflexivity. }
    unfold app. rewrite !Hnone by discriminate. repeat split.
Qed.

Lemma two_segment_delete_is_by_group_and_date_witness :
  app (mkRequest DELETE ["api"; "logs"; "A"; "2024-01-01"] None) cascade_disk
  = Some (run (delete_logs_by_group_and_date "A" "2024-01-01") cascade_disk).
Proof.
  apply (two_segment_delete_is_by_group_and_date
           "api" "logs" "A" "2024-01-01" None cascade_disk);
    [reflexivity | reflexivity | discriminate | discriminate].
Defined.

(** X29.  After a save that is accepted, the draft-status route reports
    changes exactly when the body differs from the published Snapshot as a
    document with ordered keys; saving the published Snapshot itself
    reports none. *)
Theorem status_after_save :
  forall (d : json) (fs : disk),
    isArray (field d "groups") = true -> isArray (field d "logs") = true ->
    write_error fs = None ->
    (hasChanges (step (SaveDraft (Some d)) fs) = true <-> d <> loadData fs)
    /\ (d = loadData fs -> hasChanges (step (SaveDraft (Some d)) fs) = false).
Proof.
  intros d fs Hg Hl Hw. rewrite (save_step d fs Hg Hl Hw).
  assert (Hdata : loadData (put DRAFT_FILE (Content (Encodes d)) fs) = loadData fs)
    by (apply loadData_other_file; discriminate).
  split.
  - rewrite hasChanges_iff_documents, Hdata, loadDraft_after_write.
    split; intros H E; apply H; now symmetry.
  - intros E. apply hasChanges_same_documents.
    now rewrite Hdata, loadDraft_after_write.
Qed.

Lemma status_after_save_witness :
  hasChanges (step (SaveDraft (Some logs_first)) same_order_disk) = true.
Proof.
  apply (status_after_save logs_first same_order_disk); try reflexivity.
  discriminate.
Defined.
